(** * The cmake-server driver of CMake Tools, and the settings reader it observes

    A shallow embedding of [src/drivers/cmakeServerDriver.ts] (class
    [CMakeServerDriver] and the helper [targetReducer]) and of
    [ConfigurationReader.updatePartial] from the settings module.

    Conventions.
    - An optional field ([x?: T], [T | undefined], [T | null]) is an [option].
    - A JavaScript truthiness test on an optional string is [truthy]: the
      value is present and is not the empty string.
    - A property read on an object literal follows the prototype chain: a
      name that is not an own property but is a member of [Object.prototype]
      yields that inherited member, not [undefined].
    - An [async] method is run to completion at the place it is called; the
      promise it returns is kept as a settled promise ([Fulfilled] or
      [Rejected]), and [await] on it returns the value or throws the reason.
      Tasks that overlap in time are the subject of the module [Async] at the
      end of the definitions.
    - What the sources at hand do not contain is taken from the environment
      ([Driver.environment]: the replies of the server, the file system,
      [path.join], [proc.buildCmdStr]) or passed as a parameter
      ([path.normalize], [util.compare]); the class [InputFileSet] and the
      constructor of [cache.Entry] are modelled from the spec.
    - [doInit], [asyncDispose] and [create] are not embedded;
      [doRefreshExpansions] is embedded with the one field it owns passed
      explicitly, and of the getters of the settings reader, those that
      compute ([numJobs], [numCTestJobs]). *)

From stdpp Require Import gmap strings list.

Open Scope string_scope.
Open Scope list_scope.

(** ** JavaScript objects *)

Module Js.

(** The members every object literal inherits from [Object.prototype]. *)
Definition objectPrototypeMembers : list string :=
  [ "constructor"; "__defineGetter__"; "__defineSetter__"; "hasOwnProperty";
    "__lookupGetter__"; "__lookupSetter__"; "isPrototypeOf";
    "propertyIsEnumerable"; "toString"; "valueOf"; "__proto__";
    "toLocaleString" ].

Definition inherited (name : string) : bool :=
  bool_decide (name ∈ objectPrototypeMembers).

(** [s ? a : b] for [s : string | undefined]. *)
Definition truthy (s : option string) : bool :=
  match s with
  | Some v => negb (String.eqb v "")
  | None => false
  end.

(** [o.m[key]] on an object literal with own properties [own]: the own
    property, else the inherited member, else [undefined]. *)
Inductive property (A : Type) : Type :=
| Own (a : A)
| Inherited (member : string)
| Undefined.
Arguments Own {A} a.
Arguments Inherited {A} member.
Arguments Undefined {A}.

Definition get {A} (own : list (string * A)) (key : string) : property A :=
  match find (fun kv => String.eqb (fst kv) key) own with
  | Some kv => Own (snd kv)
  | None => if inherited key then Inherited key else Undefined
  end.

(** [key in o]. *)
Definition has {A} (own : list (string * A)) (key : string) : bool :=
  match get own key with
  | Undefined => false
  | _ => true
  end.

End Js.

(** ** The code model and its translation (convertServerCodeModel) *)

Module CodeModel.

(** The server's model, [cms.ServerCodeModelContent]. *)
Record ServerFileGroup := {
  sg_sources : list string;
  sg_language : option string;
  sg_includePath : option (list string);
  sg_defines : option (list string);
  sg_isGenerated : bool;
  sg_compileFlags : option string
}.

Record ServerTarget := {
  st_name : string;
  st_type : string;
  st_sourceDirectory : string;
  st_fullName : string;
  st_artifacts : option (list string);
  st_sysroot : option string;
  st_linkLanguageFlags : option string;
  st_fileGroups : option (list ServerFileGroup)
}.

Record ServerProject := {
  sp_name : string;
  sp_sourceDirectory : string;
  sp_hasInstallRule : option bool;
  sp_targets : list ServerTarget
}.

Record ServerConfiguration := {
  sc_name : string;
  sc_projects : list ServerProject
}.

Record ServerCodeModelContent := {
  s_configurations : list ServerConfiguration
}.

(** The driver's model, [CodeModelContent]. *)
Record CodeModelFileGroup := {
  sources : list string;
  language : option string;
  includePath : option (list string);
  defines : option (list string);
  isGenerated : bool;
  compileCommandFragments : list string
}.

Record CodeModelTarget := {
  name : string;
  type : string;
  sourceDirectory : string;
  fullName : string;
  artifacts : option (list string);
  sysroot : option string;
  fileGroups : list CodeModelFileGroup
}.

Record CodeModelProject := {
  p_name : string;
  p_sourceDirectory : string;
  hasInstallRule : option bool;
  targets : list CodeModelTarget
}.

Record CodeModelConfiguration := {
  c_name : string;
  projects : list CodeModelProject
}.

Record CodeModelContent := {
  configurations : list CodeModelConfiguration
}.

(** [group.compileFlags ? [group.compileFlags]
      : (linkLanguageFlags ? [linkLanguageFlags] : [])] *)
Definition fragments (compileFlags linkLanguageFlags : option string)
  : list string :=
  if Js.truthy compileFlags then option_list compileFlags
  else if Js.truthy linkLanguageFlags then option_list linkLanguageFlags
  else [].

Definition convertGroup (linkLanguageFlags : option string)
    (group : ServerFileGroup) : CodeModelFileGroup :=
  {| sources := sg_sources group;
     language := sg_language group;
     includePath := sg_includePath group;
     defines := sg_defines group;
     isGenerated := sg_isGenerated group;
     compileCommandFragments :=
       fragments (sg_compileFlags group) linkLanguageFlags |}.

Definition convertTarget (target : ServerTarget) : CodeModelTarget :=
  let linkLanguageFlags := st_linkLanguageFlags target in
  {| name := st_name target;
     type := st_type target;
     sourceDirectory := st_sourceDirectory target;
     fullName := st_fullName target;
     artifacts := st_artifacts target;
     sysroot := st_sysroot target;
     fileGroups :=
       match st_fileGroups target with
       | Some groups => map (convertGroup linkLanguageFlags) groups
       | None => []
       end |}.

Definition convertProject (project : ServerProject) : CodeModelProject :=
  {| p_name := sp_name project;
     p_sourceDirectory := sp_sourceDirectory project;
     hasInstallRule := sp_hasInstallRule project;
     targets := map convertTarget (sp_targets project) |}.

Definition convertConfiguration (config : ServerConfiguration)
  : CodeModelConfiguration :=
  {| c_name := sc_name config;
     projects := map convertProject (sc_projects config) |}.

Definition convertServerCodeModel
    (serverCodeModel : option ServerCodeModelContent)
  : option CodeModelContent :=
  match serverCodeModel with
  | Some m =>
      Some {| configurations :=
                map convertConfiguration (s_configurations m) |}
  | None => None
  end.

(** Every file group of a server model, with the target that encloses it,
    in document order; and every file group of a translated model. *)
Definition serverGroupsOfTarget (t : ServerTarget)
  : list (ServerTarget * ServerFileGroup) :=
  match st_fileGroups t with
  | Some groups => map (fun g => (t, g)) groups
  | None => []
  end.

Definition serverGroups (m : ServerCodeModelContent)
  : list (ServerTarget * ServerFileGroup) :=
  flat_map (fun c =>
    flat_map (fun p => flat_map serverGroupsOfTarget (sp_targets p))
             (sc_projects c))
    (s_configurations m).

Definition groups (m : CodeModelContent) : list CodeModelFileGroup :=
  flat_map (fun c =>
    flat_map (fun p => flat_map fileGroups (targets p)) (projects c))
    (configurations m).

(** The rule for compile command fragments, in words: an optional string
    "has flags [f]" when it is present, equal to [f] and not empty. *)
Definition hasFlags (o : option string) (f : string) : Prop :=
  o = Some f /\ f <> "".

Definition noFlags (o : option string) : Prop :=
  o = None \/ o = Some "".

Definition fragmentsRule (compileFlags linkLanguageFlags : option string)
    (result : list string) : Prop :=
  (forall f, hasFlags compileFlags f -> result = [f]) /\
  (noFlags compileFlags ->
   forall l, hasFlags linkLanguageFlags l -> result = [l]) /\
  (noFlags compileFlags -> noFlags linkLanguageFlags -> result = []).

End CodeModel.

(** ** The targets views (targets, executableTargets, uniqueTargets) *)

Module Targets.
Import CodeModel.

Record RichTarget := {
  rt_type : string;
  rt_name : string;
  filepath : string;
  targetType : string
}.

Record ExecutableTarget := {
  et_name : string;
  et_path : string
}.

(** [localize(key, message)] with the default (English) bundle. *)
Definition build_all_target : string :=
  "A special target to build all available targets".
Definition install_all_target : string :=
  "A special target to install all available targets".
Definition utility_target : string := "Utility target".

Definition buildAllTarget (allTargetName : string) : RichTarget :=
  {| rt_type := "rich"; rt_name := allTargetName;
     filepath := build_all_target; targetType := "META" |}.

Definition installTarget : RichTarget :=
  {| rt_type := "rich"; rt_name := "install";
     filepath := install_all_target; targetType := "META" |}.

(** [(project.hasInstallRule) ? project.hasInstallRule : false] *)
Definition declaresInstall (project : CodeModelProject) : bool :=
  match hasInstallRule project with
  | Some b => b
  | None => false
  end.

Section WithPath.
(** Node's [path.normalize]. *)
Variable normalize : string -> string.

Definition richTarget (t : CodeModelTarget) : RichTarget :=
  {| rt_type := "rich";
     rt_name := name t;
     filepath :=
       match artifacts t with
       | Some (a :: _) => normalize a
       | _ => utility_target
       end;
     targetType := type t |}.

Definition metaTargets (allTargetName : string)
    (build_config : CodeModelConfiguration) : list RichTarget :=
  buildAllTarget allTargetName ::
  (if existsb declaresInstall (projects build_config)
   then [installTarget] else []).

(** The getter [targets]; [currentBuildType] and [allTargetName] are
    getters of the base class. The two early exits return the empty
    list (the second one after logging an error). *)
Definition targets (codeModel : option CodeModelContent)
    (currentBuildType allTargetName : string) : list RichTarget :=
  match codeModel with
  | None => []
  | Some cm =>
      match find (fun conf => String.eqb (c_name conf) currentBuildType)
                 (configurations cm) with
      | None => []
      | Some build_config =>
          fold_left
            (fun acc project =>
               acc ++ map richTarget (CodeModel.targets project))
            (projects build_config)
            (metaTargets allTargetName build_config)
      end
  end.

End WithPath.

(** [t.name === t2.name && t.filepath === t2.filepath
    && t.targetType === t2.targetType] *)
Definition sameTarget (t t2 : RichTarget) : bool :=
  String.eqb (rt_name t) (rt_name t2)
  && String.eqb (filepath t) (filepath t2)
  && String.eqb (targetType t) (targetType t2).

Definition targetReducer (set : list RichTarget) (t : RichTarget)
  : list RichTarget :=
  if existsb (sameTarget t) set then set else set ++ [t].

(** [this.targets.reduce(targetReducer, [])] *)
Definition uniqueTargets (targets : list RichTarget) : list RichTarget :=
  fold_left targetReducer targets [].

Definition executableTargets (targets : list RichTarget)
  : list ExecutableTarget :=
  map (fun t => {| et_name := rt_name t; et_path := filepath t |})
      (fold_left targetReducer
         (filter (fun t => targetType t = "EXECUTABLE") targets) []).

(** The (name, filepath, targetType) triple of a target. *)
Definition triple (t : RichTarget) : string * string * string :=
  (rt_name t, filepath t, targetType t).

(** Specification of "first occurrences": walking the list from the left
    with the elements already passed in [before], an element is kept
    exactly when no element before it has the same triple. *)
Fixpoint firstOccurrences (before l : list RichTarget) : list RichTarget :=
  match l with
  | [] => []
  | t :: rest =>
      if bool_decide (triple t ∈ map triple before)
      then firstOccurrences (before ++ [t]) rest
      else t :: firstOccurrences (before ++ [t]) rest
  end.

End Targets.

(** ** The cache rebuilt after a configure *)

Module CacheEntryType.
(** [api.CacheEntryType] *)
Inductive t := Bool | String | Path | FilePath | Internal | Uninitialized | Static.
End CacheEntryType.

Module Cache.

(** One element of [clcache.cache], as the server sends it. *)
Record RawProperties := {
  HELPSTRING : option string;
  ADVANCED : option string
}.

Record RawEntry := {
  raw_key : string;
  raw_value : string;
  raw_type : string;
  raw_properties : RawProperties
}.

(** Modelled from the spec: the class [cache.Entry] is not part of the
    sources at hand; a CacheEntry is {key, value, type, helpString,
    isAdvanced}, built from the five constructor arguments. The type field
    holds whatever the lookup in [entry_map] produced. *)
Record Entry := {
  key : string;
  value : string;
  type : Js.property CacheEntryType.t;
  helpString : option string;
  advanced : bool
}.

Definition entry_map : list (string * CacheEntryType.t) :=
  [ ("BOOL", CacheEntryType.Bool);
    ("STRING", CacheEntryType.String);
    ("PATH", CacheEntryType.Path);
    ("FILEPATH", CacheEntryType.FilePath);
    ("INTERNAL", CacheEntryType.Internal);
    ("UNINITIALIZED", CacheEntryType.Uninitialized);
    ("STATIC", CacheEntryType.Static) ].

(** [localize('unknown.cache.entry.type', 'Unknown cache entry type {0}', el.type)] *)
Definition unknown_cache_entry_type (tag : string) : string :=
  "Unknown cache entry type " +:+ tag.

(** The accumulator of the reduction: the map under construction and the
    diagnostics handed to [rollbar.error] so far. *)
Definition acc : Type := gmap string Entry * list string.

(** [new cache.Entry(el.key, el.value, type, el.properties.HELPSTRING,
    el.properties.ADVANCED === '1')] *)
Definition newEntry (el : RawEntry) (ty : Js.property CacheEntryType.t)
  : Entry :=
  {| key := raw_key el;
     value := raw_value el;
     type := ty;
     helpString := HELPSTRING (raw_properties el);
     advanced := bool_decide (ADVANCED (raw_properties el) = Some "1") |}.

Definition reducer (a : acc) (el : RawEntry) : acc :=
  match Js.get entry_map (raw_type el) with
  | Js.Undefined =>
      (a.1, a.2 ++ [unknown_cache_entry_type (raw_type el)])
  | ty => (<[raw_key el := newEntry el ty]> a.1, a.2)
  end.

(** [clcache.cache.reduce(..., new Map<string, cache.Entry>())] *)
Definition rebuild (raw : list RawEntry) : acc :=
  fold_left reducer raw (∅, []).

Definition recognized (tag : string) : Prop :=
  tag ∈ map fst entry_map.

Definition closedType (ty : Js.property CacheEntryType.t) : Prop :=
  ∃ t, ty = Js.Own t.

End Cache.

(** ** The input file set *)

Module Dirty.

(** The modification time of every file that exists. *)
Definition filesystem : Type := string -> option nat.

(** Modelled from the spec: the class [InputFileSet] of [@cmt/dirty] is not
    part of the sources at hand. An InputFile is {path,
    lastKnownModifiedTime}; a missing file is recorded as absent. *)
Record InputFile := {
  filePath : string;
  lastKnownModifiedTime : option nat
}.

(** Modelled from the spec: an InputFileSet is an ordered set of InputFiles
    (the directory roots it was captured against play no part here). *)
Record InputFileSet := {
  inputFiles : list InputFile
}.

(** Modelled from the spec: [createEmpty] is the sentinel set with zero
    files. *)
Definition createEmpty : InputFileSet := {| inputFiles := [] |}.

(** Modelled from the spec: [create(paths)] snapshots the current
    modification time of every given path. *)
Definition create (fs : filesystem) (paths : list string) : InputFileSet :=
  {| inputFiles :=
       map (fun p => {| filePath := p; lastKnownModifiedTime := fs p |})
           paths |}.

(** Modelled from the spec: [checkOutOfDate()] re-reads the modification
    time of every recorded file and is true when the time of some file
    differs from the snapshot, a file that was there is now absent, or a
    file that was absent now exists; it is false only if every file
    matches. *)
Definition checkOutOfDate (fs : filesystem) (s : InputFileSet) : bool :=
  existsb
    (fun f => negb (bool_decide (fs (filePath f) = lastKnownModifiedTime f)))
    (inputFiles s).

End Dirty.

(** ** The driver, one operation at a time *)

Module Driver.

(** A started [cms.CMakeServerClient], identified by a number. *)
Definition client : Type := nat.

(** What can be thrown. [e instanceof cms.ServerError] holds for the first
    constructor only. *)
Inductive error :=
| ServerError (message : string)
| NoGeneratorError
| Error (message : string).

Definition instanceofServerError (e : error) : bool :=
  match e with
  | ServerError _ => true
  | _ => false
  end.

(** [util.errorToString] *)
Definition errorToString (e : error) : string :=
  match e with
  | ServerError m => m
  | NoGeneratorError => "No usable generator found."
  | Error m => m
  end.

Inductive outcome (A : Type) : Type :=
| Returned (a : A)
| Thrown (e : error).
Arguments Returned {A} a.
Arguments Thrown {A} e.

(** A promise, at the time it is awaited. *)
Inductive promise (A : Type) : Type :=
| Fulfilled (a : A)
| Rejected (e : error).
Arguments Fulfilled {A} a.
Arguments Rejected {A} e.

Record CMakeGenerator := {
  gen_name : string;
  gen_toolset : option string;
  gen_platform : option string
}.

Record GlobalSettingsContent := {
  gs_generator : string
}.

Record ClientInit := {
  tmpdir : string;
  ci_binaryDir : string;
  ci_sourceDir : string;
  ci_cmakePath : string;
  ci_environment : list (string * string);
  ci_generator : CMakeGenerator
}.

(** The calls that leave the driver: requests to a client, the start of a
    client, and two methods of the base class. The index is the type of
    the value a successful call yields. *)
Inductive request : Type -> Type :=
| Start (init : ClientInit) : request client
| ShutdownAsync (c : client) : request unit
| Configure (c : client) (cacheArguments : list string) : request unit
| Compute (c : client) : request unit
| CmakeInputs (c : client) : request (list string)
| GetCMakeCacheContent (c : client) : request (list Cache.RawEntry)
| Codemodel (c : client)
    : request (option CodeModel.ServerCodeModelContent)
| GetGlobalSettings (c : client) : request GlobalSettingsContent
| CleanPriorConfiguration : request unit
| GetConfigureEnvironment : request (list (string * string)).

Inductive event :=
| Sent {T : Type} (r : request T)
| Stat (paths : list string)
| LogInfo (message : string)
| LogError (message : string)
| RollbarError (message : string)
| ShowChannel
| Subscribed
| Disposed
| CallbackRun
| CodeModelChanged (cm : option CodeModel.CodeModelContent).

(** Everything outside the driver: the reply to the n-th call, the file
    system at that time, and two library functions. *)
Record environment := {
  reply : nat -> forall T : Type, request T -> outcome T;
  mtimes : nat -> Dirty.filesystem;
  path_join : string -> string -> string;
  buildCmdStr : string -> list string -> string
}.

(** The fields of [CMakeDriver] the server driver reads. *)
Record base := {
  generator : option CMakeGenerator;
  binaryDir : string;
  sourceDir : string;
  workspaceFolder : string;
  cmakePath : string
}.

Record driver := {
  _cmsClient : promise (option client);
  _clientChangeInProgress : promise unit;
  _globalSettings : option GlobalSettingsContent;
  _cacheEntries : gmap string Cache.Entry;
  _cmakeInputFileSet : Dirty.InputFileSet;
  codeModel : option CodeModel.CodeModelContent;
  _hadConfigurationChanged : bool;
  super : base
}.

Record state := {
  this : driver;
  now : nat;
  trace : list event
}.

(** A callback handed to [doSetKit] and its siblings: it acts on the base
    class (it selects the kit or preset, and with it the generator). *)
Definition callback : Type := base -> outcome unit * base.

(** *** The monad of driver code *)

Definition M (A : Type) : Type := environment -> state -> outcome A * state.

Definition ret {A} (a : A) : M A := fun _ s => (Returned a, s).

Definition throw {A} (e : error) : M A := fun _ s => (Thrown e, s).

Definition bind {A B} (m : M A) (k : A -> M B) : M B :=
  fun env s =>
    match m env s with
    | (Returned a, s') => k a env s'
    | (Thrown e, s') => (Thrown e, s')
    end.

Notation "'do!' x <- m ; k" := (bind m (fun x => k))
  (at level 10, x name, m at level 100, k at level 200).

(** Reads and writes of [this]. *)
Definition get {A} (f : driver -> A) : M A :=
  fun _ s => (Returned (f (this s)), s).

Definition modify (f : driver -> driver) : M unit :=
  fun _ s =>
    (Returned tt, {| this := f (this s); now := now s; trace := trace s |}).

Definition emit (e : event) : M unit :=
  fun _ s =>
    (Returned tt,
     {| this := this s; now := now s; trace := trace s ++ [e] |}).

(** A call that leaves the driver: it is recorded, answered by the
    environment, and time moves on. *)
Definition call {T} (r : request T) : M T :=
  fun env s =>
    (reply env (now s) T r,
     {| this := this s; now := S (now s); trace := trace s ++ [Sent r] |}).

(** [await p] *)
Definition await {A} (p : promise A) : M A :=
  match p with
  | Fulfilled a => ret a
  | Rejected e => throw e
  end.

(** The call of an [async] method: its body runs, and what it returns or
    throws settles the promise the call evaluates to. *)
Definition async {A} (body : M A) : M (promise A) :=
  fun env s =>
    match body env s with
    | (Returned a, s') => (Returned (Fulfilled a), s')
    | (Thrown e, s') => (Returned (Rejected e), s')
    end.

(** [try { body } catch (e) { handler e }] *)
Definition try_catch {A} (body : M A) (handler : error -> M A) : M A :=
  fun env s =>
    match body env s with
    | (Returned a, s') => (Returned a, s')
    | (Thrown e, s') => handler e env s'
    end.

(** [try { body } finally { final }] *)
Definition try_finally {A} (body : M A) (final : M unit) : M A :=
  fun env s =>
    match body env s with
    | (Returned a, s') =>
        match final env s' with
        | (Returned _, s'') => (Returned a, s'')
        | (Thrown e, s'') => (Thrown e, s'')
        end
    | (Thrown e, s') =>
        match final env s' with
        | (Returned _, s'') => (Thrown e, s'')
        | (Thrown e', s'') => (Thrown e', s'')
        end
    end.

(** Field assignments. *)
Definition set_cmsClient (p : promise (option client)) (d : driver) : driver :=
  {| _cmsClient := p;
     _clientChangeInProgress := _clientChangeInProgress d;
     _globalSettings := _globalSettings d;
     _cacheEntries := _cacheEntries d;
     _cmakeInputFileSet := _cmakeInputFileSet d;
     codeModel := codeModel d;
     _hadConfigurationChanged := _hadConfigurationChanged d;
     super := super d |}.

Definition set_clientChangeInProgress (p : promise unit) (d : driver) : driver :=
  {| _cmsClient := _cmsClient d;
     _clientChangeInProgress := p;
     _globalSettings := _globalSettings d;
     _cacheEntries := _cacheEntries d;
     _cmakeInputFileSet := _cmakeInputFileSet d;
     codeModel := codeModel d;
     _hadConfigurationChanged := _hadConfigurationChanged d;
     super := super d |}.

Definition set_globalSettings (g : GlobalSettingsContent) (d : driver) : driver :=
  {| _cmsClient := _cmsClient d;
     _clientChangeInProgress := _clientChangeInProgress d;
     _globalSettings := Some g;
     _cacheEntries := _cacheEntries d;
     _cmakeInputFileSet := _cmakeInputFileSet d;
     codeModel := codeModel d;
     _hadConfigurationChanged := _hadConfigurationChanged d;
     super := super d |}.

Definition set_cacheEntries (m : gmap string Cache.Entry) (d : driver) : driver :=
  {| _cmsClient := _cmsClient d;
     _clientChangeInProgress := _clientChangeInProgress d;
     _globalSettings := _globalSettings d;
     _cacheEntries := m;
     _cmakeInputFileSet := _cmakeInputFileSet d;
     codeModel := codeModel d;
     _hadConfigurationChanged := _hadConfigurationChanged d;
     super := super d |}.

Definition set_cmakeInputFileSet (i : Dirty.InputFileSet) (d : driver) : driver :=
  {| _cmsClient := _cmsClient d;
     _clientChangeInProgress := _clientChangeInProgress d;
     _globalSettings := _globalSettings d;
     _cacheEntries := _cacheEntries d;
     _cmakeInputFileSet := i;
     codeModel := codeModel d;
     _hadConfigurationChanged := _hadConfigurationChanged d;
     super := super d |}.

Definition set_codeModel (cm : option CodeModel.CodeModelContent) (d : driver) : driver :=
  {| _cmsClient := _cmsClient d;
     _clientChangeInProgress := _clientChangeInProgress d;
     _globalSettings := _globalSettings d;
     _cacheEntries := _cacheEntries d;
     _cmakeInputFileSet := _cmakeInputFileSet d;
     codeModel := cm;
     _hadConfigurationChanged := _hadConfigurationChanged d;
     super := super d |}.

Definition set_hadConfigurationChanged (b : bool) (d : driver) : driver :=
  {| _cmsClient := _cmsClient d;
     _clientChangeInProgress := _clientChangeInProgress d;
     _globalSettings := _globalSettings d;
     _cacheEntries := _cacheEntries d;
     _cmakeInputFileSet := _cmakeInputFileSet d;
     codeModel := codeModel d;
     _hadConfigurationChanged := b;
     super := super d |}.

Definition set_super (b : base) (d : driver) : driver :=
  {| _cmsClient := _cmsClient d;
     _clientChangeInProgress := _clientChangeInProgress d;
     _globalSettings := _globalSettings d;
     _cacheEntries := _cacheEntries d;
     _cmakeInputFileSet := _cmakeInputFileSet d;
     codeModel := codeModel d;
     _hadConfigurationChanged := _hadConfigurationChanged d;
     super := b |}.

(** [await cb()] *)
Definition invoke (cb : callback) : M unit :=
  fun _ s =>
    let r := cb (super (this s)) in
    (r.1,
     {| this := set_super r.2 (this s);
        now := now s;
        trace := trace s ++ [CallbackRun] |}).

(** [cb()]: the callback runs, and the call evaluates to the promise of
    the callback. *)
Definition called (cb : callback) : M (promise unit) :=
  fun _ s =>
    let r := cb (super (this s)) in
    (Returned match r.1 with
              | Returned u => Fulfilled u
              | Thrown e => Rejected e
              end,
     {| this := set_super r.2 (this s);
        now := now s;
        trace := trace s ++ [CallbackRun] |}).

(** [InputFileSet.create(paths)] and [checkOutOfDate()] read the file
    system as it is when they run. *)
Definition InputFileSet_create (paths : list string) : M Dirty.InputFileSet :=
  fun env s =>
    (Returned (Dirty.create (mtimes env (now s)) paths),
     {| this := this s; now := S (now s);
        trace := trace s ++ [Stat paths] |}).

Definition InputFileSet_checkOutOfDate (set : Dirty.InputFileSet) : M bool :=
  fun env s =>
    (Returned (Dirty.checkOutOfDate (mtimes env (now s)) set),
     {| this := this s; now := S (now s);
        trace := trace s ++ [Stat (map Dirty.filePath (Dirty.inputFiles set))] |}).

(** *** The methods of [CMakeServerDriver] *)

Definition _startNewClient : M client :=
  do! g <- get (fun d => generator (super d));
  match g with
  | None => throw NoGeneratorError
  | Some g =>
      do! b <- get super;
      do! environment <- call GetConfigureEnvironment;
      fun env =>
        call (Start {| tmpdir := path_join env (workspaceFolder b) ".vscode";
                       ci_binaryDir := binaryDir b;
                       ci_sourceDir := sourceDir b;
                       ci_cmakePath := cmakePath b;
                       ci_environment := environment;
                       ci_generator := g |}) env
  end.

(** A promise of a client, used where a promise of a client or null is
    expected. *)
Definition started (p : promise client) : promise (option client) :=
  match p with
  | Fulfilled c => Fulfilled (Some c)
  | Rejected e => Rejected e
  end.

Definition getClient : M client :=
  do! p <- get _cmsClient;
  do! c <- await p;
  do! _ <- match c with
           | Some _ => ret tt
           | None =>
               do! p' <- async _startNewClient;
               modify (set_cmsClient (started p'))
           end;
  do! p <- get _cmsClient;
  do! client_started <- await p;
  match client_started with
  | None => throw (Error "Unable to start cms client")
  | Some c => ret c
  end.

Definition shutdownClient : M unit :=
  do! p <- get _cmsClient;
  do! cl <- await p;
  match cl with
  | Some c => call (ShutdownAsync c)
  | None => ret tt
  end.

Definition doPreCleanConfigure : M unit :=
  do! p <- get _cmsClient;
  do! old_cl <- await p;
  do! p' <- async
    (do! _ <- match old_cl with
              | Some c => call (ShutdownAsync c)
              | None => ret tt
              end;
     do! _ <- call CleanPriorConfiguration;
     _startNewClient);
  modify (set_cmsClient (started p')).

Definition _refreshPostConfigure : M unit :=
  do! client <- getClient;
  do! cmake_inputs <- call (CmakeInputs client);
  do! files <- InputFileSet_create cmake_inputs;
  do! _ <- modify (set_cmakeInputFileSet files);
  do! clcache <- call (GetCMakeCacheContent client);
  do! _ <- (fun _ s =>
         (Returned tt,
          {| this := this s; now := now s;
             trace := trace s ++ map RollbarError (Cache.rebuild clcache).2 |}));
  do! _ <- modify (set_cacheEntries (Cache.rebuild clcache).1);
  do! served <- call (Codemodel client);
  do! _ <- modify (set_codeModel (CodeModel.convertServerCodeModel served));
  do! cm <- get codeModel;
  emit (CodeModelChanged cm).

(** [localize('cmake.configure.error', 'Error during CMake configure: {0}',
    errorToString(e))] *)
Definition cmake_configure_error (e : error) : string :=
  "Error during CMake configure: " +:+ errorToString e.

(** The result of the [try] statement of [doConfigure]: [Some code] when
    the handler executed [return code], [None] when control falls through
    to the statements after it. *)
Definition doConfigure (args : list string) (showCommandOnly : bool) : M nat :=
  do! pending <- get _clientChangeInProgress;
  do! _ <- await pending;
  do! cl <- getClient;
  do! _ <- emit Subscribed;
  if showCommandOnly then
    do! _ <- emit ShowChannel;
    do! path <- get (fun d => cmakePath (super d));
    do! _ <- (fun env => emit (LogInfo (buildCmdStr env path args)) env);
    ret 0
  else
    do! returned <-
      try_finally
        (try_catch
           (do! _ <- modify (set_hadConfigurationChanged false);
            do! _ <- call (Configure cl args);
            do! _ <- call (Compute cl);
            ret None)
           (fun e =>
              if instanceofServerError e then
                do! _ <- emit (LogError (cmake_configure_error e));
                ret (Some 1)
              else throw e))
        (emit Disposed);
    match returned with
    | Some code => ret code
    | None =>
        do! _ <- _refreshPostConfigure;
        ret 0
    end.

Definition doPostBuild : M bool :=
  do! _ <- _refreshPostConfigure;
  ret true.

Definition doConfigureSettingsChange : M unit :=
  modify (set_hadConfigurationChanged true).

Definition checkNeedsReconfigure : M bool :=
  do! changed <- get _hadConfigurationChanged;
  if changed then ret changed
  else
    do! files <- get _cmakeInputFileSet;
    if Nat.eqb (length (Dirty.inputFiles files)) 0 then ret true
    else InputFileSet_checkOutOfDate files.

Definition _doRestartClient : M client :=
  do! p <- get _cmsClient;
  do! old_client <- await p;
  do! _ <- match old_client with
           | Some c => call (ShutdownAsync c)
           | None => ret tt
           end;
  _startNewClient.

Definition _restartClient : M unit :=
  do! p <- async _doRestartClient;
  do! _ <- modify (set_cmsClient (started p));
  do! client <- getClient;
  do! settings <- call (GetGlobalSettings client);
  modify (set_globalSettings settings).

Definition _setKitAndRestart (need_clean : bool) (cb : callback) : M unit :=
  do! _ <- modify (set_cmakeInputFileSet Dirty.createEmpty);
  do! p <- get _cmsClient;
  do! client <- await p;
  do! _ <- match client with
           | Some c => call (ShutdownAsync c)
           | None => ret tt
           end;
  do! _ <- (if need_clean then call CleanPriorConfiguration else ret tt);
  do! _ <- invoke cb;
  do! g <- get (fun d => generator (super d));
  match g with
  | None => throw NoGeneratorError
  | Some _ => _restartClient
  end.

Definition doSetKit (cb : callback) : M (promise unit) :=
  do! p <- async (_setKitAndRestart false cb);
  do! _ <- modify (set_clientChangeInProgress p);
  get _clientChangeInProgress.

Definition doSetConfigurePreset (need_clean : bool) (cb : callback)
  : M (promise unit) :=
  do! p <- async (_setKitAndRestart need_clean cb);
  do! _ <- modify (set_clientChangeInProgress p);
  get _clientChangeInProgress.

(** [doSetBuildPreset(cb) { return cb(); }] and its sibling are no async
    methods: they hand back the promise of the callback. *)
Definition doSetBuildPreset (cb : callback) : M (promise unit) :=
  called cb.

Definition doSetTestPreset (cb : callback) : M (promise unit) :=
  called cb.

Definition onStop : M unit :=
  do! p <- get _cmsClient;
  do! client <- await p;
  match client with
  | Some c =>
      do! _ <- call (ShutdownAsync c);
      modify (set_cmsClient (Fulfilled None))
  | None => ret tt
  end.

(** The remaining members that need no client. *)
Definition isCacheConfigSupported : bool := false.

Definition doCacheConfigure : M nat :=
  throw (Error "Method not implemented.").

Definition doPreBuild : M bool := ret true.

Definition cmakeFiles (d : driver) : list string :=
  map Dirty.filePath (Dirty.inputFiles (_cmakeInputFileSet d)).

Definition generatorName (d : driver) : option string :=
  match _globalSettings d with
  | Some g => Some (gs_generator g)
  | None => None
  end.

Definition cmakeCacheEntries (d : driver) : gmap string Cache.Entry :=
  _cacheEntries d.

(** The first two statements of [doConfigure]: wait for the pending change
    of client, then get the client. *)
Definition acquireClient : M client :=
  do! pending <- get _clientChangeInProgress;
  do! _ <- await pending;
  getClient.

(** "The configure or the compute request fails with [e]", for requests
    sent from time [n] on. *)
Definition requestsFail (env : environment) (n : nat) (cl : client)
    (args : list string) (e : error) : Prop :=
  reply env n unit (Configure cl args) = Thrown e \/
  (reply env n unit (Configure cl args) = Returned tt /\
   reply env (S n) unit (Compute cl) = Thrown e).

Definition requestsSucceed (env : environment) (n : nat) (cl : client)
    (args : list string) : Prop :=
  reply env n unit (Configure cl args) = Returned tt /\
  reply env (S n) unit (Compute cl) = Returned tt.

(** The state in which the [try] statement of [doConfigure] ends when it
    started in [s1] with the subscription made: the flag is down, [sent]
    requests have gone out with the events [evs], and the subscription has
    been disposed of. *)
Definition afterTry (s1 : state) (sent : nat) (evs : list event) : state :=
  {| this := set_hadConfigurationChanged false (this s1);
     now := sent + now s1;
     trace := trace s1 ++ Subscribed :: evs ++ [Disposed] |}.

(** The events that start a client. *)
Definition startsClient (e : event) : bool :=
  match e with
  | Sent r => match r with Start _ => true | _ => false end
  | _ => false
  end.

(** What [_setKitAndRestart] does before it calls the callback: it shuts
    the old client down, if there is one, and cleans the prior
    configuration, if asked to. [teardownSucceeds] says that these calls,
    made from time [n] on, do not fail. *)
Definition teardownEvents (old : option client) (need_clean : bool)
  : list event :=
  match old with
  | Some c => [Sent (ShutdownAsync c)]
  | None => []
  end ++ (if need_clean then [Sent CleanPriorConfiguration] else []).

Definition teardownSucceeds (env : environment) (n : nat)
    (old : option client) (need_clean : bool) : Prop :=
  match old with
  | Some c =>
      reply env n unit (ShutdownAsync c) = Returned tt /\
      (need_clean = true ->
       reply env (S n) unit CleanPriorConfiguration = Returned tt)
  | None =>
      need_clean = true ->
      reply env n unit CleanPriorConfiguration = Returned tt
  end.

(** The state of [_setKitAndRestart] right after the callback has run. *)
Definition afterCallback (s : state) (old : option client)
    (need_clean : bool) (cb : callback) : state :=
  {| this := set_super (cb (super (this s))).2
               (set_cmakeInputFileSet Dirty.createEmpty (this s));
     now := length (teardownEvents old need_clean) + now s;
     trace := trace s ++ teardownEvents old need_clean ++ [CallbackRun] |}.

(** The driver as its field initialisers leave it. *)
Definition initial (b : base) : driver :=
  {| _cmsClient := Fulfilled None;
     _clientChangeInProgress := Fulfilled tt;
     _globalSettings := None;
     _cacheEntries := ∅;
     _cmakeInputFileSet := Dirty.createEmpty;
     codeModel := None;
     _hadConfigurationChanged := true;
     super := b |}.

End Driver.

(** ** The settings reader (ConfigurationReader.updatePartial, onChange) *)

Module Config.

(** The value of a setting. [Inherited m] is the member [m] of
    [Object.prototype], which a read of a name that is not an own property
    can yield. *)
#[warnings="-register-all"] Inductive value :=
| VUndefined
| VNull
| VBool (b : bool)
| VNumber (n : Z)
| VString (s : string)
| VArray (items : list value)
| VObject (fields : list (string * value))
| VInherited (member : string).

Definition isUndefined (v : value) : bool :=
  match v with
  | VUndefined => true
  | _ => false
  end.

(** [util.Ordering] *)
Inductive Ordering := Greater | Equivalent | Less.

Definition isEquivalent (o : Ordering) : bool :=
  match o with
  | Equivalent => true
  | _ => false
  end.

(** The own property names of [_emitters]: one emitter per setting of
    [ExtensionConfigurationSettings]. *)
Definition settings : list string :=
  [ "autoSelectActiveFolder"; "cmakePath"; "buildDirectory"; "installPrefix";
    "sourceDirectory"; "saveBeforeBuild"; "buildBeforeRun";
    "clearOutputBeforeBuild"; "configureSettings"; "cacheInit";
    "preferredGenerators"; "generator"; "toolset"; "platform";
    "configureArgs"; "buildArgs"; "buildToolArgs"; "parallelJobs";
    "ctestPath"; "ctest"; "parseBuildDiagnostics"; "enabledOutputParsers";
    "debugConfig"; "defaultVariants"; "ctestArgs"; "ctestDefaultArgs";
    "environment"; "configureEnvironment"; "buildEnvironment";
    "testEnvironment"; "mingwSearchDirs"; "emscriptenSearchDirs";
    "mergedCompileCommands"; "copyCompileCommands"; "configureOnOpen";
    "configureOnEdit"; "skipConfigureIfCachePresent"; "useCMakeServer";
    "cmakeCommunicationMode"; "showSystemKits"; "ignoreKitEnv"; "buildTask";
    "outputLogEncoding"; "enableTraceLogging"; "loggingLevel";
    "additionalKits"; "touchbar"; "statusbar"; "useCMakePresets";
    "allowCommentsInPresetsFile"; "ignoreCMakeListsMissing";
    "launchBehavior" ].

(** [_emitters]: each emitter is named after its setting. *)
Definition _emitters : list (string * string) :=
  map (fun k => (k, k)) settings.

(** A reader: the configuration data, and the listeners that [onChange]
    has registered, each a setting name with a callback (a number), in
    registration order. *)
Record ConfigurationReader := {
  configData : gmap string value;
  listeners : list (string * nat)
}.

(** [o[key]] for the plain objects [configData] and [old_values]. *)
Definition read (o : gmap string value) (key : string) : value :=
  match o !! key with
  | Some v => v
  | None => if Js.inherited key then VInherited key else VUndefined
  end.

(** An object given by its own properties in order ([newData]). [own o key] is [o[key]] for a name that
    is an own property. *)
Definition object : Type := list (string * value).

Definition getOwnPropertyNames (o : object) : list string := map fst o.

(** The objects meant here: the property names are distinct, and none is
    [__proto__] (an assignment to that name would not store a property, it
    would replace the prototype). *)
Definition plainObject (o : object) : Prop :=
  NoDup (getOwnPropertyNames o) /\ "__proto__" ∉ getOwnPropertyNames o.

Definition own (o : object) (key : string) : value :=
  match find (fun kv => String.eqb (fst kv) key) o with
  | Some kv => snd kv
  | None => VUndefined
  end.

(** [Object.assign(target, source)] for a source with no own property
    [__proto__]: every own property of the source is stored in the
    target, in order. (An assignment to [__proto__] would store nothing
    and might replace the prototype of the target; the properties below
    are stated for a [plainObject].) *)
Definition assign (target : gmap string value) (source : object)
  : gmap string value :=
  fold_left (fun m kv => <[fst kv := snd kv]> m) source target.

(** [onChange(setting, cb)]: [emitter.event(cb)] registers the callback
    with the emitter of the setting. *)
Definition onChange (setting : string) (cb : nat) (r : ConfigurationReader)
  : ConfigurationReader :=
  {| configData := configData r;
     listeners := listeners r ++ [(setting, cb)] |}.

(** One call of a listener: the callback, with the setting it was
    registered for and the value it receives. *)
Definition invocation : Type := nat * string * value.

(** [em.fire(temp)] for the emitter of [setting]: every listener of that
    emitter is called with the value, in registration order. *)
Definition fire (subscribed : list (string * nat)) (setting : string)
    (temp : value) : list invocation :=
  map (fun l => (snd l, setting, temp))
      (List.filter (fun l => String.eqb (fst l) setting) subscribed).

(** How [updatePartial] ends: it returns the list of keys, or the call of
    [em.fire] throws a TypeError because [em] is not an emitter. *)
Inductive completion :=
| Returns (keys : list string)
| TypeError (key : string).

Section WithCompare.
(** [util.compare] *)
Variable compare : value -> value -> Ordering.

(** The loop over [Object.getOwnPropertyNames(newData)]; [keys] and
    [calls] are what has been pushed and fired so far. *)
Fixpoint loop (subscribed : list (string * nat))
    (configData old_values : gmap string value) (newData : object)
    (fireEvent : bool) (names : list string)
    (keys : list string) (calls : list invocation)
  : completion * list invocation :=
  match names with
  | [] => (Returns keys, calls)
  | key :: rest =>
      if negb (Js.has _emitters key) then
        loop subscribed configData old_values newData fireEvent rest
             keys calls
      else
        let new_value := read configData key in
        let old_value := read old_values key in
        if isEquivalent (compare new_value old_value) then
          loop subscribed configData old_values newData fireEvent rest
               keys calls
        else
          let temp := own newData key in
          if fireEvent && negb (isUndefined temp) then
            match Js.get _emitters key with
            | Js.Own em =>
                loop subscribed configData old_values newData fireEvent
                     rest (keys ++ [key])
                     (calls ++ fire subscribed em temp)
            | _ => (TypeError key, calls)
            end
          else
            loop subscribed configData old_values newData fireEvent rest
                 (keys ++ [key]) calls
  end.

Record updated := {
  reader : ConfigurationReader;
  completed : completion;
  invoked : list invocation
}.

Definition updatePartial (r : ConfigurationReader) (newData : object)
    (fireEvent : bool) : updated :=
  let old_values := configData r in
  let configData' := assign (configData r) newData in
  let run :=
    loop (listeners r) configData' old_values newData fireEvent
         (getOwnPropertyNames newData) [] [] in
  {| reader := {| configData := configData'; listeners := listeners r |};
     completed := run.1;
     invoked := run.2 |}.

(** [update(newData)] *)
Definition update (r : ConfigurationReader) (newData : object) : updated :=
  updatePartial r newData true.

(** The keys the loop reports: those with an emitter (own or inherited)
    whose new value is not equivalent to the old one. *)
Definition reportable (configData old_values : gmap string value)
    (key : string) : bool :=
  Js.has _emitters key
  && negb (isEquivalent
             (compare (read configData key) (read old_values key))).

(** "The stored value of [key] changed": the value stored after is not
    equivalent to the value stored before. *)
Definition changed (before after : ConfigurationReader) (key : string)
  : Prop :=
  compare (read (configData after) key) (read (configData before) key)
    <> Equivalent.

End WithCompare.

End Config.

(** ** The driver as a set of tasks that overlap in time *)

Module Async.

(** A promise is identified by a number. A promise of a client (or null)
    and a promise of anything else are kept in two stores; a promise that
    is in neither store is pending. *)
Definition pid : Type := nat.

Inductive plain :=
| Void
| Code (n : nat).

(** The requests a client answers. *)
Inductive query :=
| QConfigure (cacheArguments : list string)
| QCompute
| QCmakeInputs
| QCache
| QCodemodel
| QGlobalSettings.

(** The operations that complete outside the driver. The client that
    [Start] yields is identified by the promise of that operation. *)
Inductive operation :=
| Start
| ShutdownAsync (c : Driver.client)
| Request (c : Driver.client) (q : query)
| CleanPriorConfiguration
| GetConfigureEnvironment
| Callback (cb : Driver.callback)
| ScanInputs.

(** A suspended activation of an async method, named after the method and
    the [await] (or the [return] of a promise) it is suspended at. First
    the ones that wait for a promise of a client. *)
Inductive clientFrame :=
| SetKit_client (need_clean : bool) (cb : Driver.callback)
    (* _setKitAndRestart: const client = await this._cmsClient *)
| DoRestart_old
    (* _doRestartClient: const old_client = await this._cmsClient *)
| DoRestart_return
    (* _doRestartClient: return this._startNewClient() *)
| StartNew_return
    (* _startNewClient: return cms.CMakeServerClient.start(...) *)
| GetClient_first
    (* getClient: if (!(await this._cmsClient)) *)
| GetClient_second
    (* getClient: const client_started = await this._cmsClient *)
| Restart_getClient
    (* _restartClient: const client = await this.getClient() *)
| Configure_getClient (args : list string)
    (* doConfigure: const cl = await this.getClient() *)
| Refresh_getClient
    (* _refreshPostConfigure: const client = await this.getClient() *)
| PreClean_old
    (* doPreCleanConfigure: const old_cl = await this._cmsClient *)
| PreClean_return
    (* doPreCleanConfigure, inner function: return this._startNewClient() *)
| OnStop_client.
    (* onStop: const client = await this._cmsClient *)

Inductive plainFrame :=
| SetKit_shutdown (need_clean : bool) (cb : Driver.callback)
    (* _setKitAndRestart: await client.shutdownAsync() *)
| SetKit_clean (cb : Driver.callback)
    (* _setKitAndRestart: await this._cleanPriorConfiguration() *)
| SetKit_callback
    (* _setKitAndRestart: await cb() *)
| SetKit_restart
    (* _setKitAndRestart: await this._restartClient() *)
| Restart_settings
    (* _restartClient: this._globalSettings = await client.getGlobalSettings() *)
| DoRestart_shutdown
    (* _doRestartClient: await old_client.shutdownAsync() *)
| StartNew_environment
    (* _startNewClient: environment: await this.getConfigureEnvironment() *)
| Configure_change (args : list string)
    (* doConfigure: await this._clientChangeInProgress *)
| Configure_configure (cl : Driver.client)
    (* doConfigure: await cl.configure({ cacheArguments: args }) *)
| Configure_compute
    (* doConfigure: await cl.compute() *)
| Configure_refresh
    (* doConfigure: await this._refreshPostConfigure() *)
| Refresh_inputs (c : Driver.client)
    (* _refreshPostConfigure: await client.cmakeInputs() *)
| Refresh_scan (c : Driver.client)
    (* _refreshPostConfigure: await InputFileSet.create(cmake_inputs) *)
| Refresh_cache (c : Driver.client)
    (* _refreshPostConfigure: await client.getCMakeCacheContent() *)
| Refresh_codemodel
    (* _refreshPostConfigure: await client.codemodel() *)
| PreClean_shutdown
    (* doPreCleanConfigure, inner function: await old_cl.shutdownAsync() *)
| PreClean_clean
    (* doPreCleanConfigure, inner function: await this._cleanPriorConfiguration() *)
| OnStop_shutdown.
    (* onStop: await client.shutdownAsync() *)

(** A suspended task: the promise it waits for, where it is suspended, and
    the promise its method call evaluated to, which it settles when the
    method returns or throws. *)
Inductive task :=
| OnClient (awaits : pid) (at_ : clientFrame) (settles : pid)
| OnPlain (awaits : pid) (at_ : plainFrame) (settles : pid).

Inductive event :=
| Issued (p : pid) (op : operation)
| Completed (p : pid) (answer : Driver.outcome unit).

(** The driver with its tasks. The fields that hold the data of the last
    configure (input files, cache, code model, global settings, the
    configuration-changed flag) are left out: this module follows the
    promises and the clients. *)
Record machine := {
  _cmsClient : pid;
  _clientChangeInProgress : pid;
  super : Driver.base;
  clients : gmap pid (Driver.promise (option Driver.client));
  results : gmap pid (Driver.promise plain);
  next : pid;
  suspended : list task;
  inFlight : list (pid * operation);
  live : gset Driver.client;
  history : list event
}.

Definition set_cmsClient (p : pid) (m : machine) : machine :=
  {| _cmsClient := p;
     _clientChangeInProgress := _clientChangeInProgress m;
     super := super m; clients := clients m; results := results m;
     next := next m; suspended := suspended m; inFlight := inFlight m;
     live := live m; history := history m |}.

Definition set_clientChangeInProgress (p : pid) (m : machine) : machine :=
  {| _cmsClient := _cmsClient m;
     _clientChangeInProgress := p;
     super := super m; clients := clients m; results := results m;
     next := next m; suspended := suspended m; inFlight := inFlight m;
     live := live m; history := history m |}.

Definition set_super (b : Driver.base) (m : machine) : machine :=
  {| _cmsClient := _cmsClient m;
     _clientChangeInProgress := _clientChangeInProgress m;
     super := b; clients := clients m; results := results m;
     next := next m; suspended := suspended m; inFlight := inFlight m;
     live := live m; history := history m |}.

Definition set_clients (s : gmap pid (Driver.promise (option Driver.client)))
    (m : machine) : machine :=
  {| _cmsClient := _cmsClient m;
     _clientChangeInProgress := _clientChangeInProgress m;
     super := super m; clients := s; results := results m;
     next := next m; suspended := suspended m; inFlight := inFlight m;
     live := live m; history := history m |}.

Definition set_results (s : gmap pid (Driver.promise plain)) (m : machine)
  : machine :=
  {| _cmsClient := _cmsClient m;
     _clientChangeInProgress := _clientChangeInProgress m;
     super := super m; clients := clients m; results := s;
     next := next m; suspended := suspended m; inFlight := inFlight m;
     live := live m; history := history m |}.

Definition set_next (n : pid) (m : machine) : machine :=
  {| _cmsClient := _cmsClient m;
     _clientChangeInProgress := _clientChangeInProgress m;
     super := super m; clients := clients m; results := results m;
     next := n; suspended := suspended m; inFlight := inFlight m;
     live := live m; history := history m |}.

Definition set_suspended (l : list task) (m : machine) : machine :=
  {| _cmsClient := _cmsClient m;
     _clientChangeInProgress := _clientChangeInProgress m;
     super := super m; clients := clients m; results := results m;
     next := next m; suspended := l; inFlight := inFlight m;
     live := live m; history := history m |}.

Definition set_inFlight (l : list (pid * operation)) (m : machine) : machine :=
  {| _cmsClient := _cmsClient m;
     _clientChangeInProgress := _clientChangeInProgress m;
     super := super m; clients := clients m; results := results m;
     next := next m; suspended := suspended m; inFlight := l;
     live := live m; history := history m |}.

Definition set_live (l : gset Driver.client) (m : machine) : machine :=
  {| _cmsClient := _cmsClient m;
     _clientChangeInProgress := _clientChangeInProgress m;
     super := super m; clients := clients m; results := results m;
     next := next m; suspended := suspended m; inFlight := inFlight m;
     live := l; history := history m |}.

Definition set_history (h : list event) (m : machine) : machine :=
  {| _cmsClient := _cmsClient m;
     _clientChangeInProgress := _clientChangeInProgress m;
     super := super m; clients := clients m; results := results m;
     next := next m; suspended := suspended m; inFlight := inFlight m;
     live := live m; history := h |}.

(** *** Promises and suspension *)

(** A new, pending promise. *)
Definition fresh (m : machine) : pid * machine :=
  (next m, set_next (S (next m)) m).

(** Settling a promise; a promise that is settled stays as it is. *)
Definition settleClient (p : pid) (r : Driver.promise (option Driver.client))
    (m : machine) : machine :=
  match clients m !! p with
  | None => set_clients (<[p := r]> (clients m)) m
  | Some _ => m
  end.

Definition settle (p : pid) (r : Driver.promise plain) (m : machine)
  : machine :=
  match results m !! p with
  | None => set_results (<[p := r]> (results m)) m
  | Some _ => m
  end.

(** [await p], in an activation that will settle [own]. *)
Definition awaitClient (p : pid) (f : clientFrame) (own : pid) (m : machine)
  : machine :=
  set_suspended (suspended m ++ [OnClient p f own]) m.

Definition await (p : pid) (f : plainFrame) (own : pid) (m : machine)
  : machine :=
  set_suspended (suspended m ++ [OnPlain p f own]) m.

(** The call of an operation that completes outside: it is in flight from
    now on, and the call evaluates to its promise. *)
Definition issue (op : operation) (m : machine) : pid * machine :=
  (next m,
   set_history (history m ++ [Issued (next m) op])
     (set_inFlight (inFlight m ++ [(next m, op)])
        (set_next (S (next m)) m))).

(** *** The calls of the async methods

    A call runs the method up to its first [await] and evaluates to the
    promise of the call. *)

Definition _startNewClient (m : machine) : pid * machine :=
  let '(own, m) := fresh m in
  match Driver.generator (super m) with
  | None => (own, settleClient own (Driver.Rejected Driver.NoGeneratorError) m)
  | Some _ =>
      let '(p, m) := issue GetConfigureEnvironment m in
      (own, await p StartNew_environment own m)
  end.

Definition getClient (m : machine) : pid * machine :=
  let '(own, m) := fresh m in
  (own, awaitClient (_cmsClient m) GetClient_first own m).

Definition _doRestartClient (m : machine) : pid * machine :=
  let '(own, m) := fresh m in
  (own, awaitClient (_cmsClient m) DoRestart_old own m).

Definition _restartClient (m : machine) : pid * machine :=
  let '(own, m) := fresh m in
  let '(p, m) := _doRestartClient m in
  let m := set_cmsClient p m in
  let '(g, m) := getClient m in
  (own, awaitClient g Restart_getClient own m).

Definition _setKitAndRestart (need_clean : bool) (cb : Driver.callback)
    (m : machine) : pid * machine :=
  let '(own, m) := fresh m in
  (own, awaitClient (_cmsClient m) (SetKit_client need_clean cb) own m).

Definition doSetKit (cb : Driver.callback) (m : machine) : pid * machine :=
  let '(p, m) := _setKitAndRestart false cb m in
  (p, set_clientChangeInProgress p m).

Definition doSetConfigurePreset (need_clean : bool) (cb : Driver.callback)
    (m : machine) : pid * machine :=
  let '(p, m) := _setKitAndRestart need_clean cb m in
  (p, set_clientChangeInProgress p m).

Definition _refreshPostConfigure (m : machine) : pid * machine :=
  let '(own, m) := fresh m in
  let '(g, m) := getClient m in
  (own, awaitClient g Refresh_getClient own m).

(** [doConfigure(args)], with [showCommandOnly] false. *)
Definition doConfigure (args : list string) (m : machine) : pid * machine :=
  let '(own, m) := fresh m in
  (own, await (_clientChangeInProgress m) (Configure_change args) own m).

Definition doPreCleanConfigure (m : machine) : pid * machine :=
  let '(own, m) := fresh m in
  (own, awaitClient (_cmsClient m) PreClean_old own m).

Definition onStop (m : machine) : pid * machine :=
  let '(own, m) := fresh m in
  (own, awaitClient (_cmsClient m) OnStop_client own m).

(** *** A task runs on *)

(** [_setKitAndRestart] from [if (need_clean)] on, and from [await cb()]
    on. *)
Definition setKit_callback (cb : Driver.callback) (own : pid) (m : machine)
  : machine :=
  let '(p, m) := issue (Callback cb) m in
  await p SetKit_callback own m.

Definition setKit_clean (need_clean : bool) (cb : Driver.callback)
    (own : pid) (m : machine) : machine :=
  if need_clean then
    let '(p, m) := issue CleanPriorConfiguration m in
    await p (SetKit_clean cb) own m
  else setKit_callback cb own m.

(** The value of a void method that returned. *)
Definition returned (r : Driver.promise plain) : Driver.promise plain :=
  match r with
  | Driver.Fulfilled _ => Driver.Fulfilled Void
  | Driver.Rejected e => Driver.Rejected e
  end.

(** A call on [null] or [undefined]. *)
Definition typeError : Driver.error := Driver.Error "TypeError".

(** The task suspended at [f] runs on with the outcome [r] of the promise
    it waited for, up to its next [await] or to its end. *)
Definition resumeClient (f : clientFrame) (own : pid)
    (r : Driver.promise (option Driver.client)) (m : machine) : machine :=
  match f, r with
  | SetKit_client need_clean cb, Driver.Fulfilled (Some c) =>
      let '(p, m) := issue (ShutdownAsync c) m in
      await p (SetKit_shutdown need_clean cb) own m
  | SetKit_client need_clean cb, Driver.Fulfilled None =>
      setKit_clean need_clean cb own m
  | SetKit_client _ _, Driver.Rejected e => settle own (Driver.Rejected e) m
  | DoRestart_old, Driver.Fulfilled (Some c) =>
      let '(p, m) := issue (ShutdownAsync c) m in
      await p DoRestart_shutdown own m
  | DoRestart_old, Driver.Fulfilled None =>
      let '(n, m) := _startNewClient m in
      awaitClient n DoRestart_return own m
  | DoRestart_old, Driver.Rejected e =>
      settleClient own (Driver.Rejected e) m
  | DoRestart_return, _ => settleClient own r m
  | StartNew_return, _ => settleClient own r m
  | GetClient_first, Driver.Fulfilled (Some _) =>
      awaitClient (_cmsClient m) GetClient_second own m
  | GetClient_first, Driver.Fulfilled None =>
      let '(n, m) := _startNewClient m in
      let m := set_cmsClient n m in
      awaitClient (_cmsClient m) GetClient_second own m
  | GetClient_first, Driver.Rejected e =>
      settleClient own (Driver.Rejected e) m
  | GetClient_second, Driver.Fulfilled (Some c) =>
      settleClient own (Driver.Fulfilled (Some c)) m
  | GetClient_second, Driver.Fulfilled None =>
      settleClient own
        (Driver.Rejected (Driver.Error "Unable to start cms client")) m
  | GetClient_second, Driver.Rejected e =>
      settleClient own (Driver.Rejected e) m
  | Restart_getClient, Driver.Fulfilled (Some c) =>
      let '(p, m) := issue (Request c QGlobalSettings) m in
      await p Restart_settings own m
  | Restart_getClient, Driver.Fulfilled None =>
      settle own (Driver.Rejected typeError) m
  | Restart_getClient, Driver.Rejected e => settle own (Driver.Rejected e) m
  | Configure_getClient args, Driver.Fulfilled (Some cl) =>
      let '(p, m) := issue (Request cl (QConfigure args)) m in
      await p (Configure_configure cl) own m
  | Configure_getClient _, Driver.Fulfilled None =>
      settle own (Driver.Rejected typeError) m
  | Configure_getClient _, Driver.Rejected e =>
      settle own (Driver.Rejected e) m
  | Refresh_getClient, Driver.Fulfilled (Some c) =>
      let '(p, m) := issue (Request c QCmakeInputs) m in
      await p (Refresh_inputs c) own m
  | Refresh_getClient, Driver.Fulfilled None =>
      settle own (Driver.Rejected typeError) m
  | Refresh_getClient, Driver.Rejected e => settle own (Driver.Rejected e) m
  | PreClean_old, Driver.Fulfilled old_cl =>
      let '(inner, m) := fresh m in
      let m :=
        match old_cl with
        | Some c =>
            let '(p, m) := issue (ShutdownAsync c) m in
            await p PreClean_shutdown inner m
        | None =>
            let '(p, m) := issue CleanPriorConfiguration m in
            await p PreClean_clean inner m
        end in
      settle own (Driver.Fulfilled Void) (set_cmsClient inner m)
  | PreClean_old, Driver.Rejected e => settle own (Driver.Rejected e) m
  | PreClean_return, _ => settleClient own r m
  | OnStop_client, Driver.Fulfilled (Some c) =>
      let '(p, m) := issue (ShutdownAsync c) m in
      await p OnStop_shutdown own m
  | OnStop_client, Driver.Fulfilled None =>
      settle own (Driver.Fulfilled Void) m
  | OnStop_client, Driver.Rejected e => settle own (Driver.Rejected e) m
  end.

Definition resume (f : plainFrame) (own : pid) (r : Driver.promise plain)
    (m : machine) : machine :=
  match f, r with
  | SetKit_shutdown need_clean cb, Driver.Fulfilled _ =>
      setKit_clean need_clean cb own m
  | SetKit_shutdown _ _, Driver.Rejected e =>
      settle own (Driver.Rejected e) m
  | SetKit_clean cb, Driver.Fulfilled _ => setKit_callback cb own m
  | SetKit_clean _, Driver.Rejected e => settle own (Driver.Rejected e) m
  | SetKit_callback, Driver.Fulfilled _ =>
      match Driver.generator (super m) with
      | None => settle own (Driver.Rejected Driver.NoGeneratorError) m
      | Some _ =>
          let '(p, m) := _restartClient m in
          await p SetKit_restart own m
      end
  | SetKit_callback, Driver.Rejected e => settle own (Driver.Rejected e) m
  | SetKit_restart, _ => settle own (returned r) m
  | Restart_settings, _ => settle own (returned r) m
  | DoRestart_shutdown, Driver.Fulfilled _ =>
      let '(n, m) := _startNewClient m in
      awaitClient n DoRestart_return own m
  | DoRestart_shutdown, Driver.Rejected e =>
      settleClient own (Driver.Rejected e) m
  | StartNew_environment, Driver.Fulfilled _ =>
      let '(p, m) := issue Start m in
      awaitClient p StartNew_return own m
  | StartNew_environment, Driver.Rejected e =>
      settleClient own (Driver.Rejected e) m
  | Configure_change args, Driver.Fulfilled _ =>
      let '(g, m) := getClient m in
      awaitClient g (Configure_getClient args) own m
  | Configure_change _, Driver.Rejected e => settle own (Driver.Rejected e) m
  | Configure_configure cl, Driver.Fulfilled _ =>
      let '(p, m) := issue (Request cl QCompute) m in
      await p Configure_compute own m
  | Configure_configure _, Driver.Rejected e
  | Configure_compute, Driver.Rejected e =>
      if Driver.instanceofServerError e
      then settle own (Driver.Fulfilled (Code 1)) m
      else settle own (Driver.Rejected e) m
  | Configure_compute, Driver.Fulfilled _ =>
      let '(p, m) := _refreshPostConfigure m in
      await p Configure_refresh own m
  | Configure_refresh, Driver.Fulfilled _ =>
      settle own (Driver.Fulfilled (Code 0)) m
  | Configure_refresh, Driver.Rejected e => settle own (Driver.Rejected e) m
  | Refresh_inputs c, Driver.Fulfilled _ =>
      let '(p, m) := issue ScanInputs m in
      await p (Refresh_scan c) own m
  | Refresh_inputs _, Driver.Rejected e => settle own (Driver.Rejected e) m
  | Refresh_scan c, Driver.Fulfilled _ =>
      let '(p, m) := issue (Request c QCache) m in
      await p (Refresh_cache c) own m
  | Refresh_scan _, Driver.Rejected e => settle own (Driver.Rejected e) m
  | Refresh_cache c, Driver.Fulfilled _ =>
      let '(p, m) := issue (Request c QCodemodel) m in
      await p Refresh_codemodel own m
  | Refresh_cache _, Driver.Rejected e => settle own (Driver.Rejected e) m
  | Refresh_codemodel, _ => settle own (returned r) m
  | PreClean_shutdown, Driver.Fulfilled _ =>
      let '(p, m) := issue CleanPriorConfiguration m in
      await p PreClean_clean own m
  | PreClean_shutdown, Driver.Rejected e =>
      settleClient own (Driver.Rejected e) m
  | PreClean_clean, Driver.Fulfilled _ =>
      let '(n, m) := _startNewClient m in
      awaitClient n PreClean_return own m
  | PreClean_clean, Driver.Rejected e =>
      settleClient own (Driver.Rejected e) m
  | OnStop_shutdown, Driver.Fulfilled _ =>
      let '(p, m) := fresh m in
      settle own (Driver.Fulfilled Void)
        (set_cmsClient p (settleClient p (Driver.Fulfilled None) m))
  | OnStop_shutdown, Driver.Rejected e => settle own (Driver.Rejected e) m
  end.

(** *** An operation in flight completes *)

Definition answered (answer : Driver.outcome unit) : Driver.promise plain :=
  match answer with
  | Driver.Returned _ => Driver.Fulfilled Void
  | Driver.Thrown e => Driver.Rejected e
  end.

(** The operation completes with [answer]; the outcome of a callback is
    what the callback makes of the base class. A client is live from the
    completion of its start to the completion of a shutdown. *)
Definition complete (p : pid) (op : operation) (answer : Driver.outcome unit)
    (m : machine) : machine :=
  match op, answer with
  | Start, Driver.Returned _ =>
      set_live ({[p]} ∪ live m)
        (settleClient p (Driver.Fulfilled (Some p)) m)
  | Start, Driver.Thrown e => settleClient p (Driver.Rejected e) m
  | ShutdownAsync c, Driver.Returned _ =>
      set_live (live m ∖ {[c]}) (settle p (Driver.Fulfilled Void) m)
  | Callback cb, _ =>
      let r := cb (super m) in
      settle p (answered r.1) (set_super r.2 m)
  | _, _ => settle p (answered answer) m
  end.

(** *** Steps *)

Inductive action :=
| CallSetKit (cb : Driver.callback)
| CallSetConfigurePreset (need_clean : bool) (cb : Driver.callback)
| CallConfigure (args : list string)
| CallRestart
    (* the setting environment or configureEnvironment changes:
       () => this._restartClient() *)
| CallPreCleanConfigure
| CallOnStop
| Resume (i : nat)
    (* the i-th suspended task runs on; the promise it waits for is settled *)
| Complete (p : pid) (answer : Driver.outcome unit).
    (* the operation in flight with promise p completes *)

Definition step (a : action) (m : machine) : option machine :=
  match a with
  | CallSetKit cb => Some (doSetKit cb m).2
  | CallSetConfigurePreset need_clean cb =>
      Some (doSetConfigurePreset need_clean cb m).2
  | CallConfigure args => Some (doConfigure args m).2
  | CallRestart => Some (_restartClient m).2
  | CallPreCleanConfigure => Some (doPreCleanConfigure m).2
  | CallOnStop => Some (onStop m).2
  | Resume i =>
      match suspended m !! i with
      | Some (OnClient p f own) =>
          match clients m !! p with
          | Some r =>
              Some (resumeClient f own r
                      (set_suspended (delete i (suspended m)) m))
          | None => None
          end
      | Some (OnPlain p f own) =>
          match results m !! p with
          | Some r =>
              Some (resume f own r
                      (set_suspended (delete i (suspended m)) m))
          | None => None
          end
      | None => None
      end
  | Complete p answer =>
      match list_find (fun po => po.1 = p) (inFlight m) with
      | Some (i, (_, op)) =>
          Some (complete p op answer
                  (set_history (history m ++ [Completed p answer])
                     (set_inFlight (delete i (inFlight m)) m)))
      | None => None
      end
  end.

Fixpoint run (actions : list action) (m : machine) : option machine :=
  match actions with
  | [] => Some m
  | a :: rest =>
      match step a m with
      | Some m' => run rest m'
      | None => None
      end
  end.

(** A driver that holds the client number 0 and has no task. *)
Definition holding (b : Driver.base) : machine :=
  {| _cmsClient := 0;
     _clientChangeInProgress := 1;
     super := b;
     clients := {[ 0 := Driver.Fulfilled (Some 0) ]};
     results := {[ 1 := Driver.Fulfilled Void ]};
     next := 2;
     suspended := [];
     inFlight := [];
     live := {[ 0 ]};
     history := [] |}.

(** A promise of the plain store is settled. *)
Definition settled (m : machine) (p : pid) : Prop := is_Some (results m !! p).

End Async.

(** ** The configuration-changed flag among the tasks *)

Module ConfigureFlag.
Import Async.

(** The tasks of module [Async] together with the field
    [_hadConfigurationChanged], which that module leaves out. Between two
    [await]s the code of a task runs without interruption: a step of the
    machine is one such stretch, and what a stretch assigns and sends is
    seen by the other tasks all at once. *)
Record machine := {
  tasks : Async.machine;
  _hadConfigurationChanged : bool
}.

Inductive action :=
| Task (a : Async.action)
    (* a call of an async method, a task that runs on, or an operation
       that completes *)
| CallConfigureSettingsChange.
    (* doConfigureSettingsChange() *)

(** The field after the task suspended at [f] has run on with the outcome
    [r] of the promise it waited for. One place writes it: [doConfigure],
    from [const cl = await this.getClient()] on, runs through
    [this._hadConfigurationChanged = false] to [await cl.configure(...)];
    with null for a client the assignment is made all the same and
    [cl.configure] throws a TypeError. *)
Definition resumeClient (f : clientFrame)
    (r : Driver.promise (option Driver.client)) (flag : bool) : bool :=
  match f, r with
  | Configure_getClient _, Driver.Fulfilled _ => false
  | _, _ => flag
  end.

(** The field after the action [a] of the tasks [m]. *)
Definition written (a : Async.action) (m : Async.machine) (flag : bool)
  : bool :=
  match a with
  | Resume i =>
      match suspended m !! i with
      | Some (OnClient p f _) =>
          match clients m !! p with
          | Some r => resumeClient f r flag
          | None => flag
          end
      | _ => flag
      end
  | _ => flag
  end.

Definition step (a : action) (m : machine) : option machine :=
  match a with
  | Task a =>
      match Async.step a (tasks m) with
      | Some tasks' =>
          Some {| tasks := tasks';
                  _hadConfigurationChanged :=
                    written a (tasks m) (_hadConfigurationChanged m) |}
      | None => None
      end
  | CallConfigureSettingsChange =>
      Some {| tasks := tasks m; _hadConfigurationChanged := true |}
  end.

Fixpoint run (actions : list action) (m : machine) : option machine :=
  match actions with
  | [] => Some m
  | a :: rest =>
      match step a m with
      | Some m' => run rest m'
      | None => None
      end
  end.

(** "The step from [m] to [m'] issues the operation [op] with the promise
    [p]": it is in flight after the step and was not before. *)
Definition issues (m m' : Async.machine) (p : pid) (op : operation) : Prop :=
  (p, op) ∈ inFlight m' /\ (p, op) ∉ inFlight m.

End ConfigureFlag.

(** ** What the later properties speak of

    The definitions below name what the properties of the second half
    are about: parts of the views and of the cache, the states a driver
    operation ends in, and the members of the classes that are read off
    the sources in addition to the ones above. *)

Module Views.
Import Targets.

(** [t.targetType === 'EXECUTABLE'] and [{ name: t.name, path: t.filepath }]
    of the getter [executableTargets]. *)
Definition isExecutable (t : RichTarget) : Prop := targetType t = "EXECUTABLE".

Definition asExecutable (t : RichTarget) : ExecutableTarget :=
  {| et_name := rt_name t; et_path := filepath t |}.

End Views.

Module CodeModelShape.
Import CodeModel.

(** Every target of a server model, and of a translated model, in document
    order. *)
Definition serverTargets (m : ServerCodeModelContent) : list ServerTarget :=
  flat_map (fun c => flat_map sp_targets (sc_projects c)) (s_configurations m).

Definition modelTargets (m : CodeModelContent) : list CodeModelTarget :=
  flat_map (fun c => flat_map targets (projects c)) (configurations m).

(** The number of file groups the server reports for a target. *)
Definition serverGroupCount (t : ServerTarget) : nat :=
  match st_fileGroups t with
  | Some groups => length groups
  | None => 0
  end.

(** The file groups the server reports for a target: none when the target
    has no list of file groups. *)
Definition serverFileGroups (t : ServerTarget) : list ServerFileGroup :=
  match st_fileGroups t with
  | Some groups => groups
  | None => []
  end.

End CodeModelShape.

Module CacheLookup.
Import Cache.

(** The raw entries that are not dropped: the lookup of their type tag is
    not [undefined]. *)
Definition kept (el : RawEntry) : bool :=
  match Js.get entry_map (raw_type el) with
  | Js.Undefined => false
  | _ => true
  end.

(** The entry stored for a raw entry that is kept. *)
Definition stored (el : RawEntry) : Entry :=
  newEntry el (Js.get entry_map (raw_type el)).

End CacheLookup.

Module DriverRuns.
Import Driver.

(** The argument of [cms.CMakeServerClient.start] in [_startNewClient]. *)
Definition clientInit (env : environment) (b : base)
    (environment : list (string * string)) (g : CMakeGenerator) : ClientInit :=
  {| tmpdir := path_join env (workspaceFolder b) ".vscode";
     ci_binaryDir := binaryDir b;
     ci_sourceDir := sourceDir b;
     ci_cmakePath := cmakePath b;
     ci_environment := environment;
     ci_generator := g |}.

(** The state after [events] have been recorded and [sent] calls have left
    the driver, with the fields of the driver updated by [f]. *)
Definition after (s : state) (f : driver -> driver) (sent : nat)
    (events : list event) : state :=
  {| this := f (this s); now := sent + now s; trace := trace s ++ events |}.

(** The request that shuts the old client down, if there is one. *)
Definition shutdownOf (old : option client) : list event :=
  match old with
  | Some c => [Sent (ShutdownAsync c)]
  | None => []
  end.

(** The events of a client start that succeeds. *)
Definition startEvents (env : environment) (b : base)
    (environment : list (string * string)) (g : CMakeGenerator) : list event :=
  [Sent GetConfigureEnvironment; Sent (Start (clientInit env b environment g))].

(** "The client start made from time [n] on succeeds with the client [c]":
    there is a generator, and the two calls are answered. *)
Definition startSucceeds (env : environment) (n : nat) (b : base)
    (environment : list (string * string)) (g : CMakeGenerator) (c : client)
  : Prop :=
  generator b = Some g /\
  reply env n _ GetConfigureEnvironment = Returned environment /\
  reply env (S n) _ (Start (clientInit env b environment g)) = Returned c.

(** The requests that take a client down or wipe a configuration, and the
    requests to the file system. *)
Definition isTeardown (e : event) : bool :=
  match e with
  | Sent r =>
      match r with
      | ShutdownAsync _ | CleanPriorConfiguration => true
      | _ => false
      end
  | _ => false
  end.

Definition isSent (e : event) : bool :=
  match e with
  | Sent _ => true
  | _ => false
  end.

Definition isSubscription (e : event) : bool :=
  match e with
  | Subscribed | Disposed => true
  | _ => false
  end.

End DriverRuns.

Module DriverTraces.
Import Driver.

(** "Whatever the environment and the state, every event [m] adds to the
    trace satisfies [P]." *)
Definition emits {A} (P : event -> Prop) (m : M A) : Prop :=
  forall env s, exists evs,
    trace (m env s).2 = trace s ++ evs /\ Forall P evs.

End DriverTraces.

Module Expansions.
Import Driver.

(** [doRefreshExpansions(cb)]. The field [_prevConfigureEnv], which no
    other method reads or writes, is passed in and handed back: the call
    yields its new value, and when the call throws the field is what it
    was. [stringify] is [JSON.stringify]. The line written to the debug
    log is not part of the trace. *)
Definition doRefreshExpansions
    (stringify : list (string * string) -> string)
    (_prevConfigureEnv : string) (cb : callback) : M string :=
  do! bindir_before <- get (fun d => binaryDir (super d));
  do! srcdir_before <- get (fun d => sourceDir (super d));
  do! _ <- invoke cb;
  if Nat.eqb (String.length bindir_before) 0
     || Nat.eqb (String.length srcdir_before) 0
  then ret _prevConfigureEnv
  else
    do! environment <- call GetConfigureEnvironment;
    let new_env := stringify environment in
    do! bindir <- get (fun d => binaryDir (super d));
    do! srcdir <- get (fun d => sourceDir (super d));
    do! _ <- (if negb (String.eqb bindir_before bindir)
                 || negb (String.eqb srcdir_before srcdir)
                 || negb (String.eqb new_env _prevConfigureEnv)
              then _restartClient
              else ret tt);
    ret new_env.

(** The field initialiser of [_prevConfigureEnv]. *)
Definition initialConfigureEnv : string := "null".

End Expansions.

Module Getters.
Import Config.

(** [!!v]: the values that count as true in a condition. Numbers are
    integers here, so [NaN] does not occur. *)
Definition truthy (v : value) : bool :=
  match v with
  | VUndefined | VNull => false
  | VBool b => b
  | VNumber n => negb (Z.eqb n 0)
  | VString s => negb (String.eqb s "")
  | VArray _ | VObject _ | VInherited _ => true
  end.

(** [v === 0] *)
Definition isZero (v : value) : bool :=
  match v with
  | VNumber n => Z.eqb n 0
  | _ => false
  end.

(** [defaultNumJobs()]; [cpus] is [os.cpus().length]. *)
Definition defaultNumJobs (cpus : nat) : value :=
  VNumber (Z.of_nat cpus + 2).

Definition parallelJobs (r : ConfigurationReader) : value :=
  read (configData r) "parallelJobs".

(** [v.parallelJobs] for a value [v]: a TypeError ([None]) on undefined
    and null; the own property of an object, if it has one; undefined
    otherwise, since no prototype has a member of that name. *)
Definition parallelJobsOf (v : value) : option value :=
  match v with
  | VUndefined | VNull => None
  | VObject fields => Some (own fields "parallelJobs")
  | _ => Some VUndefined
  end.

(** [this.configData.ctest.parallelJobs] *)
Definition ctest_parallelJobs (r : ConfigurationReader) : option value :=
  parallelJobsOf (read (configData r) "ctest").

Definition numJobs (cpus : nat) (r : ConfigurationReader) : value :=
  if isUndefined (parallelJobs r) then VUndefined
  else if isZero (parallelJobs r) then defaultNumJobs cpus
  else parallelJobs r.

Definition numCTestJobs (cpus : nat) (r : ConfigurationReader)
  : option value :=
  match ctest_parallelJobs r with
  | None => None
  | Some ctest_jobs =>
      if negb (truthy ctest_jobs) then
        Some (if truthy (numJobs cpus r) then numJobs cpus r
              else defaultNumJobs cpus)
      else Some ctest_jobs
  end.

End Getters.

Module ConfigEvents.
Import Config.

Section WithCompare.
(** [util.compare] *)
Variable compare : value -> value -> Ordering.

(** A key for which the call with events reaches [em.fire(temp)]: it is
    reported, and its value in [newData] is not [undefined]. *)
Definition fires (configData old_values : gmap string value)
    (newData : object) (key : string) : bool :=
  reportable compare configData old_values key
  && negb (isUndefined (own newData key)).

End WithCompare.

End ConfigEvents.

(** The tasks of the async machine by the method they are an activation
    of, and the invariant of a driver that is neither stopped nor asked
    for a clean configure. *)
Module Calm.
Import Async.

(** The promise a task settles, and the promise it waits for. *)
Definition own (t : task) : pid :=
  match t with
  | OnClient _ _ o | OnPlain _ _ o => o
  end.

Definition awaits (t : task) : pid :=
  match t with
  | OnClient p _ _ | OnPlain p _ _ => p
  end.

(** The activations of [_doRestartClient], of [_startNewClient], and of
    [onStop] and [doPreCleanConfigure]. *)
Definition restarts (t : task) : bool :=
  match t with
  | OnClient _ DoRestart_old _ | OnClient _ DoRestart_return _
  | OnPlain _ DoRestart_shutdown _ => true
  | _ => false
  end.

Definition starts (t : task) : bool :=
  match t with
  | OnClient _ StartNew_return _ | OnPlain _ StartNew_environment _ => true
  | _ => false
  end.

Definition stops (t : task) : bool :=
  match t with
  | OnClient _ PreClean_old _ | OnClient _ PreClean_return _
  | OnClient _ OnStop_client _
  | OnPlain _ PreClean_shutdown _ | OnPlain _ PreClean_clean _
  | OnPlain _ OnStop_shutdown _ => true
  | _ => false
  end.

(** The actions other than a clean configure and a stop. *)
Definition gentle (a : action) : bool :=
  match a with
  | CallPreCleanConfigure | CallOnStop => false
  | _ => true
  end.

(** A task of a restart that no longer waits for the client promise
    before it: it is about to shut the old client down, or it is doing
    so, or it is starting the new client. *)
Definition active (m : machine) (t : task) : Prop :=
  match t with
  | OnClient a DoRestart_old _ => is_Some (clients m !! a)
  | OnClient _ DoRestart_return _ | OnPlain _ DoRestart_shutdown _ => True
  | _ => False
  end.

(** A promise that no task settles and no operation in flight bears. *)
Definition free (m : machine) (o : pid) : Prop :=
  o < next m /\
  (forall t, t ∈ suspended m -> own t <> o) /\
  (forall q op, (q, op) ∈ inFlight m -> q <> o).

(** The invariant of a driver that is only asked for kit and preset
    changes, restarts and configures. *)
Record calm (m : machine) : Prop := {
  bound_cms : _cmsClient m < next m;
  bound_change : _clientChangeInProgress m < next m;
  bound_clients : forall p, is_Some (clients m !! p) -> p < next m;
  bound_results : forall p, is_Some (results m !! p) -> p < next m;
  bound_tasks : forall t, t ∈ suspended m ->
    own t < next m /\ awaits t < next m;
  bound_ops : forall q op, (q, op) ∈ inFlight m -> q < next m;
  ops_pending : forall q op, (q, op) ∈ inFlight m ->
    clients m !! q = None /\ results m !! q = None;
  ops_nodup : NoDup (fst <$> inFlight m);
  owns_nodup : NoDup (own <$> suspended m);
  owns_ops : forall t q op, t ∈ suspended m -> (q, op) ∈ inFlight m ->
    own t <> q;
  no_null : forall p, clients m !! p <> Some (Driver.Fulfilled None);
  no_stop : forall t, t ∈ suspended m -> stops t = false;
  cms_chain :
    is_Some (clients m !! _cmsClient m) \/
    exists t, t ∈ suspended m /\ restarts t = true /\ own t = _cmsClient m;
  old_chain : forall a o, OnClient a DoRestart_old o ∈ suspended m ->
    is_Some (clients m !! a) \/
    exists t, t ∈ suspended m /\ restarts t = true /\ own t = a;
  old_inj : forall a o1 o2,
    OnClient a DoRestart_old o1 ∈ suspended m ->
    OnClient a DoRestart_old o2 ∈ suspended m -> o1 = o2;
  old_not_cms : forall a o, OnClient a DoRestart_old o ∈ suspended m ->
    a <> _cmsClient m;
  one_active : forall t1 t2, t1 ∈ suspended m -> t2 ∈ suspended m ->
    active m t1 -> active m t2 -> t1 = t2;
  cms_front : is_Some (clients m !! _cmsClient m) ->
    forall t, t ∈ suspended m -> ~ active m t;
  start_task : forall t, t ∈ suspended m -> starts t = true ->
    clients m !! own t = None /\
    exists o, OnClient (own t) DoRestart_return o ∈ suspended m;
  start_op : forall q, (q, Start) ∈ inFlight m ->
    exists n, OnClient q StartNew_return n ∈ suspended m;
  return_chain : forall n o, OnClient n DoRestart_return o ∈ suspended m ->
    is_Some (clients m !! n) \/
    exists t, t ∈ suspended m /\ starts t = true /\ own t = n;
  live_old : forall a o c, OnClient a DoRestart_old o ∈ suspended m ->
    clients m !! a = Some (Driver.Fulfilled (Some c)) -> live m ⊆ {[c]};
  live_shutdown : forall q o, OnPlain q DoRestart_shutdown o ∈ suspended m ->
    (exists c, (q, ShutdownAsync c) ∈ inFlight m /\ live m ⊆ {[c]}) \/
    (exists v, results m !! q = Some (Driver.Fulfilled v) /\ live m = ∅) \/
    (exists e, results m !! q = Some (Driver.Rejected e));
  live_return : forall n o c,
    OnClient n DoRestart_return o ∈ suspended m -> c ∈ live m ->
    clients m !! n = Some (Driver.Fulfilled (Some c)) \/
    (clients m !! n = None /\
     exists q, OnClient q StartNew_return n ∈ suspended m /\
               clients m !! q = Some (Driver.Fulfilled (Some c)));
  live_cms : forall c,
    clients m !! _cmsClient m = Some (Driver.Fulfilled (Some c)) ->
    live m ⊆ {[c]};
  live_one : size (live m) <= 1
}.

(** A task that belongs to no restart, start, stop or clean configure. *)
Definition bystander (t : task) : Prop :=
  restarts t = false /\ starts t = false /\ stops t = false.

End Calm.

(** ** Concrete inputs used by the examples below *)

Module Examples.
Import CodeModel.

Definition appTarget : CodeModelTarget :=
  {| name := "app"; type := "EXECUTABLE"; sourceDirectory := "/src";
     fullName := "app"; artifacts := Some ["/build/app"]; sysroot := None;
     fileGroups := [] |}.

Definition project (install : option bool) : CodeModelProject :=
  {| p_name := "demo"; p_sourceDirectory := "/src";
     hasInstallRule := install; targets := [appTarget] |}.

Definition configuration (n : string) : CodeModelConfiguration :=
  {| c_name := n; projects := [project (Some true)] |}.

(** A code model whose only configuration is "Release". *)
Definition releaseOnly : CodeModelContent :=
  {| configurations := [configuration "Release"] |}.

(** A raw cache entry whose type tag is the name of a member of
    [Object.prototype]. *)
Definition oddEntry : Cache.RawEntry :=
  {| Cache.raw_key := "FOO"; Cache.raw_value := "1";
     Cache.raw_type := "constructor";
     Cache.raw_properties :=
       {| Cache.HELPSTRING := None; Cache.ADVANCED := None |} |}.

End Examples.

Module DriverExamples.
Import Driver.

Definition ninja : CMakeGenerator :=
  {| gen_name := "Ninja"; gen_toolset := None; gen_platform := None |}.

Definition workspace (g : option CMakeGenerator) : base :=
  {| generator := g; binaryDir := "/build"; sourceDir := "/src";
     workspaceFolder := "/ws"; cmakePath := "cmake" |}.

(** A driver that has never configured and holds the client number 7. *)
Definition ready : state :=
  {| this := set_cmsClient (Fulfilled (Some 7)) (initial (workspace (Some ninja)));
     now := 0;
     trace := [] |}.

Definition cacheEntry (k v ty : string) : Cache.RawEntry :=
  {| Cache.raw_key := k; Cache.raw_value := v; Cache.raw_type := ty;
     Cache.raw_properties :=
       {| Cache.HELPSTRING := None; Cache.ADVANCED := None |} |}.

Definition serverModel : CodeModel.ServerCodeModelContent :=
  {| CodeModel.s_configurations :=
       [ {| CodeModel.sc_name := "Debug";
            CodeModel.sc_projects :=
              [ {| CodeModel.sp_name := "demo";
                   CodeModel.sp_sourceDirectory := "/src";
                   CodeModel.sp_hasInstallRule := None;
                   CodeModel.sp_targets :=
                     [ {| CodeModel.st_name := "app";
                          CodeModel.st_type := "EXECUTABLE";
                          CodeModel.st_sourceDirectory := "/src";
                          CodeModel.st_fullName := "app";
                          CodeModel.st_artifacts := Some ["/build/app"];
                          CodeModel.st_sysroot := None;
                          CodeModel.st_linkLanguageFlags := None;
                          CodeModel.st_fileGroups := None |} ] |} ] |} ] |}.

(** A server that answers every request, and answers the configure
    request with [configure]. The n-th call that starts a client yields
    the client number 100 + n. *)
Definition replies (configure : outcome unit) (n : nat) (T : Type)
    (r : request T) : outcome T :=
  match r in request T return outcome T with
  | Start _ => Returned (100 + n)
  | ShutdownAsync _ => Returned tt
  | Configure _ _ => configure
  | Compute _ => Returned tt
  | CmakeInputs _ => Returned ["/src/CMakeLists.txt"]
  | GetCMakeCacheContent _ =>
      Returned [cacheEntry "FOO" "1" "STRING";
                cacheEntry "CMAKE_GENERATOR" "Ninja" "INTERNAL"]
  | Codemodel _ => Returned (Some serverModel)
  | GetGlobalSettings _ => Returned {| gs_generator := "Ninja" |}
  | CleanPriorConfiguration => Returned tt
  | GetConfigureEnvironment => Returned []
  end.

Definition world (configure : outcome unit) : environment :=
  {| reply := replies configure;
     mtimes := fun _ _ => Some 1;
     path_join := fun a b => a +:+ "/" +:+ b;
     buildCmdStr := fun path _ => path |}.

(** A callback that leaves no generator, and one that selects Ninja. *)
Definition selectNothing : callback :=
  fun b => (Returned tt, workspace None).

Definition selectNinja : callback :=
  fun b => (Returned tt, workspace (Some ninja)).

(** A comparison of setting values, enough for strings. *)
Definition compareStrings (a b : Config.value) : Config.Ordering :=
  match a, b with
  | Config.VString x, Config.VString y =>
      if String.eqb x y then Config.Equivalent else Config.Less
  | Config.VUndefined, Config.VUndefined => Config.Equivalent
  | _, _ => Config.Less
  end.

Definition reader : Config.ConfigurationReader :=
  Config.onChange "generator" 1
    {| Config.configData := {[ "generator" := Config.VString "Ninja" ]};
       Config.listeners := [] |}.

End DriverExamples.

Module AsyncExamples.
Import Async.

Definition base : Driver.base :=
  DriverExamples.workspace (Some DriverExamples.ninja).

Definition ok : Driver.outcome unit := Driver.Returned tt.

(** Two callbacks; the first one will take longer than the second. *)
Definition slow : Driver.callback := DriverExamples.selectNinja.

Definition fast : Driver.callback :=
  fun _ =>
    (Driver.Returned tt,
     DriverExamples.workspace
       (Some {| Driver.gen_name := "Unix Makefiles";
                Driver.gen_toolset := None;
                Driver.gen_platform := None |})).

(** Two kit changes in a row, then a configure. Promise 2 is the one of the
    first change, promise 3 the one of the second. *)
Definition twoChanges : list action :=
  [ CallSetKit slow; CallSetKit fast ].

Definition overlapping : list action :=
  twoChanges ++
  [ Resume 0; Resume 0;       (* both changes shut the client 0 down *)
    Complete 4 ok; Complete 5 ok;
    Resume 0; Resume 0;       (* both changes call their callback *)
    Complete 7 ok;            (* the callback of the second change completes *)
    Resume 1;                 (* the second change calls _restartClient *)
    Resume 1;                 (* _doRestartClient shuts the client 0 down *)
    Complete 11 ok;
    Resume 4;                 (* _doRestartClient calls _startNewClient *)
    Complete 13 ok;           (* getConfigureEnvironment *)
    Resume 4;                 (* _startNewClient starts a client *)
    Complete 14 ok;           (* the client 14 is live *)
    Resume 5; Resume 4;       (* _startNewClient, _doRestartClient return *)
    Resume 1; Resume 3;       (* getClient, its two awaits *)
    Resume 1;                 (* _restartClient asks for the global settings *)
    Complete 15 ok;
    Resume 2; Resume 1;       (* _restartClient and the second change return *)
    CallConfigure ["-DFOO=1"];
    Resume 1;                 (* doConfigure: the pending change is settled *)
    Resume 1; Resume 2;       (* getClient, its two awaits *)
    Resume 1                  (* doConfigure sends the configure request *)
  ].

(** A restart is under way when a clean configure and a second restart are
    asked for. Promise 3 is the client promise of the first restart. *)
Definition cleanDuringRestart : list action :=
  [ CallRestart; CallPreCleanConfigure; CallRestart;
    Resume 0;                 (* first restart: shuts the client 0 down *)
    Complete 9 ok;
    Resume 6;                 (* first restart: _startNewClient *)
    Complete 11 ok;
    Resume 6;                 (* it starts a client *)
    Complete 12 ok;           (* the client 12 is live *)
    Resume 7; Resume 6;       (* promise 3 is fulfilled with the client 12 *)
    Resume 0;                 (* getClient of the first restart *)
    Resume 1;                 (* doPreCleanConfigure: shuts the client 12 down *)
    Resume 1;                 (* second restart: shuts the client 12 down *)
    Complete 14 ok; Complete 15 ok;
    Resume 4;                 (* doPreCleanConfigure: cleans *)
    Resume 4;                 (* second restart: _startNewClient *)
    Complete 16 ok; Complete 18 ok;
    Resume 4;                 (* doPreCleanConfigure: _startNewClient *)
    Resume 4;                 (* second restart: starts a client *)
    Complete 20 ok;
    Resume 5;                 (* doPreCleanConfigure: starts a client *)
    Complete 21 ok; Complete 22 ok
  ].

End AsyncExamples.

Module LifecycleExamples.
Import Driver.

(** The server of the examples above, with a configure request that
    succeeds. *)
Definition world : environment := DriverExamples.world (Returned tt).

(** A driver whose client promise was rejected: no generator was there
    when a client was to be started. *)
Definition stuck : state :=
  {| this := set_cmsClient (Rejected NoGeneratorError)
               (initial (DriverExamples.workspace None));
     now := 0;
     trace := [] |}.

Definition settings : GlobalSettingsContent := {| gs_generator := "Ninja" |}.

(** A comparison of setting values that looks at numbers, strings and
    booleans and takes two arrays, and two objects, for equivalent. *)
Definition compareShallow (a b : Config.value) : Config.Ordering :=
  match a, b with
  | Config.VUndefined, Config.VUndefined => Config.Equivalent
  | Config.VNull, Config.VNull => Config.Equivalent
  | Config.VBool x, Config.VBool y =>
      if Bool.eqb x y then Config.Equivalent else Config.Less
  | Config.VNumber x, Config.VNumber y =>
      if Z.eqb x y then Config.Equivalent else Config.Less
  | Config.VString x, Config.VString y =>
      if String.eqb x y then Config.Equivalent else Config.Less
  | Config.VArray _, Config.VArray _ => Config.Equivalent
  | Config.VObject _, Config.VObject _ => Config.Equivalent
  | Config.VInherited x, Config.VInherited y =>
      if String.eqb x y then Config.Equivalent else Config.Less
  | _, _ => Config.Less
  end.

Definition unixMakefiles : Config.object :=
  [("generator", Config.VString "Unix Makefiles")].

(** A server whose clients refuse to shut down. *)
Definition stubborn : environment :=
  {| reply := fun n T r =>
       match r in request T return outcome T with
       | ShutdownAsync _ => Thrown (Error "shutdown failed")
       | r => DriverExamples.replies (Returned tt) n _ r
       end;
     mtimes := fun _ _ => Some 1;
     path_join := fun a b => a +:+ "/" +:+ b;
     buildCmdStr := fun path _ => path |}.

End LifecycleExamples.

Module FlagExamples.
Import Async.

(** A configure is called on a driver that holds the client 0; its task
    gets the client and sends the configure request (promise 4). While
    the request is in flight the settings change; then the request fails
    and the task runs on to its end. *)
Definition changedMeanwhile : list ConfigureFlag.action :=
  [ ConfigureFlag.Task (CallConfigure ["-DFOO=1"]);
    ConfigureFlag.Task (Resume 0);      (* the pending change is settled *)
    ConfigureFlag.Task (Resume 0);      (* getClient, its two awaits *)
    ConfigureFlag.Task (Resume 1);
    ConfigureFlag.Task (Resume 0);      (* the configure request goes out *)
    ConfigureFlag.CallConfigureSettingsChange;
    ConfigureFlag.Task
      (Complete 4 (Driver.Thrown (Driver.ServerError "boom")));
    ConfigureFlag.Task (Resume 0) ].    (* doConfigure returns 1 *)

End FlagExamples.

(** * Properties *)

(** ** The code model translation *)

Section CodeModelFacts.
Import CodeModel.

Lemma Forall2_flat_map_map {A B C D} (R : C -> D -> Prop)
    (f : A -> list C) (g : B -> list D) (h : A -> B) (l : list A) :
  (forall x, Forall2 R (f x) (g (h x))) ->
  Forall2 R (flat_map f l) (flat_map g (map h l)).
Proof.
  intros Hx. induction l as [|x l IH]; simpl.
  - constructor.
  - apply Forall2_app; auto.
Qed.

Lemma truthy_hasFlags (o : option string) (f : string) :
  hasFlags o f -> Js.truthy o = true /\ option_list o = [f].
Proof.
  intros [-> Hne]. simpl. split; [|reflexivity].
  destruct (String.eqb_spec f ""); [contradiction|reflexivity].
Qed.

Lemma truthy_noFlags (o : option string) :
  noFlags o -> Js.truthy o = false.
Proof. intros [-> | ->]; reflexivity. Qed.

Lemma fragments_rule (compileFlags linkLanguageFlags : option string) :
  fragmentsRule compileFlags linkLanguageFlags
    (fragments compileFlags linkLanguageFlags).
Proof.
  unfold fragmentsRule, fragments. repeat split.
  - intros f Hf. apply truthy_hasFlags in Hf as [-> ->]. reflexivity.
  - intros Hn l Hl. rewrite (truthy_noFlags _ Hn).
    apply truthy_hasFlags in Hl as [-> ->]. reflexivity.
  - intros Hn Hl. rewrite (truthy_noFlags _ Hn), (truthy_noFlags _ Hl).
    reflexivity.
Qed.

Lemma convertTarget_groups (t : ServerTarget) :
  Forall2
    (fun tg g' =>
       fragmentsRule (sg_compileFlags tg.2) (st_linkLanguageFlags tg.1)
         (compileCommandFragments g'))
    (serverGroupsOfTarget t) (fileGroups (convertTarget t)).
Proof.
  unfold serverGroupsOfTarget, convertTarget; simpl.
  destruct (st_fileGroups t) as [gs|]; [|constructor].
  induction gs as [|g gs IH]; simpl; constructor; auto.
  simpl. apply fragments_rule.
Qed.

(** C5. In the translation of a server code model, every file group
    corresponds, in order, to a file group of the server model, and its
    compileCommandFragments are: the group's own compile flags alone when
    the group has some; otherwise the link-language flags of the enclosing
    target alone when the target has some; otherwise nothing. ("Has
    flags" is the test the code applies: the string is there and is not
    empty.) *)
Theorem C5_compile_command_fragments (m : ServerCodeModelContent) :
  exists cm,
    convertServerCodeModel (Some m) = Some cm /\
    Forall2
      (fun tg g' =>
         fragmentsRule (sg_compileFlags tg.2) (st_linkLanguageFlags tg.1)
           (compileCommandFragments g'))
      (serverGroups m) (groups cm).
Proof.
  eexists; split; [reflexivity|].
  unfold serverGroups, groups; simpl.
  apply Forall2_flat_map_map; intros c; simpl.
  apply Forall2_flat_map_map; intros p; simpl.
  apply Forall2_flat_map_map; intros t.
  apply convertTarget_groups.
Qed.

End CodeModelFacts.

(** ** The targets views *)

Section TargetsFacts.
Import CodeModel Targets.

Variable normalize : string -> string.

Lemma fold_left_concat {A B} (f : A -> list B) (l : list A) (init : list B) :
  fold_left (fun acc x => acc ++ f x) l init = init ++ flat_map f l.
Proof.
  revert init. induction l as [|x l IH]; intros init; simpl.
  - symmetry. apply app_nil_r.
  - rewrite IH. symmetry. apply app_assoc.
Qed.

Lemma declaresInstall_true (p : CodeModelProject) :
  declaresInstall p = true <-> hasInstallRule p = Some true.
Proof.
  unfold declaresInstall. destruct (hasInstallRule p) as [[|]|]; split; congruence.
Qed.

(** C6, as the code has it. When the code model is there and has a
    configuration named after the current build type, the targets view is
    the "build all" meta-target (even when every project's target list is
    empty), then the "install" meta-target exactly when some project of
    that configuration declares an install rule, then the targets of the
    projects. When the driver has never completed a configure (no code
    model), the view is empty; it is empty too when no configuration
    carries the name of the current build type. *)
Theorem C6_targets_meta (cm : CodeModelContent)
    (currentBuildType allTargetName : string)
    (build_config : CodeModelConfiguration) :
  find (fun conf => String.eqb (c_name conf) currentBuildType)
       (configurations cm) = Some build_config ->
  let rest :=
    flat_map (fun p => map (richTarget normalize) (CodeModel.targets p))
             (projects build_config) in
  let view := targets normalize (Some cm) currentBuildType allTargetName in
  ((exists p, p ∈ projects build_config /\ hasInstallRule p = Some true) /\
     view = buildAllTarget allTargetName :: installTarget :: rest
   \/
   (forall p, p ∈ projects build_config -> hasInstallRule p <> Some true) /\
     view = buildAllTarget allTargetName :: rest) /\
  targets normalize None currentBuildType allTargetName = [] /\
  (forall cm',
      find (fun conf => String.eqb (c_name conf) currentBuildType)
           (configurations cm') = None ->
      targets normalize (Some cm') currentBuildType allTargetName = []).
Proof.
  intros Hfind rest view. split; [|split].
  - subst view. unfold targets. rewrite Hfind, fold_left_concat.
    unfold metaTargets.
    destruct (existsb declaresInstall (projects build_config)) eqn:He.
    + left. split; [|reflexivity].
      apply existsb_exists in He as (p & Hin & Hp).
      exists p. split; [by apply list_elem_of_In|by apply declaresInstall_true].
    + right. split; [|reflexivity].
      intros p Hin Hp.
      assert (existsb declaresInstall (projects build_config) = true) as Ht.
      { apply existsb_exists. exists p.
        split; [by apply list_elem_of_In|by apply declaresInstall_true]. }
      congruence.
  - reflexivity.
  - intros cm' Hnone. unfold targets. by rewrite Hnone.
Qed.

Lemma sameTarget_triple (t t2 : RichTarget) :
  sameTarget t t2 = true <-> triple t = triple t2.
Proof.
  unfold sameTarget, triple. rewrite !andb_true_iff, !String.eqb_eq.
  split; [intros [[-> ->] ->]; reflexivity|].
  intros H; injection H; auto.
Qed.

Lemma existsb_sameTarget (t : RichTarget) (set : list RichTarget) :
  existsb (sameTarget t) set = bool_decide (triple t ∈ map triple set).
Proof.
  destruct (existsb (sameTarget t) set) eqn:He; symmetry.
  - apply bool_decide_eq_true. apply existsb_exists in He as (u & Hin & Hu).
    apply sameTarget_triple in Hu. rewrite Hu.
    apply list_elem_of_fmap. exists u. split; [done|by apply list_elem_of_In].
  - apply bool_decide_eq_false. intros Hin.
    apply list_elem_of_fmap in Hin as (u & Hu & Hin).
    assert (existsb (sameTarget t) set = true) as Ht; [|congruence].
    apply existsb_exists. exists u.
    split; [by apply list_elem_of_In|by apply sameTarget_triple].
Qed.

Lemma reduce_firstOccurrences (l set before : list RichTarget) :
  (forall x, x ∈ map triple set <-> x ∈ map triple before) ->
  fold_left targetReducer l set = set ++ firstOccurrences before l.
Proof.
  revert set before. induction l as [|t l IH]; intros set before Hsame; simpl.
  - symmetry. apply app_nil_r.
  - unfold targetReducer at 2. rewrite existsb_sameTarget.
    rewrite (bool_decide_ext _ _ (Hsame (triple t))).
    destruct (bool_decide (triple t ∈ map triple before)) eqn:Hd.
    + apply bool_decide_eq_true in Hd. apply IH. intros x.
      rewrite map_app, elem_of_app, Hsame. simpl.
      rewrite list_elem_of_singleton. split; [auto|].
      intros [H| ->]; done.
    + rewrite (IH (set ++ [t]) (before ++ [t])).
      * by rewrite <- app_assoc.
      * intros x. rewrite !map_app, !elem_of_app, Hsame. done.
Qed.

Lemma firstOccurrences_fresh (l before : list RichTarget) (u : RichTarget) :
  u ∈ firstOccurrences before l ->
  u ∈ l /\ triple u ∉ map triple before.
Proof.
  revert before. induction l as [|t l IH]; intros before; simpl.
  - intros H. by apply elem_of_nil in H.
  - assert (u ∈ firstOccurrences (before ++ [t]) l ->
            u ∈ t :: l /\ triple u ∉ map triple before) as Hrec.
    { intros Hv. apply IH in Hv as [Hin Hnot]. split; [by right|].
      intros Hb. apply Hnot. rewrite map_app, elem_of_app. by left. }
    destruct (bool_decide (triple t ∈ map triple before)) eqn:Hd.
    + apply Hrec.
    + apply bool_decide_eq_false in Hd.
      intros [->|Hin]%elem_of_cons; [split; [by left|done]|by apply Hrec].
Qed.

Lemma firstOccurrences_NoDup (l before : list RichTarget) :
  NoDup (map triple (firstOccurrences before l)).
Proof.
  revert before. induction l as [|t l IH]; intros before; simpl.
  - constructor.
  - destruct (bool_decide (triple t ∈ map triple before)); [apply IH|].
    simpl. constructor; [|apply IH].
    intros Hin. apply list_elem_of_fmap in Hin as (u & Hu & Hin).
    apply firstOccurrences_fresh in Hin as [_ Hnot]. apply Hnot.
    rewrite map_app, elem_of_app. right. rewrite <- Hu. simpl. by left.
Qed.

Lemma firstOccurrences_complete (l before : list RichTarget) (t : RichTarget) :
  t ∈ l ->
  triple t ∈ map triple before \/
  triple t ∈ map triple (firstOccurrences before l).
Proof.
  revert before. induction l as [|a l IH]; intros before; simpl.
  - intros H. by apply elem_of_nil in H.
  - intros Hin.
    assert (triple t ∈ map triple (before ++ [a]) ->
            triple t ∈ map triple before \/ triple t = triple a) as Hsplit.
    { rewrite map_app, elem_of_app. simpl. rewrite list_elem_of_singleton. tauto. }
    destruct (bool_decide (triple a ∈ map triple before)) eqn:Hd.
    + apply bool_decide_eq_true in Hd.
      apply elem_of_cons in Hin as [->|Hin]; [by left|].
      destruct (IH (before ++ [a]) Hin) as [Hb|Hf]; [|by right].
      destruct (Hsplit Hb) as [?|Heq]; [by left|]. left. by rewrite Heq.
    + apply elem_of_cons in Hin as [->|Hin]; [right; simpl; by left|].
      destruct (IH (before ++ [a]) Hin) as [Hb|Hf].
      * destruct (Hsplit Hb) as [?|Heq]; [by left|].
        right. simpl. rewrite Heq. by left.
      * right. simpl. by right.
Qed.

(** C7. For every code model, uniqueTargets is the list of first
    occurrences of the targets view: a target is kept exactly when no
    target before it in the view has the same (name, filepath, targetType)
    triple. So no triple appears twice in the result, every triple of the
    view appears in it, and every entry of the result comes from the
    view. *)
Theorem C7_uniqueTargets_first_occurrence
    (codeModel : option CodeModelContent)
    (currentBuildType allTargetName : string) :
  let view := targets normalize codeModel currentBuildType allTargetName in
  uniqueTargets view = firstOccurrences [] view /\
  NoDup (map triple (uniqueTargets view)) /\
  (forall x, x ∈ map triple view <-> x ∈ map triple (uniqueTargets view)) /\
  (forall u, u ∈ uniqueTargets view -> u ∈ view).
Proof.
  intros view.
  assert (uniqueTargets view = firstOccurrences [] view) as Heq.
  { unfold uniqueTargets. by rewrite (reduce_firstOccurrences view [] []). }
  rewrite Heq. split; [reflexivity|]. split; [apply firstOccurrences_NoDup|].
  split.
  - intros x. split.
    + intros (t & -> & Hin)%list_elem_of_fmap.
      destruct (firstOccurrences_complete view [] t Hin) as [H|H]; [|done].
      by apply elem_of_nil in H.
    + intros (u & -> & Hin)%list_elem_of_fmap.
      apply firstOccurrences_fresh in Hin as [Hin _].
      apply list_elem_of_fmap. by exists u.
  - intros u Hin. by apply firstOccurrences_fresh in Hin as [Hin _].
Qed.

End TargetsFacts.

(** C6 as claimed fails: with a code model whose only configuration is
    "Release" and the current build type "Debug", the code model is there
    and yet the targets view is empty; it holds no "build all" meta-target
    (and no "install" one, although a project declares an install rule). *)
Lemma C6_counterexample :
  let view :=
    Targets.targets (fun p => p) (Some Examples.releaseOnly) "Debug" "all" in
  (view = []) /\ (Targets.buildAllTarget "all" ∉ view) /\
  (Targets.installTarget ∉ view).
Proof.
  simpl. split; [reflexivity|]. split; apply not_elem_of_nil.
Qed.

Lemma C6_targets_meta_witness :
  let view :=
    Targets.targets (fun p => p) (Some Examples.releaseOnly) "Release" "all" in
  view = [Targets.buildAllTarget "all"; Targets.installTarget;
          Targets.richTarget (fun p => p) Examples.appTarget].
Proof.
  destruct (C6_targets_meta (fun p => p) Examples.releaseOnly "Release" "all"
              (Examples.configuration "Release") eq_refl)
    as [[[_ H]|[Hno _]] _].
  - exact H.
  - exfalso. apply (Hno (Examples.project (Some true))).
    + apply list_elem_of_here.
    + reflexivity.
Defined.

(** ** The cache *)

Section CacheFacts.
Import Cache.

Lemma rebuild_snoc (raw : list RawEntry) (el : RawEntry) :
  rebuild (raw ++ [el]) = reducer (rebuild raw) el.
Proof. unfold rebuild. by rewrite fold_left_app. Qed.

(** Where every entry of the map comes from, and what is logged. *)
Lemma rebuild_entries (raw : list RawEntry) (k : string) (e : Entry) :
  (rebuild raw).1 !! k = Some e ->
  exists el, el ∈ raw /\ raw_key el = k /\
    Js.get entry_map (raw_type el) <> Js.Undefined /\
    e = newEntry el (Js.get entry_map (raw_type el)).
Proof.
  revert k e. induction raw as [|el raw IH] using rev_ind; intros k e.
  - unfold rebuild; simpl. by rewrite lookup_empty.
  - rewrite rebuild_snoc. unfold reducer.
    assert (forall el', el' ∈ raw -> el' ∈ raw ++ [el]) as Hin.
    { intros el' H. apply elem_of_app. by left. }
    destruct (Js.get entry_map (raw_type el)) as [t|m|] eqn:Hty; simpl.
    + destruct (decide (raw_key el = k)) as [<-|Hne].
      * rewrite lookup_insert_eq. intros [= <-]. exists el.
        rewrite Hty. repeat split; [|done]. apply elem_of_app. right.
        apply list_elem_of_here.
      * rewrite lookup_insert_ne by done. intros H.
        destruct (IH _ _ H) as (el' & ? & ?). exists el'. auto.
    + destruct (decide (raw_key el = k)) as [<-|Hne].
      * rewrite lookup_insert_eq. intros [= <-]. exists el.
        rewrite Hty. repeat split; [|done]. apply elem_of_app. right.
        apply list_elem_of_here.
      * rewrite lookup_insert_ne by done. intros H.
        destruct (IH _ _ H) as (el' & ? & ?). exists el'. auto.
    + intros H. destruct (IH _ _ H) as (el' & ? & ?). exists el'. auto.
Qed.

Lemma rebuild_log (raw : list RawEntry) :
  (rebuild raw).2 =
  map (fun el => unknown_cache_entry_type (raw_type el))
      (List.filter
         (fun el => match Js.get entry_map (raw_type el) with
                    | Js.Undefined => true
                    | _ => false
                    end) raw).
Proof.
  induction raw as [|el raw IH] using rev_ind; [reflexivity|].
  rewrite rebuild_snoc, List.filter_app, map_app. unfold reducer. simpl.
  destruct (Js.get entry_map (raw_type el)); simpl;
    rewrite IH, ?app_nil_r; reflexivity.
Qed.

Lemma get_entry_map (tag : string) :
  (recognized tag /\ exists t, Js.get entry_map tag = Js.Own t) \/
  (~ recognized tag /\ Js.inherited tag = true /\
     Js.get entry_map tag = Js.Inherited tag) \/
  (~ recognized tag /\ Js.inherited tag = false /\
     Js.get entry_map tag = Js.Undefined).
Proof.
  unfold Js.get, recognized, entry_map. cbn [find fst snd map].
  repeat (match goal with
          | |- context [String.eqb ?a tag] => destruct (String.eqb_spec a tag) as [<-|?]
          end;
          [left; split;
             [rewrite !elem_of_cons; auto 10|eexists; reflexivity]|]).
  assert (tag ∉ ["BOOL"; "STRING"; "PATH"; "FILEPATH"; "INTERNAL";
                 "UNINITIALIZED"; "STATIC"]) as Hnot.
  { rewrite !elem_of_cons, elem_of_nil. intuition congruence. }
  right. destruct (Js.inherited tag); [left|right]; auto.
Qed.

(** What the code guarantees: as long as no type tag is the name of a
    member of [Object.prototype], every entry of the rebuilt map comes
    from a raw entry with one of the seven recognized tags and has a type
    of the closed set, and one diagnostic is logged for each raw entry
    with another tag. *)
Lemma rebuild_closed (raw : list RawEntry) :
  (forall el, el ∈ raw -> Js.inherited (raw_type el) = false) ->
  (forall k e, (rebuild raw).1 !! k = Some e ->
     key e = k /\ closedType (type e) /\
     exists el, el ∈ raw /\ raw_key el = k /\ recognized (raw_type el)) /\
  (rebuild raw).2 =
    map (fun el => unknown_cache_entry_type (raw_type el))
        (List.filter (fun el => bool_decide (~ recognized (raw_type el))) raw).
Proof.
  intros Hplain. split.
  - intros k e H. apply rebuild_entries in H as (el & Hin & Hk & Hdef & ->).
    simpl. split; [done|].
    destruct (get_entry_map (raw_type el))
      as [(Hr & t & Ht)|[(_ & Hi & _)|(_ & _ & Hu)]].
    + rewrite Ht. split; [by exists t|]. by exists el.
    + rewrite (Hplain el Hin) in Hi. discriminate.
    + contradiction.
  - rewrite rebuild_log. f_equal.
    assert (forall l : list RawEntry, (forall el, el ∈ l -> el ∈ raw) ->
      List.filter
        (fun el => match Js.get entry_map (raw_type el) with
                   | Js.Undefined => true | _ => false end) l =
      List.filter (fun el => bool_decide (~ recognized (raw_type el))) l) as Hf.
    { induction l as [|el l IH]; intros Hsub; [reflexivity|]. simpl.
      assert (el ∈ raw) as Hel by (apply Hsub; left).
      rewrite IH by (intros; apply Hsub; by right).
      destruct (get_entry_map (raw_type el))
        as [(Hr & t & Ht)|[(_ & Hi & _)|(Hn & _ & Hu)]].
      - rewrite Ht, bool_decide_eq_false_2; [done|tauto].
      - rewrite (Hplain el Hel) in Hi. discriminate.
      - rewrite Hu, bool_decide_eq_true_2; done. }
    by apply Hf.
Qed.

(** C4 at the failing input. The type tag "constructor" is not one of the
    seven recognized strings, yet the raw entry that carries it is not
    excluded: [entry_map] is an object literal, the lookup finds the
    member [constructor] it inherits from [Object.prototype], the test
    against undefined fails, and the entry is stored with that member as
    its type. No diagnostic is logged. *)
Theorem C4_inherited_tag_is_kept :
  ~ recognized (raw_type Examples.oddEntry) /\
  (rebuild [Examples.oddEntry]).1 !! "FOO" =
    Some (newEntry Examples.oddEntry (Js.Inherited "constructor")) /\
  ~ closedType (Js.Inherited "constructor") /\
  (rebuild [Examples.oddEntry]).2 = [].
Proof.
  split; [|split; [|split]].
  - unfold recognized; simpl. rewrite !elem_of_cons, elem_of_nil. intuition discriminate.
  - reflexivity.
  - intros [t Ht]. discriminate.
  - reflexivity.
Qed.

End CacheFacts.

(** ** The driver *)

Section DriverFacts.
Import Driver.

(** C1. For every driver state and environment, checkNeedsReconfigure
    returns (it never throws), leaves the driver as it was, and its result
    is the disjunction, in this order, of: the configuration-changed flag;
    the recorded input file set having zero files; checkOutOfDate() of the
    recorded input file set. The first two are decided without looking at
    any file: in those cases nothing at all happens besides the return.
    Nothing else enters the result. *)
Theorem C1_checkNeedsReconfigure (env : environment) (s : state) :
  let d := this s in
  let files := _cmakeInputFileSet d in
  let outOfDate := Dirty.checkOutOfDate (mtimes env (now s)) files in
  exists b s',
    checkNeedsReconfigure env s = (Returned b, s') /\
    this s' = d /\
    b = _hadConfigurationChanged d
        || Nat.eqb (length (Dirty.inputFiles files)) 0
        || outOfDate /\
    (b = true <->
       _hadConfigurationChanged d = true \/
       length (Dirty.inputFiles files) = 0 \/
       outOfDate = true) /\
    (_hadConfigurationChanged d = true \/
     length (Dirty.inputFiles files) = 0 -> s' = s) /\
    (_hadConfigurationChanged d = false ->
     length (Dirty.inputFiles files) <> 0 ->
     (Returned b, s') = InputFileSet_checkOutOfDate files env s).
Proof.
  intros d files outOfDate. subst d files outOfDate.
  unfold checkNeedsReconfigure, bind, get, ret, InputFileSet_checkOutOfDate.
  destruct (_hadConfigurationChanged (this s)) eqn:Hflag.
  - exists true, s. repeat split; auto; try congruence.
  - destruct (Nat.eqb_spec
                (length (Dirty.inputFiles (_cmakeInputFileSet (this s)))) 0)
      as [Hlen|Hlen].
    + exists true, s. repeat split; auto; try congruence.
    + eexists _, _. split; [reflexivity|]. simpl.
      repeat split; auto.
      * intros [?|[?|?]]; congruence.
      * intros [?|?]; congruence.
Qed.

(** *** Properties of the driver that a piece of code leaves alone *)

Definition preserves {A} (P : driver -> Prop) (m : M A) : Prop :=
  forall env s, P (this s) -> P (this (m env s).2).

Lemma preserves_ret {A} P (a : A) : preserves P (ret a).
Proof. intros env s H. exact H. Qed.

Lemma preserves_throw {A} P e : preserves P (@throw A e).
Proof. intros env s H. exact H. Qed.

Lemma preserves_get {A} P (f : driver -> A) : preserves P (get f).
Proof. intros env s H. exact H. Qed.

Lemma preserves_emit P e : preserves P (emit e).
Proof. intros env s H. exact H. Qed.

Lemma preserves_call {T} P (r : request T) : preserves P (call r).
Proof. intros env s H. exact H. Qed.

Lemma preserves_await {A} P (p : promise A) : preserves P (await p).
Proof. intros env s H. destruct p; exact H. Qed.

Lemma preserves_modify P (f : driver -> driver) :
  (forall d, P d -> P (f d)) -> preserves P (modify f).
Proof. intros Hf env s H. simpl. auto. Qed.

Lemma preserves_bind {A B} P (m : M A) (k : A -> M B) :
  preserves P m -> (forall a, preserves P (k a)) -> preserves P (bind m k).
Proof.
  intros Hm Hk env s H. unfold bind. specialize (Hm env s H).
  destruct (m env s) as [[a|e] s']; simpl in *; [by apply Hk|done].
Qed.

Lemma preserves_async {A} P (m : M A) : preserves P m -> preserves P (async m).
Proof.
  intros Hm env s H. unfold async. specialize (Hm env s H).
  destruct (m env s) as [[a|e] s']; done.
Qed.

Lemma preserves_try_catch {A} P (m : M A) (h : error -> M A) :
  preserves P m -> (forall e, preserves P (h e)) -> preserves P (try_catch m h).
Proof.
  intros Hm Hh env s H. unfold try_catch. specialize (Hm env s H).
  destruct (m env s) as [[a|e] s']; simpl in *; [done|by apply Hh].
Qed.

Lemma preserves_try_finally {A} P (m : M A) (f : M unit) :
  preserves P m -> preserves P f -> preserves P (try_finally m f).
Proof.
  intros Hm Hf env s H. unfold try_finally. specialize (Hm env s H).
  destruct (m env s) as [[a|e] s']; simpl in *;
    specialize (Hf env s' Hm); destruct (f env s') as [[u|e'] s'']; done.
Qed.

Lemma preserves_call_env {T} P (r : environment -> request T) :
  preserves P (fun env => call (r env) env).
Proof. intros env s H. exact H. Qed.

Lemma preserves_emit_env P (e : environment -> event) :
  preserves P (fun env => emit (e env) env).
Proof. intros env s H. exact H. Qed.

Lemma preserves_InputFileSet_create P paths :
  preserves P (InputFileSet_create paths).
Proof. intros env s H. exact H. Qed.

Lemma preserves_rollbar P (l : list string) :
  preserves P (fun (_ : environment) s =>
    (Returned tt,
     {| this := this s; now := now s;
        trace := trace s ++ map RollbarError l |})).
Proof. intros env s H. exact H. Qed.

Create HintDb preserves discriminated.
Hint Resolve preserves_ret preserves_throw preserves_get preserves_emit
  preserves_call preserves_await preserves_InputFileSet_create
  preserves_rollbar preserves_call_env preserves_emit_env : preserves.

Ltac preserve :=
  repeat first
    [ apply preserves_bind; [|intros ?]
    | apply preserves_async
    | apply preserves_try_catch; [|intros ?]
    | apply preserves_try_finally
    | apply preserves_modify; solve [auto]
    | solve [auto with preserves]
    | match goal with
      | |- preserves _ (match ?x with _ => _ end) => destruct x
      | |- preserves _ (if ?x then _ else _) => destruct x
      end ].

(** Properties that do not depend on the client promise. *)
Definition clientFree (P : driver -> Prop) : Prop :=
  forall p d, P d -> P (set_cmsClient p d).

Lemma preserves_startNewClient P : preserves P _startNewClient.
Proof. unfold _startNewClient. preserve. Qed.

Lemma preserves_getClient P : clientFree P -> preserves P getClient.
Proof.
  intros HP. unfold getClient. pose proof (preserves_startNewClient P).
  preserve.
Qed.

Lemma preserves_acquireClient P : clientFree P -> preserves P acquireClient.
Proof.
  intros HP. unfold acquireClient. pose proof (preserves_getClient P HP).
  preserve.
Qed.

Lemma preserves_refreshPostConfigure P :
  clientFree P ->
  (forall i d, P d -> P (set_cmakeInputFileSet i d)) ->
  (forall m d, P d -> P (set_cacheEntries m d)) ->
  (forall c d, P d -> P (set_codeModel c d)) ->
  preserves P _refreshPostConfigure.
Proof.
  intros HP Hi Hc Hm. unfold _refreshPostConfigure.
  pose proof (preserves_getClient P HP). preserve.
Qed.

Ltac run := cbv beta iota zeta delta
  [bind get ret throw await emit modify call try_catch try_finally].

Lemma doConfigure_cases (env : environment) (s : state)
    (args : list string) (cl : client) (s1 : state) :
  acquireClient env s = (Returned cl, s1) ->
  doConfigure args false env s =
    match reply env (now s1) unit (Configure cl args) with
    | Thrown e =>
        if instanceofServerError e
        then (Returned 1,
              afterTry s1 1 [Sent (Configure cl args);
                             LogError (cmake_configure_error e)])
        else (Thrown e, afterTry s1 1 [Sent (Configure cl args)])
    | Returned _ =>
        match reply env (S (now s1)) unit (Compute cl) with
        | Thrown e =>
            if instanceofServerError e
            then (Returned 1,
                  afterTry s1 2 [Sent (Configure cl args); Sent (Compute cl);
                                 LogError (cmake_configure_error e)])
            else (Thrown e,
                  afterTry s1 2 [Sent (Configure cl args); Sent (Compute cl)])
        | Returned _ =>
            (do! _ <- _refreshPostConfigure; ret 0) env
              (afterTry s1 2 [Sent (Configure cl args); Sent (Compute cl)])
        end
    end.
Proof.
  intros Hacq. unfold acquireClient in Hacq. unfold doConfigure.
  cbv beta iota zeta delta [bind get] in Hacq |- *.
  destruct (_clientChangeInProgress (this s)) as [[]|e0];
    cbv beta iota delta [await ret throw] in Hacq |- *; [|discriminate].
  rewrite Hacq. run. unfold afterTry. simpl.
  destruct (reply env (now s1) unit (Configure cl args)) as [[]|e].
  - destruct (reply env (S (now s1)) unit (Compute cl)) as [[]|e].
    + cbn [this now trace]. rewrite <- !app_assoc. reflexivity.
    + destruct (instanceofServerError e); cbn [this now trace];
        rewrite <- !app_assoc; reflexivity.
  - destruct (instanceofServerError e); cbn [this now trace];
      rewrite <- !app_assoc; reflexivity.
Qed.


Lemma preserves_invoke P (cb : callback) :
  (forall b d, P d -> P (set_super b d)) -> preserves P (invoke cb).
Proof. intros Hb env s H. simpl. auto. Qed.

Lemma preserves_restartClient P :
  clientFree P ->
  (forall g d, P d -> P (set_globalSettings g d)) ->
  preserves P _restartClient.
Proof.
  intros HP Hg. unfold _restartClient, _doRestartClient.
  pose proof (preserves_getClient P HP).
  pose proof (preserves_startNewClient P). preserve.
Qed.

Lemma preserves_setKitAndRestart P need_clean cb :
  clientFree P ->
  (forall g d, P d -> P (set_globalSettings g d)) ->
  (forall b d, P d -> P (set_super b d)) ->
  (forall d, P d -> P (set_cmakeInputFileSet Dirty.createEmpty d)) ->
  preserves P (_setKitAndRestart need_clean cb).
Proof.
  intros HP Hg Hb Hi. unfold _setKitAndRestart.
  pose proof (preserves_restartClient P HP Hg).
  pose proof (preserves_invoke P cb Hb). preserve.
Qed.

Lemma setKitAndRestart_cases (env : environment) (s : state)
    (need_clean : bool) (cb : callback) (old : option client) :
  _cmsClient (this s) = Fulfilled old ->
  teardownSucceeds env (now s) old need_clean ->
  _setKitAndRestart need_clean cb env s =
    let s2 := afterCallback s old need_clean cb in
    match (cb (super (this s))).1 with
    | Thrown e => (Thrown e, s2)
    | Returned _ =>
        match generator (cb (super (this s))).2 with
        | None => (Thrown NoGeneratorError, s2)
        | Some _ => _restartClient env s2
        end
    end.
Proof.
  intros Hold Hdown. unfold _setKitAndRestart, afterCallback, teardownEvents.
  run. cbn [this now trace _cmsClient set_cmakeInputFileSet]. rewrite Hold.
  unfold teardownSucceeds in Hdown.
  destruct old as [c|], need_clean; cbn [this now trace] in *;
    repeat match goal with H : _ /\ _ |- _ => destruct H end;
    repeat match goal with
           | H : true = true -> _ |- _ => specialize (H eq_refl)
           end;
    repeat match goal with H : reply _ _ _ _ = _ |- _ => rewrite H end;
    unfold invoke;
    cbn [this now trace super set_super set_cmakeInputFileSet fst snd];
    destruct (cb (super (this s))) as [[[]|e] b];
    cbn [fst snd length app Nat.add]; rewrite <- ?app_assoc;
    try reflexivity; destruct (generator b); reflexivity.
Qed.

(** *** The trace only grows *)

Definition grows {A} (m : M A) : Prop :=
  forall env s, exists evs, trace (m env s).2 = trace s ++ evs.

Lemma grows_nothing {A} (m : M A) :
  (forall env s, trace (m env s).2 = trace s) -> grows m.
Proof. intros H env s. exists []. rewrite H. symmetry. apply app_nil_r. Qed.

Lemma grows_ret {A} (a : A) : grows (ret a).
Proof. by apply grows_nothing. Qed.

Lemma grows_throw {A} e : grows (@throw A e).
Proof. by apply grows_nothing. Qed.

Lemma grows_get {A} (f : driver -> A) : grows (get f).
Proof. by apply grows_nothing. Qed.

Lemma grows_modify f : grows (modify f).
Proof. by apply grows_nothing. Qed.

Lemma grows_await {A} (p : promise A) : grows (await p).
Proof. apply grows_nothing. by destruct p. Qed.

Lemma grows_emit e : grows (emit e).
Proof. intros env s. by eexists. Qed.

Lemma grows_emit_env (e : environment -> event) :
  grows (fun env => emit (e env) env).
Proof. intros env s. by eexists. Qed.

Lemma grows_call {T} (r : request T) : grows (call r).
Proof. intros env s. by eexists. Qed.

Lemma grows_call_env {T} (r : environment -> request T) :
  grows (fun env => call (r env) env).
Proof. intros env s. by eexists. Qed.

Lemma grows_invoke cb : grows (invoke cb).
Proof. intros env s. by eexists. Qed.

Lemma grows_InputFileSet_create paths : grows (InputFileSet_create paths).
Proof. intros env s. by eexists. Qed.

Lemma grows_rollbar (l : list string) :
  grows (fun (_ : environment) s =>
    (Returned tt,
     {| this := this s; now := now s;
        trace := trace s ++ map RollbarError l |})).
Proof. intros env s. by eexists. Qed.

Lemma grows_bind {A B} (m : M A) (k : A -> M B) :
  grows m -> (forall a, grows (k a)) -> grows (bind m k).
Proof.
  intros Hm Hk env s. unfold bind. destruct (Hm env s) as [evs Hevs].
  destruct (m env s) as [[a|e] s']; simpl in *; [|by eexists].
  destruct (Hk a env s') as [evs' Hevs']. exists (evs ++ evs').
  by rewrite Hevs', Hevs, app_assoc.
Qed.

Lemma grows_async {A} (m : M A) : grows m -> grows (async m).
Proof.
  intros Hm env s. unfold async. destruct (Hm env s) as [evs Hevs].
  destruct (m env s) as [[a|e] s']; by eexists.
Qed.

Hint Resolve grows_ret grows_throw grows_get grows_modify grows_await
  grows_emit grows_emit_env grows_call grows_call_env grows_invoke
  grows_InputFileSet_create grows_rollbar : preserves.

Ltac grow :=
  repeat first
    [ apply grows_bind; [|intros ?]
    | apply grows_async
    | solve [auto with preserves]
    | match goal with
      | |- grows (match ?x with _ => _ end) => destruct x
      | |- grows (if ?x then _ else _) => destruct x
      end ].

Lemma grows_startNewClient : grows _startNewClient.
Proof. unfold _startNewClient. grow. Qed.

Lemma grows_getClient : grows getClient.
Proof. unfold getClient. pose proof grows_startNewClient. grow. Qed.

Lemma grows_restartClient : grows _restartClient.
Proof.
  unfold _restartClient, _doRestartClient.
  pose proof grows_startNewClient. pose proof grows_getClient. grow.
Qed.

Lemma bind_modify {B} (f : driver -> driver) (k : unit -> M B) env s :
  bind (modify f) k env s =
  k tt env {| this := f (this s); now := now s; trace := trace s |}.
Proof. reflexivity. Qed.

Lemma setKitAndRestart_resets env s need_clean cb :
  _cmakeInputFileSet (this (_setKitAndRestart need_clean cb env s).2)
    = Dirty.createEmpty.
Proof.
  unfold _setKitAndRestart. rewrite bind_modify.
  pose proof (preserves_restartClient
    (fun d => _cmakeInputFileSet d = Dirty.createEmpty)
    (fun p d H => H) (fun g d H => H)) as Hr.
  pose proof (preserves_invoke
    (fun d => _cmakeInputFileSet d = Dirty.createEmpty) cb
    (fun b d H => H)) as Hi.
  match goal with
  | |- _cmakeInputFileSet (this (?m env ?s0).2) = _ =>
      assert (preserves (fun d => _cmakeInputFileSet d = Dirty.createEmpty) m)
        as Hm by preserve;
      exact (Hm env s0 eq_refl)
  end.
Qed.

Lemma doSetConfigurePreset_run env s need_clean cb :
  doSetConfigurePreset need_clean cb env s =
    let r := async (_setKitAndRestart need_clean cb) env s in
    match r.1 with
    | Returned p =>
        (Returned p,
         {| this := set_clientChangeInProgress p (this r.2);
            now := now r.2; trace := trace r.2 |})
    | Thrown e => (Thrown e, r.2)
    end.
Proof.
  unfold doSetConfigurePreset, bind, async.
  destruct (_setKitAndRestart need_clean cb env s) as [[[]|e] s1]; reflexivity.
Qed.

End DriverFacts.

(** ** The settings reader *)

Section ConfigFacts.
Import Config.

Variable compare : value -> value -> Ordering.


Lemma find_emitter (l : list string) (key : string) :
  find (fun kv : string * string => String.eqb (fst kv) key)
       (map (fun k => (k, k)) l)
  = if bool_decide (key ∈ l) then Some (key, key) else None.
Proof.
  induction l as [|k l IH]; simpl; [reflexivity|].
  destruct (String.eqb_spec k key) as [->|Hne].
  - rewrite bool_decide_eq_true_2; [reflexivity|left].
  - rewrite IH. apply (f_equal (fun b : bool => if b then _ else _)).
    apply bool_decide_ext. rewrite elem_of_cons. split; [auto|].
    intros [Heq|H]; [congruence|done].
Qed.

Lemma get_emitters (key : string) :
  Js.get _emitters key =
    if bool_decide (key ∈ settings) then Js.Own key
    else if Js.inherited key then Js.Inherited key else Js.Undefined.
Proof.
  unfold Js.get, _emitters. rewrite find_emitter.
  destruct (bool_decide (key ∈ settings)); reflexivity.
Qed.

Lemma has_emitters (key : string) :
  Js.has _emitters key = bool_decide (key ∈ settings) || Js.inherited key.
Proof.
  unfold Js.has. rewrite get_emitters.
  destruct (bool_decide (key ∈ settings)), (Js.inherited key); reflexivity.
Qed.

Lemma assign_lookup_notin (o : object) (m : gmap string value) (k : string) :
  k ∉ getOwnPropertyNames o -> assign m o !! k = m !! k.
Proof.
  revert m. induction o as [|[k' v'] o IH]; intros m Hk; [reflexivity|].
  unfold assign in *. simpl in *. apply not_elem_of_cons in Hk as [Hne Hk].
  rewrite IH by done. by rewrite lookup_insert_ne.
Qed.

Lemma assign_lookup_in (o : object) (m : gmap string value) (k : string) (v : value) :
  NoDup (getOwnPropertyNames o) -> (k, v) ∈ o -> assign m o !! k = Some v.
Proof.
  revert m. induction o as [|[k' v'] o IH]; intros m Hnd Hin.
  - by apply elem_of_nil in Hin.
  - unfold assign in *. simpl in *. apply NoDup_cons in Hnd as [Hk' Hnd].
    apply elem_of_cons in Hin as [[= -> ->]|Hin].
    + fold (assign (<[k':=v']> m) o).
      rewrite assign_lookup_notin by done. apply lookup_insert_eq.
    + by apply IH.
Qed.


Lemma own_names (o : object) (k : string) :
  k ∈ getOwnPropertyNames o -> (k, own o k) ∈ o.
Proof.
  unfold own, getOwnPropertyNames. induction o as [|[k' v'] o IH]; simpl.
  - intros H. by apply elem_of_nil in H.
  - intros Hin. destruct (String.eqb_spec k' k) as [->|Hne]; [left|].
    apply elem_of_cons in Hin as [->|Hin]; [done|]. right. by apply IH.
Qed.

Section Loop.
Variables (subscribed : list (string * nat))
          (configData' old_values : gmap string value)
          (newData : object) (fireEvent : bool).


Lemma loop_keys names keys calls ks cs :
  loop compare subscribed configData' old_values newData fireEvent names keys calls = (Returns ks, cs) ->
  ks = keys ++ List.filter (reportable compare configData' old_values) names.
Proof.
  revert keys calls. induction names as [|k names IH]; intros keys calls; simpl.
  - intros [= <- _]. by rewrite app_nil_r.
  - unfold reportable at 1.
    destruct (Js.has _emitters k); simpl; [|apply IH].
    destruct (isEquivalent _); simpl; [apply IH|].
    destruct (fireEvent && negb (isUndefined (own newData k))).
    + destruct (Js.get _emitters k); try discriminate.
      intros H. apply IH in H. by rewrite <- app_assoc in H.
    + intros H. apply IH in H. by rewrite <- app_assoc in H.
Qed.






End Loop.



End ConfigFacts.

(** ** Examples *)

(** The scenario of a first configure: no cache entries and no code model,
    then configure(["-DFOO=1"]) against a server that reports two cache
    entries and one executable target. The call returns 0, the cache holds
    FOO with the value "1", the unique targets are the "build all"
    meta-target and the target app, and no reconfigure is needed right
    after. *)
Example first_configure :
  let run := Driver.doConfigure ["-DFOO=1"] false
               (DriverExamples.world (Driver.Returned tt))
               DriverExamples.ready in
  let d := Driver.this run.2 in
  run.1 = Driver.Returned 0 /\
  Cache.value <$> Driver._cacheEntries d !! "FOO" = Some "1" /\
  Targets.uniqueTargets
    (Targets.targets (fun p => p) (Driver.codeModel d) "Debug" "all")
  = [ Targets.buildAllTarget "all";
      {| Targets.rt_type := "rich"; Targets.rt_name := "app";
         Targets.filepath := "/build/app";
         Targets.targetType := "EXECUTABLE" |} ] /\
  (Driver.checkNeedsReconfigure (DriverExamples.world (Driver.Returned tt))
     run.2).1 = Driver.Returned false.
Proof. vm_compute. repeat split. Qed.



(** ** Tasks that overlap in time *)

Section AsyncFacts.
Import Async.

(** Between two states, promises that were settled are settled, and tasks
    that were suspended are suspended. *)
Definition grown (m m' : machine) : Prop :=
  (forall p, is_Some (clients m !! p) -> is_Some (clients m' !! p)) /\
  (forall p, is_Some (results m !! p) -> is_Some (results m' !! p)) /\
  suspended m ⊆ suspended m'.

Lemma grown_refl m : grown m m.
Proof. repeat split; auto. Qed.

Lemma grown_trans m1 m2 m3 : grown m1 m2 -> grown m2 m3 -> grown m1 m3.
Proof.
  intros (Hc & Hr & Hs) (Hc' & Hr' & Hs'). repeat split; auto.
  intros t Ht. auto.
Qed.

Lemma grown_fresh m : grown m (fresh m).2.
Proof. repeat split; simpl; auto. Qed.

Lemma grown_set_cmsClient p m : grown m (set_cmsClient p m).
Proof. repeat split; simpl; auto. Qed.

Lemma grown_set_clientChangeInProgress p m :
  grown m (set_clientChangeInProgress p m).
Proof. repeat split; simpl; auto. Qed.

Lemma grown_set_super b m : grown m (set_super b m).
Proof. repeat split; simpl; auto. Qed.

Lemma grown_set_live l m : grown m (set_live l m).
Proof. repeat split; simpl; auto. Qed.

Lemma grown_set_history h m : grown m (set_history h m).
Proof. repeat split; simpl; auto. Qed.

Lemma grown_set_inFlight l m : grown m (set_inFlight l m).
Proof. repeat split; simpl; auto. Qed.

Lemma grown_set_next n m : grown m (set_next n m).
Proof. repeat split; simpl; auto. Qed.

Lemma grown_issue op m : grown m (issue op m).2.
Proof. repeat split; simpl; auto. Qed.

Lemma grown_settle p r m : grown m (settle p r m).
Proof.
  unfold settle. destruct (results m !! p) eqn:Hp; [apply grown_refl|].
  repeat split; simpl; auto. intros q Hq.
  destruct (decide (p = q)) as [->|Hne].
  - rewrite lookup_insert_eq. eauto.
  - by rewrite lookup_insert_ne.
Qed.

Lemma grown_settleClient p r m : grown m (settleClient p r m).
Proof.
  unfold settleClient. destruct (clients m !! p) eqn:Hp; [apply grown_refl|].
  repeat split; simpl; auto. intros q Hq.
  destruct (decide (p = q)) as [->|Hne].
  - rewrite lookup_insert_eq. eauto.
  - by rewrite lookup_insert_ne.
Qed.

Lemma grown_await p f own m : grown m (await p f own m).
Proof.
  repeat split; simpl; auto. intros t Ht. apply elem_of_app. by left.
Qed.

Lemma grown_awaitClient p f own m : grown m (awaitClient p f own m).
Proof.
  repeat split; simpl; auto. intros t Ht. apply elem_of_app. by left.
Qed.

#[local] Arguments settle : simpl never.
#[local] Arguments settleClient : simpl never.
#[local] Arguments await : simpl never.
#[local] Arguments awaitClient : simpl never.
#[local] Arguments set_cmsClient : simpl never.
#[local] Arguments set_clientChangeInProgress : simpl never.
#[local] Arguments set_super : simpl never.
#[local] Arguments set_live : simpl never.
#[local] Arguments set_history : simpl never.
#[local] Arguments set_inFlight : simpl never.
#[local] Arguments set_next : simpl never.
#[local] Arguments set_suspended : simpl never.

Ltac grown :=
  repeat first
    [ apply grown_refl
    | eapply grown_trans;
      [|first [ apply grown_await | apply grown_awaitClient
              | apply grown_settle | apply grown_settleClient
              | apply grown_set_cmsClient
              | apply grown_set_clientChangeInProgress
              | apply grown_set_super | apply grown_set_live
              | apply grown_set_history | apply grown_set_inFlight
              | apply grown_set_next ]] ].

Ltac open_machine :=
  cbv beta delta
    [set_cmsClient set_clientChangeInProgress set_super set_clients
     set_results set_next set_suspended set_inFlight set_live set_history
     await awaitClient issue fresh] in *;
  cbn [_cmsClient _clientChangeInProgress super clients results next
       suspended inFlight live history fst snd] in *.

Ltac unfold_calls :=
  unfold doSetKit, doSetConfigurePreset, _setKitAndRestart, doConfigure,
    _refreshPostConfigure, _restartClient, _doRestartClient, getClient,
    doPreCleanConfigure, onStop, setKit_clean, setKit_callback,
    _startNewClient, issue, fresh;
  simpl.

Lemma grown_startNewClient m : grown m (_startNewClient m).2.
Proof. unfold_calls. destruct (Driver.generator (super m)); grown. Qed.

Lemma grown_restartClient m : grown m (_restartClient m).2.
Proof. unfold_calls. grown. Qed.

Lemma grown_resumeClient f own r m : grown m (resumeClient f own r m).
Proof.
  destruct f, r as [[c|]|e]; unfold resumeClient; unfold_calls;
    repeat match goal with
           | |- context [Driver.generator ?b] =>
               destruct (Driver.generator b); simpl
           | |- context [if ?b then _ else _] => destruct b; simpl
           end; grown.
Qed.

Lemma grown_resume f own r m : grown m (resume f own r m).
Proof.
  destruct f, r as [v|e]; unfold resume; unfold_calls;
    repeat match goal with
           | |- context [Driver.generator ?b] =>
               destruct (Driver.generator b); simpl
           | |- context [if ?b then _ else _] => destruct b; simpl
           end; grown.
Qed.

Lemma grown_complete p op answer m : grown m (complete p op answer m).
Proof.
  destruct op, answer as [[]|e]; unfold complete; grown.
Qed.

(** The promise a task waits for is settled. *)
Definition ready (m : machine) (t : task) : Prop :=
  match t with
  | OnClient p _ _ => is_Some (clients m !! p)
  | OnPlain p _ _ => is_Some (results m !! p)
  end.

Lemma ready_grown m m' t : grown m m' -> ready m t -> ready m' t.
Proof. intros (Hc & Hr & _). destruct t; simpl; auto. Qed.

Lemma step_waits a m m' t :
  step a m = Some m' ->
  t ∈ suspended m \/ ready m t ->
  t ∈ suspended m' \/ ready m' t.
Proof.
  intros Hstep.
  assert (grown m m' -> t ∈ suspended m \/ ready m t ->
          t ∈ suspended m' \/ ready m' t) as Hgrown.
  { intros Hg [Hin|Hr]; [left; by apply Hg|right; by eapply ready_grown]. }
  destruct a; simpl in Hstep; try (injection Hstep as <-; apply Hgrown).
  - unfold_calls. grown.
  - unfold_calls. grown.
  - unfold_calls. grown.
  - apply grown_restartClient.
  - unfold_calls. grown.
  - unfold_calls. grown.
  - destruct (suspended m !! i) as [[p f own|p f own]|] eqn:Hi; [| |discriminate].
    + destruct (clients m !! p) as [r|] eqn:Hp; [|discriminate].
      injection Hstep as <-. intros [Hin|Hr].
      * destruct (list_elem_of_lookup_1 _ _ Hin) as [j Hj].
        destruct (decide (i = j)) as [->|Hne].
        -- right. rewrite Hi in Hj. injection Hj as <-.
           eapply ready_grown; [apply grown_resumeClient|]. simpl. eauto.
        -- left. apply grown_resumeClient. simpl.
           destruct (decide (j < i)%nat).
           ++ eapply list_elem_of_lookup_2. rewrite list_lookup_delete_lt; eauto.
           ++ eapply (list_elem_of_lookup_2 _ (pred j)).
              rewrite list_lookup_delete_ge by lia.
              replace (S (pred j)) with j by lia. done.
      * right. eapply ready_grown; [apply grown_resumeClient|]. done.
    + destruct (results m !! p) as [r|] eqn:Hp; [|discriminate].
      injection Hstep as <-. intros [Hin|Hr].
      * destruct (list_elem_of_lookup_1 _ _ Hin) as [j Hj].
        destruct (decide (i = j)) as [->|Hne].
        -- right. rewrite Hi in Hj. injection Hj as <-.
           eapply ready_grown; [apply grown_resume|]. simpl. eauto.
        -- left. apply grown_resume. simpl.
           destruct (decide (j < i)%nat).
           ++ eapply list_elem_of_lookup_2. rewrite list_lookup_delete_lt; eauto.
           ++ eapply (list_elem_of_lookup_2 _ (pred j)).
              rewrite list_lookup_delete_ge by lia.
              replace (S (pred j)) with j by lia. done.
      * right. eapply ready_grown; [apply grown_resume|]. done.
  - destruct (list_find _ _) as [[i [q op]]|]; [|discriminate].
    injection Hstep as <-. intros H.
    assert (grown m (set_history (history m ++ [Completed p answer])
                       (set_inFlight (delete i (inFlight m)) m))) as Hg
      by grown.
    destruct H as [Hin|Hr].
    + left. apply grown_complete. simpl. done.
    + right. eapply ready_grown; [apply grown_complete|]. done.
Qed.

(** A suspended task stays where it is until the promise it waits for is
    settled, whatever else happens. *)
Lemma run_waits acts m m' t :
  run acts m = Some m' ->
  t ∈ suspended m \/ ready m t ->
  t ∈ suspended m' \/ ready m' t.
Proof.
  revert m. induction acts as [|a acts IH]; intros m; simpl.
  - intros [= <-]. auto.
  - destruct (step a m) as [m1|] eqn:Hstep; [|discriminate].
    intros Hrun H. apply (IH m1 Hrun). eapply step_waits; eauto.
Qed.


(** A kit or preset change starts at once and takes the place of the
    pending client change; its task waits for the client promise. *)
Lemma change_replaces (m : machine) (need_clean : bool)
    (cb : Driver.callback) :
  step (CallSetKit cb) m = step (CallSetConfigurePreset false cb) m /\
  exists m',
    step (CallSetConfigurePreset need_clean cb) m = Some m' /\
    _clientChangeInProgress m' = next m /\
    suspended m' =
      suspended m ++
      [OnClient (_cmsClient m) (SetKit_client need_clean cb) (next m)] /\
    clients m' = clients m /\ results m' = results m /\
    (is_Some (clients m !! _cmsClient m) ->
     is_Some (step (Resume (length (suspended m))) m')).
Proof.
  split; [reflexivity|].
  eexists. split; [reflexivity|]. repeat split.
  intros [r Hr]. unfold step, doSetConfigurePreset, _setKitAndRestart.
  open_machine.
  rewrite lookup_app_r by reflexivity. rewrite Nat.sub_diag. cbn [lookup list_lookup].
  rewrite Hr. eauto.
Qed.

(** A configure stays at its first await until the client change that was
    pending when it was issued is settled. *)
Lemma configure_waits (m : machine) (args : list string) (m1 : machine) :
  step (CallConfigure args) m = Some m1 ->
  let t := OnPlain (_clientChangeInProgress m) (Configure_change args)
             (next m) in
  t ∈ suspended m1 /\
  (forall acts m', run acts m1 = Some m' ->
     t ∈ suspended m' \/ settled m' (_clientChangeInProgress m)) /\
  (forall own v m0,
     resume (Configure_change args) own (Driver.Fulfilled v) m0 =
     awaitClient (next m0) (Configure_getClient args) own (getClient m0).2).
Proof.
  intros [= <-] t.
  assert (t ∈ suspended (doConfigure args m).2) as Hin.
  { cbn. apply elem_of_app. right. apply list_elem_of_here. }
  split; [exact Hin|]. split.
  - intros acts m' Hrun.
    apply (run_waits acts _ m' t Hrun). by left.
  - intros own v m0. unfold resume, getClient, fresh. simpl. reflexivity.
Qed.

(** A restart that finds a client shuts it down and stays there until the
    shutdown has completed. *)
Lemma restart_shuts_down (m : machine) (own : pid) (c : Driver.client) :
  let m1 := resumeClient DoRestart_old own (Driver.Fulfilled (Some c)) m in
  let t := OnPlain (next m) DoRestart_shutdown own in
  inFlight m1 = inFlight m ++ [(next m, ShutdownAsync c)] /\
  suspended m1 = suspended m ++ [t] /\
  (forall acts m', run acts m1 = Some m' ->
     t ∈ suspended m' \/ settled m' (next m)) /\
  (forall e m0,
     resume DoRestart_shutdown own (Driver.Rejected e) m0 =
     settleClient own (Driver.Rejected e) m0) /\
  (forall v m0,
     resume DoRestart_shutdown own (Driver.Fulfilled v) m0 =
     awaitClient (next m0) DoRestart_return own (_startNewClient m0).2).
Proof.
  intros m1 t. split; [reflexivity|]. split; [reflexivity|]. split.
  - intros acts m' Hrun. apply (run_waits acts m1 m' t Hrun). left.
    cbn. apply elem_of_app. right. apply list_elem_of_here.
  - split; [reflexivity|].
    intros v m0. unfold resume. destruct (_startNewClient m0) as [n m2] eqn:E.
    unfold _startNewClient, fresh in E.
    destruct (Driver.generator (super (set_next (S (next m0)) m0)));
      injection E as <- <-; reflexivity.
Qed.

(** A task that waits for a promise cannot run on before the promise is
    settled. *)
Lemma not_settled_stays (m : machine) (i : nat) (p : pid) (f : plainFrame)
    (own : pid) :
  suspended m !! i = Some (OnPlain p f own) ->
  results m !! p = None ->
  step (Resume i) m = None.
Proof. intros Hi Hp. cbn [step]. by rewrite Hi, Hp. Qed.

End AsyncFacts.

(** C3 as claimed fails. Two kit changes are issued in a row on a driver
    that holds the client 0. Right after the two calls the second change
    has started: its task waits for the client promise 0, which is settled,
    not for the first change, whose promise 2 is pending; and the pending
    client change is the promise 3 of the second change alone. In the run
    that follows, the callback of the second change completes before the
    one of the first: the second change restarts the client and completes
    (promise 3 is fulfilled, the client 14 is live) while the first change
    is still waiting for its callback (promise 2 is pending); and a
    configure issued then gets the client 14 and sends its configure
    request, although a kit change is pending. *)
Lemma C3_counterexample :
  (exists m0,
     Async.run AsyncExamples.twoChanges (Async.holding AsyncExamples.base)
       = Some m0 /\
     Async._clientChangeInProgress m0 = 3 /\
     Async.suspended m0 =
       [ Async.OnClient 0 (Async.SetKit_client false AsyncExamples.slow) 2;
         Async.OnClient 0 (Async.SetKit_client false AsyncExamples.fast) 3 ] /\
     Async.clients m0 !! 0 = Some (Driver.Fulfilled (Some 0)) /\
     Async.results m0 !! 2 = None) /\
  (exists m,
     Async.run AsyncExamples.overlapping (Async.holding AsyncExamples.base)
       = Some m /\
     Async.results m !! 2 = None /\
     Async.suspended m =
       [ Async.OnPlain 6 Async.SetKit_callback 2;
         Async.OnPlain 18 (Async.Configure_configure 14) 16 ] /\
     Async.results m !! 3 = Some (Driver.Fulfilled Async.Void) /\
     elements (Async.live m) = [14] /\
     Async.inFlight m =
       [ (6, Async.Callback AsyncExamples.slow);
         (18, Async.Request 14 (Async.QConfigure ["-DFOO=1"])) ]).
Proof.
  split.
  - eexists. split; [vm_compute; reflexivity|]. repeat split.
  - eexists. split; [vm_compute; reflexivity|]. repeat split.
Qed.

(** Two connections can be live at once. A restart is under way; a clean
    configure and a second restart are asked for, and both wait for the
    client promise of the first restart. When it is fulfilled with the
    client 12, both shut that client down, and each starts a client of its
    own: the clients 21 and 22 are live together. *)
Example two_clients_live :
  exists m,
    Async.run AsyncExamples.cleanDuringRestart
      (Async.holding AsyncExamples.base) = Some m /\
    elements (Async.live m) = [22; 21].
Proof. eexists. split; vm_compute; reflexivity. Qed.

(** * Further properties *)

(** ** More on the targets views *)

Section TargetsViews.
Import CodeModel Targets Views.

Variable normalize : string -> string.

Lemma triple_in_filter (P : RichTarget -> Prop) `{!forall t, Decision (P t)}
    (t : RichTarget) (l : list RichTarget) :
  (forall a b, triple a = triple b -> P a -> P b) ->
  P t ->
  triple t ∈ map triple (filter P l) <-> triple t ∈ map triple l.
Proof.
  intros Hresp Ht. rewrite !list_elem_of_fmap. split.
  - intros (u & Hu & Hin). apply list_elem_of_filter in Hin as [_ Hin]. eauto.
  - intros (u & Hu & Hin). exists u. split; [done|].
    apply list_elem_of_filter. split; [|done]. by apply (Hresp t).
Qed.

Lemma firstOccurrences_filter (P : RichTarget -> Prop)
    `{!forall t, Decision (P t)} (l before : list RichTarget) :
  (forall a b, triple a = triple b -> P a -> P b) ->
  firstOccurrences (filter P before) (filter P l)
  = filter P (firstOccurrences before l).
Proof.
  intros Hresp. revert before.
  induction l as [|t l IH]; intros before; [reflexivity|].
  cbn [firstOccurrences]. destruct (decide (P t)) as [Ht|Ht].
  - rewrite filter_cons_True by done. cbn [firstOccurrences].
    rewrite (bool_decide_ext _ _ (triple_in_filter P t before Hresp Ht)).
    specialize (IH (before ++ [t])).
    rewrite filter_app, (filter_cons_True P t []) in IH by done.
    rewrite filter_nil in IH.
    destruct (bool_decide (triple t ∈ map triple before)).
    + exact IH.
    + rewrite filter_cons_True by done. by rewrite IH.
  - rewrite filter_cons_False by done.
    specialize (IH (before ++ [t])).
    rewrite filter_app, (filter_cons_False P t []) in IH by done.
    rewrite filter_nil, app_nil_r in IH.
    destruct (bool_decide (triple t ∈ map triple before)).
    + exact IH.
    + rewrite filter_cons_False by done. exact IH.
Qed.

Lemma uniqueTargets_firstOccurrences (l : list RichTarget) :
  uniqueTargets l = firstOccurrences [] l.
Proof. unfold uniqueTargets. by rewrite (reduce_firstOccurrences l [] []). Qed.

(** X1. The executable targets are the unique targets of type EXECUTABLE:
    filtering the view and then removing duplicates, as the getter does,
    gives what removing duplicates first and filtering afterwards gives.
    So every executable target is a unique target, and no two executable
    targets have the same name and path. *)
Theorem X1_executableTargets_of_unique (view : list RichTarget) :
  executableTargets view
    = map asExecutable (filter isExecutable (uniqueTargets view)) /\
  NoDup (executableTargets view) /\
  (forall e, e ∈ executableTargets view ->
     exists t, t ∈ view /\ t ∈ uniqueTargets view /\
       targetType t = "EXECUTABLE" /\ e = asExecutable t).
Proof.
  assert (forall a b, triple a = triple b -> isExecutable a -> isExecutable b)
    as Hresp.
  { unfold isExecutable, triple. intros a b [= _ _ <-]. done. }
  assert (executableTargets view
          = map asExecutable (filter isExecutable (uniqueTargets view))) as Heq.
  { unfold executableTargets. f_equal.
    rewrite (reduce_firstOccurrences _ [] []) by done.
    rewrite uniqueTargets_firstOccurrences.
    apply (firstOccurrences_filter isExecutable view [] Hresp). }
  split; [exact Heq|]. split.
  - rewrite Heq, uniqueTargets_firstOccurrences.
    pose proof (firstOccurrences_NoDup view []) as Hnd.
    induction (firstOccurrences [] view) as [|t l IH]; [constructor|].
    simpl in Hnd. apply NoDup_cons in Hnd as [Hnot Hnd].
    destruct (decide (isExecutable t)) as [Ht|Ht].
    + rewrite filter_cons_True by done. simpl.
      constructor; [|by apply IH].
      intros (u & Hu & Hin)%list_elem_of_fmap.
      apply list_elem_of_filter in Hin as [Hexe Hin].
      apply Hnot. apply list_elem_of_fmap. exists u. split; [|done].
      unfold triple. unfold isExecutable in *.
      injection Hu as Hn Hp. congruence.
    + rewrite filter_cons_False by done. by apply IH.
  - intros e. rewrite Heq. intros (t & -> & Hin)%list_elem_of_fmap.
    apply list_elem_of_filter in Hin as [Hexe Hin]. exists t.
    repeat split; try done.
    rewrite uniqueTargets_firstOccurrences in Hin.
    by apply firstOccurrences_fresh in Hin as [Hin _].
Qed.

Lemma firstOccurrences_distinct (l before : list RichTarget) :
  NoDup (map triple l) ->
  (forall t, t ∈ l -> triple t ∉ map triple before) ->
  firstOccurrences before l = l.
Proof.
  revert before. induction l as [|t l IH]; intros before Hnd Hfresh;
    [reflexivity|].
  simpl in *. apply NoDup_cons in Hnd as [Hnot Hnd].
  rewrite bool_decide_eq_false_2 by (apply Hfresh; left).
  f_equal. apply IH; [done|]. intros u Hu.
  rewrite map_app, elem_of_app. intros [Hb|Hb].
  - by apply (Hfresh u); [right|].
  - simpl in Hb. apply list_elem_of_singleton in Hb.
    apply Hnot. rewrite <- Hb. apply list_elem_of_fmap. by exists u.
Qed.

(** X2. Removing duplicates twice changes nothing more: uniqueTargets is
    idempotent, a list is left as it is exactly when no two of its targets
    have the same (name, filepath, targetType) triple, and the result is
    never longer than the list. *)
Theorem X2_uniqueTargets_idempotent (l : list RichTarget) :
  uniqueTargets (uniqueTargets l) = uniqueTargets l /\
  (uniqueTargets l = l <-> NoDup (map triple l)) /\
  length (uniqueTargets l) <= length l.
Proof.
  assert (forall l', NoDup (map triple l') -> uniqueTargets l' = l') as Hfix.
  { intros l' Hnd. rewrite uniqueTargets_firstOccurrences.
    apply firstOccurrences_distinct; [done|].
    intros t _ Hin. by apply elem_of_nil in Hin. }
  split; [|split].
  - apply Hfix. rewrite uniqueTargets_firstOccurrences.
    apply firstOccurrences_NoDup.
  - split; [|apply Hfix]. intros <-. rewrite uniqueTargets_firstOccurrences.
    apply firstOccurrences_NoDup.
  - rewrite uniqueTargets_firstOccurrences. generalize (@nil RichTarget).
    induction l as [|t l IH]; intros before; simpl; [lia|].
    specialize (IH (before ++ [t])).
    destruct (bool_decide _); simpl; lia.
Qed.

(** X3. Whenever the targets view is not empty, its first entry is the
    "build all" meta-target, and it is the first unique target too: the
    removal of duplicates keeps the head of a list. The view is empty
    exactly when there is no code model or no configuration carries the
    name of the current build type. *)
Theorem X3_build_all_first (codeModel : option CodeModelContent)
    (currentBuildType allTargetName : string) :
  let view := targets normalize codeModel currentBuildType allTargetName in
  let found :=
    match codeModel with
    | Some cm =>
        existsb (fun conf => String.eqb (c_name conf) currentBuildType)
                (configurations cm)
    | None => false
    end in
  (found = true ->
     head view = Some (buildAllTarget allTargetName) /\
     head (uniqueTargets view) = Some (buildAllTarget allTargetName)) /\
  (found = false -> view = [] /\ uniqueTargets view = []).
Proof.
  intros view found. subst view found. unfold targets.
  destruct codeModel as [cm|]; [|split; [discriminate|done]].
  destruct (find _ (configurations cm)) as [build_config|] eqn:Hfind.
  - assert (existsb (fun conf => String.eqb (c_name conf) currentBuildType)
              (configurations cm) = true) as ->.
    { apply find_some in Hfind as [Hin Hname]. apply existsb_exists. eauto. }
    split; [|discriminate]. intros _.
    rewrite fold_left_concat. unfold metaTargets. split; [reflexivity|].
    rewrite uniqueTargets_firstOccurrences. reflexivity.
  - assert (existsb (fun conf => String.eqb (c_name conf) currentBuildType)
              (configurations cm) = false) as ->.
    { destruct (existsb _ _) eqn:He; [|done].
      apply existsb_exists in He as (c & Hin & Hc).
      by pose proof (find_none _ _ Hfind c Hin) as Hn; simpl in Hn;
        rewrite Hc in Hn. }
    split; [discriminate|done].
Qed.

End TargetsViews.

(** ** More on the code model translation *)

Section CodeModelShapeFacts.
Import CodeModel CodeModelShape.

Lemma fragments_short (compileFlags linkLanguageFlags : option string) :
  length (fragments compileFlags linkLanguageFlags) <= 1 /\
  "" ∉ fragments compileFlags linkLanguageFlags.
Proof.
  unfold fragments.
  destruct compileFlags as [c|]; simpl.
  - destruct (String.eqb_spec c "") as [->|Hc]; simpl.
    + destruct linkLanguageFlags as [l|]; simpl.
      * destruct (String.eqb_spec l "") as [->|Hl]; simpl.
        -- split; [lia|apply not_elem_of_nil].
        -- split; [lia|]. intros H%list_elem_of_singleton. done.
      * split; [lia|apply not_elem_of_nil].
    + split; [lia|]. intros H%list_elem_of_singleton. done.
  - destruct linkLanguageFlags as [l|]; simpl.
    + destruct (String.eqb_spec l "") as [->|Hl]; simpl.
      * split; [lia|apply not_elem_of_nil].
      * split; [lia|]. intros H%list_elem_of_singleton. done.
    + split; [lia|apply not_elem_of_nil].
Qed.

(** X4. In a translated code model no file group has more than one compile
    command fragment, and no fragment is the empty string: flags that are
    absent or empty give no fragment at all. *)
Theorem X4_fragments_at_most_one (m : ServerCodeModelContent) :
  exists cm,
    convertServerCodeModel (Some m) = Some cm /\
    Forall (fun g => length (compileCommandFragments g) <= 1 /\
                     "" ∉ compileCommandFragments g)
           (groups cm).
Proof.
  eexists. split; [reflexivity|]. unfold groups. simpl.
  apply Forall_forall. intros g Hin.
  apply list_elem_of_In, in_flat_map in Hin as (c & Hc & Hin).
  apply in_flat_map in Hin as (p & Hp & Hin).
  apply in_flat_map in Hin as (t & Ht & Hin).
  apply in_map_iff in Hc as (sc & <- & _). simpl in Hp.
  apply in_map_iff in Hp as (sp & <- & _). simpl in Ht.
  apply in_map_iff in Ht as (st & <- & _). simpl in Hin.
  destruct (st_fileGroups st) as [gs|]; [|done].
  apply in_map_iff in Hin as (sg & <- & _). simpl.
  apply fragments_short.
Qed.

Lemma Forall2_map_r {A B} (R : A -> B -> Prop) (h : A -> B) (l : list A) :
  (forall x, R x (h x)) -> Forall2 R l (map h l).
Proof. intros Hx. induction l; simpl; constructor; auto. Qed.

(** X5. The translation drops, adds and reorders nothing. A missing server
    model gives a missing model. Otherwise the configurations keep their
    names in order, and the targets of the translated model are, one for
    one and in order, the targets of the server model, each with the same
    name, type, directories, artifacts and sysroot and with as many file
    groups as the server reported (none when the server reported no
    list); the projects keep their names and install rules. Level by
    level: every project keeps its name, source directory and install
    rule and its targets, every target its fields and its file groups,
    and every file group its sources, language, include path, defines and
    isGenerated mark, with the compile command fragments computed from
    the flags of the group and of its target. *)
Theorem X5_translation_keeps_shape (m : ServerCodeModelContent) :
  convertServerCodeModel None = None /\
  exists cm,
    convertServerCodeModel (Some m) = Some cm /\
    map c_name (configurations cm) = map sc_name (s_configurations m) /\
    Forall2
      (fun st t =>
         name t = st_name st /\ type t = st_type st /\
         sourceDirectory t = st_sourceDirectory st /\
         fullName t = st_fullName st /\
         artifacts t = st_artifacts st /\ sysroot t = st_sysroot st /\
         length (fileGroups t) = serverGroupCount st)
      (serverTargets m) (modelTargets cm) /\
    Forall2
      (fun sc c =>
         c_name c = sc_name sc /\
         Forall2
           (fun sp p =>
              p_name p = sp_name sp /\
              hasInstallRule p = sp_hasInstallRule sp /\
              length (CodeModel.targets p) = length (sp_targets sp))
           (sc_projects sc) (projects c))
      (s_configurations m) (configurations cm) /\
    Forall2
      (fun sc c =>
         c_name c = sc_name sc /\
         Forall2
           (fun sp p =>
              p_name p = sp_name sp /\
              p_sourceDirectory p = sp_sourceDirectory sp /\
              hasInstallRule p = sp_hasInstallRule sp /\
              Forall2
                (fun st t =>
                   name t = st_name st /\ type t = st_type st /\
                   sourceDirectory t = st_sourceDirectory st /\
                   fullName t = st_fullName st /\
                   artifacts t = st_artifacts st /\
                   sysroot t = st_sysroot st /\
                   Forall2
                     (fun sg g =>
                        sources g = sg_sources sg /\
                        language g = sg_language sg /\
                        includePath g = sg_includePath sg /\
                        defines g = sg_defines sg /\
                        isGenerated g = sg_isGenerated sg /\
                        compileCommandFragments g
                        = fragments (sg_compileFlags sg)
                            (st_linkLanguageFlags st))
                     (serverFileGroups st) (fileGroups t))
                (sp_targets sp) (CodeModel.targets p))
           (sc_projects sc) (projects c))
      (s_configurations m) (configurations cm).
Proof.
  split; [reflexivity|]. eexists. split; [reflexivity|]. simpl.
  split; [|split; [|split]].
  - rewrite map_map. reflexivity.
  - unfold serverTargets, modelTargets. simpl.
    apply Forall2_flat_map_map. intros c. simpl.
    apply Forall2_flat_map_map. intros p. simpl.
    apply Forall2_map_r. intros t. simpl. repeat split.
    unfold serverGroupCount. destruct (st_fileGroups t); [|done].
    apply length_map.
  - apply Forall2_map_r. intros c. simpl. split; [done|].
    apply Forall2_map_r. intros p. simpl. repeat split. apply length_map.
  - apply Forall2_map_r. intros c. simpl. split; [done|].
    apply Forall2_map_r. intros p. simpl. do 3 (split; [done|]).
    apply Forall2_map_r. intros t. simpl. do 6 (split; [done|]).
    unfold serverFileGroups. destruct (st_fileGroups t) as [gs|];
      [|constructor].
    apply Forall2_map_r. intros g. simpl. repeat split.
Qed.

End CodeModelShapeFacts.

(** ** More on the cache *)

Section CacheLookupFacts.
Import Cache CacheLookup.

Lemma reducer_kept (a : acc) (el : RawEntry) :
  reducer a el =
  if kept el then (<[raw_key el := stored el]> a.1, a.2)
  else (a.1, a.2 ++ [unknown_cache_entry_type (raw_type el)]).
Proof.
  unfold reducer, kept, stored.
  destruct (Js.get entry_map (raw_type el)); reflexivity.
Qed.

(** X6. A lookup in the rebuilt cache finds what the last raw entry with
    that key that was not dropped has stored: later entries overwrite
    earlier ones, and a key none of whose raw entries is kept is absent.
    In particular the cache rebuilt from no entries is empty, and it never
    has more entries than the server sent. *)
Theorem X6_cache_last_entry_wins (raw : list RawEntry) (k : string) :
  (rebuild raw).1 !! k
    = stored <$> last (List.filter
                         (fun el => String.eqb (raw_key el) k && kept el) raw) /\
  size (rebuild raw).1 <= length raw.
Proof.
  split.
  - induction raw as [|el raw IH] using rev_ind; [reflexivity|].
    rewrite rebuild_snoc, reducer_kept, List.filter_app. simpl.
    destruct (kept el) eqn:Hk; simpl.
    + destruct (String.eqb_spec (raw_key el) k) as [<-|Hne]; simpl.
      * rewrite lookup_insert_eq, last_snoc. reflexivity.
      * rewrite lookup_insert_ne by done. by rewrite app_nil_r.
    + rewrite andb_false_r, app_nil_r. exact IH.
  - induction raw as [|el raw IH] using rev_ind; [simpl; by rewrite map_size_empty|].
    rewrite rebuild_snoc, reducer_kept, length_app. simpl.
    destruct (kept el); simpl; [|lia].
    destruct ((rebuild raw).1 !! raw_key el) eqn:Hl.
    + rewrite map_size_insert_Some by eauto. lia.
    + rewrite map_size_insert_None by done. lia.
Qed.

(** X7. Raw entries that are dropped leave no mark on the map: the rebuilt
    map is the one rebuilt from the kept entries alone, which log nothing;
    and the diagnostics are as many as the dropped entries. *)
Theorem X7_dropped_entries_only_logged (raw : list RawEntry) :
  (rebuild raw).1 = (rebuild (List.filter kept raw)).1 /\
  (rebuild (List.filter kept raw)).2 = [] /\
  length (rebuild raw).2 + length (List.filter kept raw) = length raw.
Proof.
  induction raw as [|el raw (IH1 & IH2 & IH3)] using rev_ind.
  - repeat split.
  - rewrite List.filter_app. simpl.
    rewrite (rebuild_snoc raw), reducer_kept.
    destruct (kept el) eqn:Hk; simpl.
    + rewrite rebuild_snoc, reducer_kept, Hk. simpl.
      rewrite IH1, IH2, !length_app. simpl. split; [done|]. split; [done|]. lia.
    + rewrite app_nil_r, !length_app. simpl. split; [done|]. split; [done|]. lia.
Qed.

End CacheLookupFacts.

(** ** More on the driver *)

Section DriverRunsFacts.
Import Driver DriverRuns.

Ltac run := cbv beta iota zeta delta
  [bind get ret throw await emit modify call try_catch try_finally async
   started].

Lemma state_eta (s : state) :
  {| this := this s; now := now s; trace := trace s |} = s.
Proof. by destruct s. Qed.

Lemma set_cmsClient_same (d : driver) :
  set_cmsClient (_cmsClient d) d = d.
Proof. by destruct d. Qed.

Lemma startNewClient_run (env : environment) (s : state) :
  _startNewClient env s =
  match generator (super (this s)) with
  | None => (Thrown NoGeneratorError, s)
  | Some g =>
      match reply env (now s) _ GetConfigureEnvironment with
      | Thrown e => (Thrown e, after s id 1 [Sent GetConfigureEnvironment])
      | Returned environment =>
          (reply env (S (now s)) _
             (Start (clientInit env (super (this s)) environment g)),
           after s id 2 (startEvents env (super (this s)) environment g))
      end
  end.
Proof.
  unfold _startNewClient. run.
  destruct (generator (super (this s))) as [g|]; [|reflexivity].
  cbn [this now trace].
  destruct (reply env (now s) _ GetConfigureEnvironment) as [e|e];
    [|reflexivity].
  unfold after, startEvents, clientInit. cbn [this now trace].
  rewrite <- app_assoc. reflexivity.
Qed.

Lemma getClient_run (env : environment) (s : state) :
  getClient env s =
  match _cmsClient (this s) with
  | Rejected e => (Thrown e, s)
  | Fulfilled (Some c) => (Returned c, s)
  | Fulfilled None =>
      match _startNewClient env s with
      | (Returned c, s') =>
          (Returned c, after s' (set_cmsClient (Fulfilled (Some c))) 0 [])
      | (Thrown e, s') =>
          (Thrown e, after s' (set_cmsClient (Rejected e)) 0 [])
      end
  end.
Proof.
  unfold getClient. run.
  destruct (_cmsClient (this s)) as [[c|]|e] eqn:Hp; cbn [this].
  - rewrite Hp. reflexivity.
  - destruct (_startNewClient env s) as [[c|e] s']; unfold after;
      cbn [this now trace _cmsClient set_cmsClient]; rewrite app_nil_r;
      reflexivity.
  - reflexivity.
Qed.

Lemma acquireClient_holds (env : environment) (s s1 : state) (cl : client) :
  acquireClient env s = (Returned cl, s1) ->
  _cmsClient (this s1) = Fulfilled (Some cl).
Proof.
  unfold acquireClient. cbv beta iota zeta delta [bind get].
  destruct (_clientChangeInProgress (this s)) as [[]|e];
    cbv beta iota delta [await ret throw]; [|discriminate].
  rewrite getClient_run.
  destruct (_cmsClient (this s)) as [[c|]|e] eqn:Hp.
  - intros [= <- <-]. exact Hp.
  - destruct (_startNewClient env s) as [[c|e] s']; intros [= <- <-];
      reflexivity.
  - discriminate.
Qed.

(** X8. getClient ends with the client promise settled the way the call
    ended: fulfilled with the client it returned, or rejected with the
    error it threw. So the promise is never left fulfilled with null, the
    exception "Unable to start cms client" has no other source than the
    start of a client itself, and the call is idempotent: called again, it
    ends the same way without sending anything and without changing the
    driver. With a client at hand it returns it and does nothing else. *)
Theorem X8_getClient_settles (env : environment) (s : state) :
  let r := getClient env s in
  match r.1 with
  | Returned c => _cmsClient (this r.2) = Fulfilled (Some c)
  | Thrown e => _cmsClient (this r.2) = Rejected e
  end /\
  (forall env', getClient env' r.2 = r) /\
  (forall c, _cmsClient (this s) = Fulfilled (Some c) -> r = (Returned c, s)).
Proof.
  intros r. subst r.
  assert (forall c, _cmsClient (this s) = Fulfilled (Some c) ->
            getClient env s = (Returned c, s)) as Hhold.
  { intros c Hc. by rewrite getClient_run, Hc. }
  assert (match (getClient env s).1 with
          | Returned c => _cmsClient (this (getClient env s).2) = Fulfilled (Some c)
          | Thrown e => _cmsClient (this (getClient env s).2) = Rejected e
          end) as Hend.
  { rewrite getClient_run.
    destruct (_cmsClient (this s)) as [[c|]|e] eqn:Hp; simpl; try done.
    destruct (_startNewClient env s) as [[c|e] s']; reflexivity. }
  split; [exact Hend|]. split; [|exact Hhold].
  intros env'. destruct (getClient env s) as [[c|e] s1]; simpl in *.
  - by rewrite getClient_run, Hend.
  - by rewrite getClient_run, Hend.
Qed.

Lemma restartClient_run (env : environment) (s : state) :
  _restartClient env s =
  match _doRestartClient env s with
  | (Returned c, s') =>
      (match reply env (now s') _ (GetGlobalSettings c) with
       | Returned g => Returned tt
       | Thrown e => Thrown e
       end,
       after s'
         (fun d =>
            match reply env (now s') _ (GetGlobalSettings c) with
            | Returned g => set_globalSettings g
            | Thrown e => id
            end (set_cmsClient (Fulfilled (Some c)) d))
         1 [Sent (GetGlobalSettings c)])
  | (Thrown e, s') =>
      (Thrown e, after s' (set_cmsClient (Rejected e)) 0 [])
  end.
Proof.
  unfold _restartClient. cbv beta iota zeta delta [bind async modify started].
  destruct (_doRestartClient env s) as [[c|e] s'].
  - rewrite getClient_run. cbn [this _cmsClient set_cmsClient].
    unfold call, after. cbn [this now trace].
    destruct (reply env (now s') _ (GetGlobalSettings c)); reflexivity.
  - rewrite getClient_run. cbn [this _cmsClient set_cmsClient].
    unfold after. cbn [this now trace]. by rewrite app_nil_r.
Qed.

Lemma doRestartClient_run (env : environment) (s : state) :
  _doRestartClient env s =
  match _cmsClient (this s) with
  | Rejected e => (Thrown e, s)
  | Fulfilled None => _startNewClient env s
  | Fulfilled (Some c) =>
      match reply env (now s) _ (ShutdownAsync c) with
      | Returned _ => _startNewClient env (after s id 1 [Sent (ShutdownAsync c)])
      | Thrown e => (Thrown e, after s id 1 [Sent (ShutdownAsync c)])
      end
  end.
Proof.
  unfold _doRestartClient. run.
  destruct (_cmsClient (this s)) as [[c|]|e]; reflexivity.
Qed.

(** X9. Once the client promise is rejected, it stays rejected: getClient,
    shutdownClient, onStop, doPreCleanConfigure, _restartClient and a kit
    or configure-preset change all fail with the reason of the rejection,
    send nothing, do not run the callback, and leave the promise rejected
    with the same reason. No operation of the driver brings a client back
    after a start or a shutdown has failed. *)
Theorem X9_rejected_client_promise_is_final (env : environment) (s : state)
    (e : error) (need_clean : bool) (cb : callback) :
  _cmsClient (this s) = Rejected e ->
  getClient env s = (Thrown e, s) /\
  shutdownClient env s = (Thrown e, s) /\
  onStop env s = (Thrown e, s) /\
  doPreCleanConfigure env s = (Thrown e, s) /\
  _restartClient env s = (Thrown e, s) /\
  (let r := doSetConfigurePreset need_clean cb env s in
   r.1 = Returned (Rejected e) /\
   _cmsClient (this r.2) = Rejected e /\
   _clientChangeInProgress (this r.2) = Rejected e /\
   super (this r.2) = super (this s) /\
   trace r.2 = trace s /\ now r.2 = now s) /\
  (forall args showCommandOnly,
     _clientChangeInProgress (this s) = Fulfilled tt ->
     doConfigure args showCommandOnly env s = (Thrown e, s)).
Proof.
  intros Hrej. repeat split.
  - by rewrite getClient_run, Hrej.
  - unfold shutdownClient. run. by rewrite Hrej.
  - unfold onStop. run. by rewrite Hrej.
  - unfold doPreCleanConfigure. run. by rewrite Hrej.
  - rewrite restartClient_run, doRestartClient_run, Hrej. unfold after.
    cbn [this now trace]. rewrite app_nil_r, <- Hrej, set_cmsClient_same.
    by rewrite state_eta.
  - unfold doSetConfigurePreset, _setKitAndRestart. run.
    cbn [this _cmsClient set_cmakeInputFileSet]. by rewrite Hrej.
  - unfold doSetConfigurePreset, _setKitAndRestart. run.
    cbn [this _cmsClient set_cmakeInputFileSet]. by rewrite Hrej.
  - unfold doSetConfigurePreset, _setKitAndRestart. run.
    cbn [this _cmsClient set_cmakeInputFileSet]. by rewrite Hrej.
  - unfold doSetConfigurePreset, _setKitAndRestart. run.
    cbn [this _cmsClient set_cmakeInputFileSet]. by rewrite Hrej.
  - unfold doSetConfigurePreset, _setKitAndRestart. run.
    cbn [this _cmsClient set_cmakeInputFileSet]. by rewrite Hrej.
  - unfold doSetConfigurePreset, _setKitAndRestart. run.
    cbn [this _cmsClient set_cmakeInputFileSet]. by rewrite Hrej.
  - intros args sco Hpend. unfold doConfigure.
    cbv beta iota zeta delta [bind get]. rewrite Hpend.
    cbv beta iota zeta delta [await ret]. by rewrite getClient_run, Hrej.
Qed.

Lemma after_after (s : state) f g m n evs evs' :
  after (after s f m evs) g n evs'
  = after s (fun d => g (f d)) (n + m) (evs ++ evs').
Proof.
  unfold after. cbn [this now trace]. f_equal; [lia|].
  by rewrite app_assoc.
Qed.

Lemma after_nothing (s : state) : after s id 0 [] = s.
Proof.
  unfold after. cbn. rewrite app_nil_r. by destruct s.
Qed.

Lemma startNewClient_ok env s environment g c :
  startSucceeds env (now s) (super (this s)) environment g c ->
  _startNewClient env s =
    (Returned c, after s id 2 (startEvents env (super (this s)) environment g)).
Proof.
  intros (Hg & He & Hs). by rewrite startNewClient_run, Hg, He, Hs.
Qed.

Lemma restartClient_ok env s old environment g c gs :
  _cmsClient (this s) = Fulfilled old ->
  (forall c0, old = Some c0 ->
     reply env (now s) _ (ShutdownAsync c0) = Returned tt) ->
  startSucceeds env (length (shutdownOf old) + now s) (super (this s))
    environment g c ->
  reply env (2 + (length (shutdownOf old) + now s)) _ (GetGlobalSettings c)
    = Returned gs ->
  _restartClient env s =
    (Returned tt,
     after s
       (fun d => set_globalSettings gs (set_cmsClient (Fulfilled (Some c)) d))
       (3 + length (shutdownOf old))
       (shutdownOf old ++ startEvents env (super (this s)) environment g
          ++ [Sent (GetGlobalSettings c)])).
Proof.
  intros Hold Hdown Hstart Hgs.
  rewrite restartClient_run, doRestartClient_run, Hold.
  destruct old as [c0|].
  - rewrite (Hdown c0 eq_refl).
    rewrite (startNewClient_ok env _ environment g c) by exact Hstart.
    cbn [now after shutdownOf length Nat.add] in *.
    rewrite Hgs. unfold after. cbn [this now trace id].
    rewrite <- !app_assoc. reflexivity.
  - rewrite (startNewClient_ok env _ environment g c) by exact Hstart.
    cbn [now after shutdownOf length Nat.add] in *.
    rewrite Hgs. unfold after. cbn [this now trace id app].
    rewrite <- !app_assoc. reflexivity.
Qed.

(** X10. _restartClient, step by step, on a driver whose client promise is
    fulfilled. The old client, if any, is shut down first; if that fails,
    nothing else is sent and the client promise is left rejected. Without
    a generator the old client is shut down all the same, no client is
    started, and the promise is left rejected with NoGeneratorError. When
    the shutdown and the start succeed, the promise holds the new client;
    the global settings are then asked for, and they are stored (so that
    generatorName is the server's generator) if the request succeeds; if
    it fails, the error is thrown and the old settings stay, although the
    client is the new one. *)
Theorem X10_restartClient_steps (env : environment) (s : state)
    (old : option client) :
  _cmsClient (this s) = Fulfilled old ->
  let down := shutdownOf old in
  let n := length down + now s in
  (forall c0 e,
     old = Some c0 ->
     reply env (now s) _ (ShutdownAsync c0) = Thrown e ->
     _restartClient env s =
       (Thrown e,
        after s (set_cmsClient (Rejected e)) 1 [Sent (ShutdownAsync c0)])) /\
  ((forall c0, old = Some c0 ->
      reply env (now s) _ (ShutdownAsync c0) = Returned tt) ->
   (generator (super (this s)) = None ->
    _restartClient env s =
      (Thrown NoGeneratorError,
       after s (set_cmsClient (Rejected NoGeneratorError)) (length down) down))
   /\
   (forall environment g c,
      startSucceeds env n (super (this s)) environment g c ->
      let started := down ++ startEvents env (super (this s)) environment g
                          ++ [Sent (GetGlobalSettings c)] in
      (forall gs,
         reply env (2 + n) _ (GetGlobalSettings c) = Returned gs ->
         _restartClient env s =
           (Returned tt,
            after s
              (fun d => set_globalSettings gs
                          (set_cmsClient (Fulfilled (Some c)) d))
              (3 + length down) started) /\
         generatorName (this (_restartClient env s).2)
           = Some (gs_generator gs)) /\
      (forall e,
         reply env (2 + n) _ (GetGlobalSettings c) = Thrown e ->
         _restartClient env s =
           (Thrown e,
            after s (set_cmsClient (Fulfilled (Some c)))
              (3 + length down) started)))).
Proof.
  intros Hold down n. subst down n. split; [|intros Hdown; split].
  - intros c0 e -> He.
    rewrite restartClient_run, doRestartClient_run, Hold, He.
    by rewrite after_after.
  - intros Hgen. rewrite restartClient_run, doRestartClient_run, Hold.
    destruct old as [c0|].
    + rewrite (Hdown c0 eq_refl), startNewClient_run.
      cbn [after this id]. rewrite Hgen. by rewrite after_after.
    + rewrite startNewClient_run, Hgen. unfold after. reflexivity.
  - intros environment g c Hstart started. subst started. split.
    + intros gs Hgs.
      rewrite (restartClient_ok env s old environment g c gs) by done.
      split; reflexivity.
    + intros e He.
      rewrite restartClient_run, doRestartClient_run, Hold.
      destruct old as [c0|].
      * rewrite (Hdown c0 eq_refl).
        rewrite (startNewClient_ok env _ environment g c) by exact Hstart.
        cbn [now after shutdownOf length Nat.add] in *.
        rewrite He. unfold after. cbn [this now trace id].
        rewrite <- !app_assoc. reflexivity.
      * rewrite (startNewClient_ok env _ environment g c) by exact Hstart.
        cbn [now after shutdownOf length Nat.add] in *.
        rewrite He. unfold after. cbn [this now trace id app].
        rewrite <- !app_assoc. reflexivity.
Qed.

(** X11. A kit or configure-preset change that succeeds, step by step. The
    old client is shut down, the prior configuration is cleaned if asked
    for, the callback runs, and then _restartClient shuts the old client
    down a second time (the client promise still holds it), starts a
    client with the generator and the directories the callback selected,
    and stores the global settings. The promise the call returns is
    fulfilled and is the pending client change from then on; the recorded
    input file set is empty. *)
Theorem X11_kit_change_steps (env : environment) (s : state)
    (need_clean : bool) (cb : callback) (old : option client)
    (environment : list (string * string)) (g : CMakeGenerator)
    (c : client) (gs : GlobalSettingsContent) :
  _cmsClient (this s) = Fulfilled old ->
  teardownSucceeds env (now s) old need_clean ->
  (cb (super (this s))).1 = Returned tt ->
  let b := (cb (super (this s))).2 in
  let n := length (teardownEvents old need_clean) + now s in
  (forall c0, old = Some c0 -> reply env n _ (ShutdownAsync c0) = Returned tt) ->
  startSucceeds env (length (shutdownOf old) + n) b environment g c ->
  reply env (2 + (length (shutdownOf old) + n)) _ (GetGlobalSettings c)
    = Returned gs ->
  let r := doSetConfigurePreset need_clean cb env s in
  r.1 = Returned (Fulfilled tt) /\
  trace r.2 =
    trace s ++ teardownEvents old need_clean ++ [CallbackRun]
            ++ shutdownOf old ++ startEvents env b environment g
            ++ [Sent (GetGlobalSettings c)] /\
  this r.2 =
    set_clientChangeInProgress (Fulfilled tt)
      (set_globalSettings gs
         (set_cmsClient (Fulfilled (Some c))
            (set_super b
               (set_cmakeInputFileSet Dirty.createEmpty (this s))))).
Proof.
  intros Hold Hdown Hcb b n Hdown2 Hstart Hgs r. subst r.
  rewrite doSetConfigurePreset_run. unfold async.
  rewrite (setKitAndRestart_cases env s need_clean cb old Hold Hdown).
  cbn zeta. rewrite Hcb.
  destruct Hstart as (Hg & Hstart). fold b. rewrite Hg.
  rewrite (restartClient_ok env (afterCallback s old need_clean cb) old
             environment g c gs); try done.
  cbn [fst snd after this now trace afterCallback].
  rewrite <- !app_assoc. repeat split.
Qed.

(** X12. A kit or configure-preset change never throws at its caller: it
    returns a promise, which becomes the pending client change. While
    that promise is rejected, every doConfigure call fails with the
    reason of the rejection before it looks for a client or sends
    anything, whatever its arguments. *)
Theorem X12_failed_change_blocks_configure (env : environment) (s : state)
    (need_clean : bool) (cb : callback) :
  let r := doSetConfigurePreset need_clean cb env s in
  exists p,
    r.1 = Returned p /\
    _clientChangeInProgress (this r.2) = p /\
    forall e, p = Rejected e ->
      forall env' args showCommandOnly,
        doConfigure args showCommandOnly env' r.2 = (Thrown e, r.2).
Proof.
  intros r. subst r. rewrite doSetConfigurePreset_run. unfold async.
  destruct (_setKitAndRestart need_clean cb env s) as [[[]|e] s1];
    cbn [fst snd]; eexists; (split; [reflexivity|]); (split; [reflexivity|]).
  - intros e [=].
  - intros e' [= <-] env' args sco. unfold doConfigure. reflexivity.
Qed.

(** X13. onStop and shutdownClient. Without a client both do nothing.
    With a client both send the shutdown request; if it fails both throw
    and the driver still holds the client. If it succeeds, onStop forgets
    the client, so that a second onStop does nothing and the next
    getClient starts a new client; shutdownClient keeps the client
    promise as it is, so that the next getClient returns the client that
    was shut down and starts nothing. *)
Theorem X13_onStop_forgets_the_client (env : environment) (s : state) :
  (_cmsClient (this s) = Fulfilled None ->
   onStop env s = (Returned tt, s) /\ shutdownClient env s = (Returned tt, s))
  /\
  (forall c,
     _cmsClient (this s) = Fulfilled (Some c) ->
     let sent := after s id 1 [Sent (ShutdownAsync c)] in
     let stopped :=
       after s (set_cmsClient (Fulfilled None)) 1 [Sent (ShutdownAsync c)] in
     (forall e,
        reply env (now s) _ (ShutdownAsync c) = Thrown e ->
        onStop env s = (Thrown e, sent) /\
        shutdownClient env s = (Thrown e, sent)) /\
     (reply env (now s) _ (ShutdownAsync c) = Returned tt ->
      onStop env s = (Returned tt, stopped) /\
      shutdownClient env s = (Returned tt, sent) /\
      (forall env',
         onStop env' stopped = (Returned tt, stopped) /\
         getClient env' sent = (Returned c, sent) /\
         getClient env' stopped =
           match _startNewClient env' stopped with
           | (Returned c', s') =>
               (Returned c',
                after s' (set_cmsClient (Fulfilled (Some c'))) 0 [])
           | (Thrown e, s') =>
               (Thrown e, after s' (set_cmsClient (Rejected e)) 0 [])
           end))).
Proof.
  split.
  - intros Hnone. unfold onStop, shutdownClient. run. by rewrite Hnone.
  - intros c Hc sent stopped. subst sent stopped. split.
    + intros e He. unfold onStop, shutdownClient. run. rewrite Hc.
      cbn [this now trace]. rewrite He. unfold after. by split.
    + intros Hok. unfold onStop at 1, shutdownClient. run. rewrite Hc.
      cbn [this now trace]. rewrite Hok. unfold after. cbn [this now trace].
      split; [done|]. split; [done|]. intros env'. split; [|split].
      * unfold onStop. run. reflexivity.
      * rewrite getClient_run. cbn [this id]. by rewrite Hc.
      * by rewrite getClient_run.
Qed.

Lemma doPreCleanConfigure_run (env : environment) (s : state) :
  doPreCleanConfigure env s =
  match _cmsClient (this s) with
  | Rejected e => (Thrown e, s)
  | Fulfilled old =>
      let down := shutdownOf old in
      let failed e (sent : nat) evs :=
        (Returned tt, after s (set_cmsClient (Rejected e)) sent evs) in
      match
        match old with
        | Some c => reply env (now s) _ (ShutdownAsync c)
        | None => Returned tt
        end
      with
      | Thrown e => failed e (length down) down
      | Returned _ =>
          match reply env (length down + now s) _ CleanPriorConfiguration with
          | Thrown e =>
              failed e (S (length down)) (down ++ [Sent CleanPriorConfiguration])
          | Returned _ =>
              match _startNewClient env
                      (after s id (S (length down))
                         (down ++ [Sent CleanPriorConfiguration])) with
              | (Returned c, s') =>
                  (Returned tt,
                   after s' (set_cmsClient (Fulfilled (Some c))) 0 [])
              | (Thrown e, s') =>
                  (Returned tt, after s' (set_cmsClient (Rejected e)) 0 [])
              end
          end
      end
  end.
Proof.
  unfold doPreCleanConfigure. run.
  destruct (_cmsClient (this s)) as [[c|]|e]; [| |reflexivity];
    cbn [this now trace shutdownOf length Nat.add app].
  - destruct (reply env (now s) _ (ShutdownAsync c)) as [[]|e];
      cbn [this now trace]; [|reflexivity].
    destruct (reply env (S (now s)) _ CleanPriorConfiguration) as [[]|e];
      cbn [this now trace]; [|unfold after; cbn; by rewrite <- app_assoc].
    unfold after at 3. cbn [this now trace id Nat.add].
    rewrite <- app_assoc. cbn [app].
    destruct (_startNewClient env _) as [[c'|e] s'];
      unfold after; cbn [this now trace]; by rewrite app_nil_r.
  - destruct (reply env (now s) _ CleanPriorConfiguration) as [[]|e];
      cbn [this now trace]; [|reflexivity].
    unfold after at 3. cbn [this now trace id Nat.add].
    destruct (_startNewClient env _) as [[c'|e] s'];
      unfold after; cbn [this now trace]; by rewrite app_nil_r.
Qed.

(** X14. doPreCleanConfigure on a driver whose client promise is
    fulfilled never throws: a failure of the shutdown, of the cleaning or
    of the start only rejects the new client promise, and shows at the
    next getClient. The steps are in this order: the old client is shut
    down, then the prior configuration is cleaned, then a client is
    started; a step is taken only if the one before it succeeded, so a
    configuration is never cleaned under a client that could not be shut
    down. *)
Theorem X14_clean_configure_defers_failure (env : environment) (s : state)
    (old : option client) :
  _cmsClient (this s) = Fulfilled old ->
  let r := doPreCleanConfigure env s in
  let down := shutdownOf old in
  r.1 = Returned tt /\
  (exists evs, trace r.2 = trace s ++ down ++ evs) /\
  (forall env',
     match _cmsClient (this r.2) with
     | Fulfilled (Some c) => getClient env' r.2 = (Returned c, r.2)
     | Fulfilled None => False
     | Rejected e => getClient env' r.2 = (Thrown e, r.2)
     end) /\
  (forall c e,
     old = Some c -> reply env (now s) _ (ShutdownAsync c) = Thrown e ->
     r.2 = after s (set_cmsClient (Rejected e)) 1 down) /\
  ((forall c, old = Some c ->
      reply env (now s) _ (ShutdownAsync c) = Returned tt) ->
   (forall e,
      reply env (length down + now s) _ CleanPriorConfiguration = Thrown e ->
      r.2 = after s (set_cmsClient (Rejected e)) (S (length down))
              (down ++ [Sent CleanPriorConfiguration])) /\
   (forall environment g c,
      reply env (length down + now s) _ CleanPriorConfiguration = Returned tt ->
      startSucceeds env (S (length down + now s)) (super (this s))
        environment g c ->
      r.2 = after s (set_cmsClient (Fulfilled (Some c))) (3 + length down)
              (down ++ Sent CleanPriorConfiguration
                    :: startEvents env (super (this s)) environment g))).
Proof.
  intros Hold r down. subst r down.
  rewrite doPreCleanConfigure_run, Hold. cbn zeta.
  split; [|split; [|split; [|split]]].
  - repeat (match goal with
            | |- context [match ?x with _ => _ end] => destruct x
            end; try reflexivity).
  - destruct old as [c|]; cbn [shutdownOf length Nat.add app].
    + destruct (reply env (now s) _ (ShutdownAsync c)) as [[]|e];
        [|by exists []].
      destruct (reply env (S (now s)) _ CleanPriorConfiguration) as [[]|e];
        [|by exists [Sent CleanPriorConfiguration]].
      rewrite startNewClient_run. cbn [after this now trace id].
      destruct (generator (super (this s)));
        [destruct (reply env _ _ GetConfigureEnvironment);
           [destruct (reply env _ _ (Start _))|]|];
        cbn [snd after trace]; rewrite ?app_nil_r, <- ?app_assoc;
        by eexists.
    + destruct (reply env (now s) _ CleanPriorConfiguration) as [[]|e];
        [|by eexists].
      rewrite startNewClient_run. cbn [after this now trace id].
      destruct (generator (super (this s)));
        [destruct (reply env _ _ GetConfigureEnvironment);
           [destruct (reply env _ _ (Start _))|]|];
        cbn [snd after trace]; rewrite ?app_nil_r, <- ?app_assoc;
        by eexists.
  - intros env'.
    repeat (match goal with
            | |- context [match ?x with (_, _) => _ end] => destruct x
            | |- context [match ?x with Returned _ => _ | Thrown _ => _ end] =>
                destruct x
            | |- context [match old with _ => _ end] => destruct old
            end; cbn [snd after this _cmsClient set_cmsClient]);
      rewrite getClient_run; reflexivity.
  - intros c e -> He. rewrite He. reflexivity.
  - intros Hdown. assert (match old with
                          | Some c => reply env (now s) _ (ShutdownAsync c)
                          | None => Returned tt
                          end = Returned tt) as ->.
    { destruct old as [c|]; [by apply Hdown|done]. }
    split.
    + intros e ->. reflexivity.
    + intros environment g c -> Hstart.
      rewrite (startNewClient_ok env _ environment g c).
      * cbn [snd]. rewrite after_after. unfold after.
        cbn [this now trace id]. rewrite app_nil_r, <- !app_assoc.
        cbn [app].
        replace (0 + 2 + (S (length (shutdownOf old)) + now s))
          with (3 + length (shutdownOf old) + now s) by lia.
        reflexivity.
      * unfold after. cbn [this now trace id]. exact Hstart.
Qed.

End DriverRunsFacts.

(** ** What the driver sends, and in which order *)

Section DriverTracesFacts.
Import Driver DriverRuns DriverTraces.

Ltac run := cbv beta iota zeta delta
  [bind get ret throw await emit modify call try_catch try_finally async
   started].

Lemma emits_nothing {A} P (m : M A) :
  (forall env s, trace (m env s).2 = trace s) -> emits P m.
Proof.
  intros H env s. exists []. rewrite H, app_nil_r. by split.
Qed.

Lemma emits_one {A} (P : event -> Prop) (m : M A) (e : environment -> state -> event) :
  (forall env s, trace (m env s).2 = trace s ++ [e env s]) ->
  (forall env s, P (e env s)) -> emits P m.
Proof.
  intros H He env s. exists [e env s]. split; [apply H|].
  constructor; [apply He|constructor].
Qed.

Lemma emits_ret {A} P (a : A) : emits P (ret a).
Proof. by apply emits_nothing. Qed.

Lemma emits_throw {A} P e : emits P (@throw A e).
Proof. by apply emits_nothing. Qed.

Lemma emits_get {A} P (f : driver -> A) : emits P (get f).
Proof. by apply emits_nothing. Qed.

Lemma emits_modify P f : emits P (modify f).
Proof. by apply emits_nothing. Qed.

Lemma emits_await {A} P (p : promise A) : emits P (await p).
Proof. apply emits_nothing. by destruct p. Qed.

Lemma emits_emit (P : event -> Prop) e : P e -> emits P (emit e).
Proof. intros He. by apply (emits_one P _ (fun _ _ => e)). Qed.

Lemma emits_emit_env (P : event -> Prop) (e : environment -> event) :
  (forall env, P (e env)) -> emits P (fun env => emit (e env) env).
Proof. intros He. by apply (emits_one P _ (fun env _ => e env)). Qed.

Lemma emits_call {T} (P : event -> Prop) (r : request T) :
  P (Sent r) -> emits P (call r).
Proof. intros He. by apply (emits_one P _ (fun _ _ => Sent r)). Qed.

Lemma emits_call_env {T} (P : event -> Prop) (r : environment -> request T) :
  (forall env, P (Sent (r env))) -> emits P (fun env => call (r env) env).
Proof. intros He. by apply (emits_one P _ (fun env _ => Sent (r env))). Qed.

Lemma emits_invoke (P : event -> Prop) cb : P CallbackRun -> emits P (invoke cb).
Proof. intros He. by apply (emits_one P _ (fun _ _ => CallbackRun)). Qed.

Lemma emits_InputFileSet_create (P : event -> Prop) paths :
  P (Stat paths) -> emits P (InputFileSet_create paths).
Proof. intros He. by apply (emits_one P _ (fun _ _ => Stat paths)). Qed.

Lemma emits_InputFileSet_checkOutOfDate (P : event -> Prop) set :
  (forall paths, P (Stat paths)) -> emits P (InputFileSet_checkOutOfDate set).
Proof.
  intros He.
  by apply (emits_one P _
    (fun _ _ => Stat (map Dirty.filePath (Dirty.inputFiles set)))).
Qed.

Lemma emits_rollbar (P : event -> Prop) (l : list string) :
  (forall m, P (RollbarError m)) ->
  emits P (fun (_ : environment) s =>
    (Returned tt,
     {| this := this s; now := now s;
        trace := trace s ++ map RollbarError l |})).
Proof.
  intros He env s. eexists. split; [reflexivity|].
  apply Forall_forall. intros e (m & -> & _)%list_elem_of_fmap. apply He.
Qed.

Lemma emits_bind {A B} P (m : M A) (k : A -> M B) :
  emits P m -> (forall a, emits P (k a)) -> emits P (bind m k).
Proof.
  intros Hm Hk env s. unfold bind. destruct (Hm env s) as (evs & Hevs & HP).
  destruct (m env s) as [[a|e] s']; simpl in *; [|by eexists].
  destruct (Hk a env s') as (evs' & Hevs' & HP'). exists (evs ++ evs').
  split; [by rewrite Hevs', Hevs, app_assoc|by apply Forall_app].
Qed.

Lemma emits_async {A} P (m : M A) : emits P m -> emits P (async m).
Proof.
  intros Hm env s. unfold async. destruct (Hm env s) as (evs & Hevs & HP).
  destruct (m env s) as [[a|e] s']; by eexists.
Qed.

Lemma emits_try_catch {A} P (m : M A) (h : error -> M A) :
  emits P m -> (forall e, emits P (h e)) -> emits P (try_catch m h).
Proof.
  intros Hm Hh env s. unfold try_catch.
  destruct (Hm env s) as (evs & Hevs & HP).
  destruct (m env s) as [[a|e] s']; simpl in *; [by eexists|].
  destruct (Hh e env s') as (evs' & Hevs' & HP'). exists (evs ++ evs').
  split; [by rewrite Hevs', Hevs, app_assoc|by apply Forall_app].
Qed.

Lemma emits_try_finally {A} P (m : M A) (f : M unit) :
  emits P m -> emits P f -> emits P (try_finally m f).
Proof.
  intros Hm Hf env s. unfold try_finally.
  destruct (Hm env s) as (evs & Hevs & HP).
  destruct (m env s) as [[a|e] s']; simpl in *;
    destruct (Hf env s') as (evs' & Hevs' & HP');
    destruct (f env s') as [[u|e'] s'']; simpl in *;
    exists (evs ++ evs');
    (split; [by rewrite Hevs', Hevs, app_assoc|by apply Forall_app]).
Qed.

Ltac emitting :=
  repeat first
    [ apply emits_bind; [|intros ?]
    | apply emits_async
    | apply emits_try_catch; [|intros ?]
    | apply emits_try_finally
    | apply emits_ret | apply emits_throw | apply emits_get
    | apply emits_modify | apply emits_await
    | apply emits_emit; reflexivity
    | apply emits_emit_env; intros ?; reflexivity
    | apply emits_call; reflexivity
    | apply emits_call_env; intros ?; reflexivity
    | apply emits_invoke; reflexivity
    | apply emits_InputFileSet_create; reflexivity
    | apply emits_InputFileSet_checkOutOfDate; intros ?; reflexivity
    | apply emits_rollbar; intros ?; reflexivity
    | assumption
    | match goal with
      | |- emits _ (match ?x with _ => _ end) => destruct x
      | |- emits _ (if ?x then _ else _) => destruct x
      end ].

Lemma quiet_getClient : emits (fun e => isTeardown e = false) getClient.
Proof. unfold getClient, _startNewClient. emitting. Qed.

Lemma quiet_refreshPostConfigure :
  emits (fun e => isTeardown e = false) _refreshPostConfigure.
Proof.
  unfold _refreshPostConfigure. pose proof quiet_getClient. emitting.
Qed.

Lemma unsubscribed_refreshPostConfigure :
  emits (fun e => isSubscription e = false) _refreshPostConfigure.
Proof.
  unfold _refreshPostConfigure, getClient, _startNewClient. emitting.
Qed.

(** X15. What the operations of the driver never send. Getting the
    client, the refresh after a configure, doPostBuild and doConfigure
    never shut a client down and never clean a configuration. onStop and
    shutdownClient never start a client. checkNeedsReconfigure sends no
    request at all; it only looks at files. A build-preset or test-preset
    change only runs its callback: it sends no request. *)
Theorem X15_what_operations_never_send (args : list string)
    (showCommandOnly : bool) (cb : callback) :
  let quiet := fun e => isTeardown e = false in
  let startless := fun e => startsClient e = false in
  (emits quiet getClient /\ emits quiet _refreshPostConfigure /\
   emits quiet doPostBuild /\
   emits quiet (doConfigure args showCommandOnly)) /\
  (emits startless onStop /\ emits startless shutdownClient) /\
  emits (fun e => isSent e = false) checkNeedsReconfigure /\
  (emits (fun e => e = CallbackRun) (doSetBuildPreset cb) /\
   emits (fun e => e = CallbackRun) (doSetTestPreset cb)).
Proof.
  intros quiet startless. subst quiet startless.
  pose proof quiet_getClient as Hg.
  pose proof quiet_refreshPostConfigure as Hr.
  repeat split; try assumption.
  - unfold doPostBuild. emitting.
  - unfold doConfigure. emitting.
  - unfold onStop. emitting.
  - unfold shutdownClient. emitting.
  - unfold checkNeedsReconfigure. emitting.
  - intros env s. exists [CallbackRun]. split; [reflexivity|by constructor].
  - intros env s. exists [CallbackRun]. split; [reflexivity|by constructor].
Qed.

Lemma refreshPostConfigure_run (env : environment) (s : state) (c : client) :
  _cmsClient (this s) = Fulfilled (Some c) ->
  _refreshPostConfigure env s =
  match reply env (now s) _ (CmakeInputs c) with
  | Thrown e => (Thrown e, after s id 1 [Sent (CmakeInputs c)])
  | Returned inputs =>
      let files := Dirty.create (mtimes env (S (now s))) inputs in
      let asked :=
        [Sent (CmakeInputs c); Stat inputs; Sent (GetCMakeCacheContent c)] in
      match reply env (2 + now s) _ (GetCMakeCacheContent c) with
      | Thrown e => (Thrown e, after s (set_cmakeInputFileSet files) 3 asked)
      | Returned raw =>
          let logged := asked ++ map RollbarError (Cache.rebuild raw).2 in
          match reply env (3 + now s) _ (Codemodel c) with
          | Thrown e =>
              (Thrown e,
               after s
                 (fun d => set_cacheEntries (Cache.rebuild raw).1
                             (set_cmakeInputFileSet files d))
                 4 (logged ++ [Sent (Codemodel c)]))
          | Returned served =>
              let cm := CodeModel.convertServerCodeModel served in
              (Returned tt,
               after s
                 (fun d => set_codeModel cm
                             (set_cacheEntries (Cache.rebuild raw).1
                                (set_cmakeInputFileSet files d)))
                 4 (logged ++ [Sent (Codemodel c); CodeModelChanged cm]))
          end
      end
  end.
Proof.
  intros Hc. unfold _refreshPostConfigure.
  cbv beta iota zeta delta [bind]. rewrite getClient_run, Hc.
  unfold InputFileSet_create, after. run.
  cbn [this now trace Nat.add codeModel set_codeModel].
  destruct (reply env (now s) _ (CmakeInputs c)) as [inputs|e];
    [|reflexivity].
  destruct (reply env (S (S (now s))) _ (GetCMakeCacheContent c)) as [raw|e];
    [|rewrite <- !app_assoc; reflexivity].
  destruct (reply env (S (S (S (now s)))) _ (Codemodel c)) as [served|e];
    rewrite <- !app_assoc; reflexivity.
Qed.

(** The refresh begins with the request for the input files. *)
Lemma refreshPostConfigure_begins (env : environment) (s : state)
    (c : client) :
  _cmsClient (this s) = Fulfilled (Some c) ->
  exists rest,
    trace (_refreshPostConfigure env s).2
    = trace s ++ Sent (CmakeInputs c) :: rest.
Proof.
  intros Hc. rewrite (refreshPostConfigure_run env s c Hc).
  destruct (reply env (now s) _ (CmakeInputs c)) as [inputs|e];
    [|by eexists].
  cbn zeta.
  destruct (reply env (2 + now s) _ (GetCMakeCacheContent c)) as [raw|e];
    [|by eexists].
  destruct (reply env (3 + now s) _ (Codemodel c)) as [served|e];
    cbn [fst snd after trace]; rewrite <- ?app_assoc; by eexists.
Qed.

Lemma afterTry_trace s1 sent evs :
  trace (afterTry s1 sent evs) = trace s1 ++ Subscribed :: evs ++ [Disposed].
Proof. reflexivity. Qed.

(** X16. The subscription to the server's messages. A doConfigure call
    that got its client and sends the requests subscribes once and
    disposes of the subscription once, whatever the replies are and
    whether the call returns 0, returns 1 or throws: first the
    subscription, then the configure request, later the disposal, and
    the refresh only after it. Between the configure request and the
    disposal there is nothing but the compute request or the logged
    error; when both requests succeed the compute request is all there
    is, and the first request of the refresh follows the disposal; when
    one of them fails nothing follows the disposal. With showCommandOnly
    the call sends no
    request: it shows the log channel, logs the command line and returns
    0 with the driver as getClient left it (the configuration-changed
    flag is not lowered), and the subscription it has made is never
    disposed of. *)
Theorem X16_configure_subscription (env : environment) (s : state)
    (args : list string) (cl : client) (s1 : state) :
  acquireClient env s = (Returned cl, s1) ->
  (exists mid rest,
     trace (doConfigure args false env s).2
       = trace s1 ++ Subscribed :: (Sent (Configure cl args) :: mid)
                  ++ Disposed :: rest /\
     Forall (fun e => isSubscription e = false)
            (Sent (Configure cl args) :: mid ++ rest) /\
     Forall (fun e => e = Sent (Compute cl) \/ exists m, e = LogError m)
            mid /\
     (requestsSucceed env (now s1) cl args ->
      mid = [Sent (Compute cl)] /\
      exists rest', rest = Sent (CmakeInputs cl) :: rest') /\
     (forall e, requestsFail env (now s1) cl args e -> rest = [])) /\
  doConfigure args true env s =
    (Returned 0,
     after s1 id 0
       [Subscribed; ShowChannel;
        LogInfo (buildCmdStr env (cmakePath (super (this s1))) args)]).
Proof.
  intros Hacq. split.
  - rewrite (doConfigure_cases env s args cl s1 Hacq).
    assert (forall evs : list event,
              forallb (fun e => negb (isSubscription e)) evs = true ->
              Forall (fun e => isSubscription e = false) evs) as Hall.
    { intros evs H. apply Forall_forall. intros e He.
      rewrite forallb_forall in H. apply negb_true_iff, H.
      by apply list_elem_of_In. }
    unfold requestsSucceed, requestsFail.
    destruct (reply env (now s1) unit (Configure cl args)) as [[]|e].
    + destruct (reply env (S (now s1)) unit (Compute cl)) as [[]|e].
      * destruct (unsubscribed_refreshPostConfigure env
          (afterTry s1 2 [Sent (Configure cl args); Sent (Compute cl)]))
          as (evs & Hevs & HP).
        exists [Sent (Compute cl)], evs. split; [|split; [|split; [|split]]].
        -- unfold bind, ret.
           destruct (_refreshPostConfigure env _) as [[[]|e] s3];
             cbn [snd] in *; rewrite Hevs, afterTry_trace, <- !app_assoc;
             reflexivity.
        -- constructor; [done|]. constructor; [done|exact HP].
        -- constructor; [by left|constructor].
        -- intros _. split; [done|].
           destruct (refreshPostConfigure_begins env
             (afterTry s1 2 [Sent (Configure cl args); Sent (Compute cl)]) cl
             (acquireClient_holds env s s1 cl Hacq)) as (rest' & Hrest).
           rewrite Hrest in Hevs. apply app_inv_head in Hevs.
           by exists rest'.
        -- intros e [[=]|[_ [=]]].
      * assert (Hmid : Forall (fun x => x = Sent (Compute cl) \/
                                        exists m, x = LogError m)
                         [Sent (Compute cl); LogError (cmake_configure_error e)])
          by (constructor; [by left|constructor; [right; by eexists|constructor]]).
        destruct (instanceofServerError e).
        -- exists [Sent (Compute cl); LogError (cmake_configure_error e)], [].
           split; [reflexivity|]. split; [rewrite app_nil_r; by apply Hall|].
           split; [exact Hmid|]. split; [by intros [_ [=]]|done].
        -- exists [Sent (Compute cl)], [].
           split; [reflexivity|]. split; [rewrite app_nil_r; by apply Hall|].
           split; [constructor; [by left|constructor]|].
           split; [by intros [_ [=]]|done].
    + destruct (instanceofServerError e).
      * exists [LogError (cmake_configure_error e)], [].
        split; [reflexivity|]. split; [rewrite app_nil_r; by apply Hall|].
        split; [constructor; [right; by eexists|constructor]|].
        split; [by intros [[=] _]|done].
      * exists [], [].
        split; [reflexivity|]. split; [rewrite app_nil_r; by apply Hall|].
        split; [constructor|]. split; [by intros [[=] _]|done].
  - unfold acquireClient in Hacq. unfold doConfigure.
    cbv beta iota zeta delta [bind get] in Hacq |- *.
    destruct (_clientChangeInProgress (this s)) as [[]|e0];
      cbv beta iota delta [await ret throw] in Hacq |- *; [|discriminate].
    rewrite Hacq. run. unfold after. cbn [this now trace id].
    rewrite <- !app_assoc. reflexivity.
Qed.



(** X17. The refresh after a configure, on a driver that holds a client,
    replaces the recorded state one field at a time. When all three
    requests are answered, the input file set is the snapshot of the
    files the server listed (so cmakeFiles is that list), the cache is
    the one rebuilt from the server's entries, the code model is the
    translation of the server's, and the change of code model is
    announced once, last, with the new model. When the request for the
    cache fails, the input file set has already been replaced, while the
    cache and the code model are the old ones; when the request for the
    code model fails, the input file set and the cache are new and the
    code model is old. In both cases the error is thrown and no change of
    code model is announced. When the first request fails, nothing is
    replaced. *)
Theorem X17_refresh_replaces_field_by_field (env : environment) (s : state)
    (c : client) :
  _cmsClient (this s) = Fulfilled (Some c) ->
  let r := _refreshPostConfigure env s in
  let d := this r.2 in
  let announced e := match e with CodeModelChanged _ => true | _ => false end in
  (forall e,
     reply env (now s) _ (CmakeInputs c) = Thrown e ->
     r.1 = Thrown e /\ d = this s /\
     trace r.2 = trace s ++ [Sent (CmakeInputs c)]) /\
  (forall inputs,
     reply env (now s) _ (CmakeInputs c) = Returned inputs ->
     let files := Dirty.create (mtimes env (S (now s))) inputs in
     (forall e,
        reply env (2 + now s) _ (GetCMakeCacheContent c) = Thrown e ->
        r.1 = Thrown e /\ d = set_cmakeInputFileSet files (this s) /\
        existsb announced (trace r.2) = existsb announced (trace s)) /\
     (forall raw,
        reply env (2 + now s) _ (GetCMakeCacheContent c) = Returned raw ->
        let cache := (Cache.rebuild raw).1 in
        (forall e,
           reply env (3 + now s) _ (Codemodel c) = Thrown e ->
           r.1 = Thrown e /\
           d = set_cacheEntries cache (set_cmakeInputFileSet files (this s)) /\
           existsb announced (trace r.2) = existsb announced (trace s)) /\
        (forall served,
           reply env (3 + now s) _ (Codemodel c) = Returned served ->
           let cm := CodeModel.convertServerCodeModel served in
           r.1 = Returned tt /\
           d = set_codeModel cm
                 (set_cacheEntries cache
                    (set_cmakeInputFileSet files (this s))) /\
           cmakeFiles d = inputs /\
           cmakeCacheEntries d = cache /\
           exists evs,
             trace r.2 = trace s ++ evs ++ [CodeModelChanged cm] /\
             existsb announced evs = false))).
Proof.
  intros Hc r d announced. subst r d.
  rewrite (refreshPostConfigure_run env s c Hc).
  split.
  - intros e ->. repeat split.
  - intros inputs -> files. cbn zeta. split.
    + intros e ->. cbn [fst snd after this trace]. repeat split.
      rewrite existsb_app. cbn. by rewrite orb_false_r.
    + intros raw ->. split.
      * intros e ->. cbn [fst snd after this trace]. repeat split.
        rewrite !existsb_app. cbn.
        assert (existsb announced (map RollbarError (Cache.rebuild raw).2)
                = false) as ->.
        { induction (Cache.rebuild raw).2; [reflexivity|]. simpl. assumption. }
        by rewrite !orb_false_r.
      * intros served ->. cbn [fst snd after this trace]. repeat split.
        -- unfold cmakeFiles, files. cbn. rewrite map_map. cbn.
           apply map_id.
        -- exists ([Sent (CmakeInputs c); Stat inputs;
                    Sent (GetCMakeCacheContent c)]
                   ++ map RollbarError (Cache.rebuild raw).2
                   ++ [Sent (Codemodel c)]).
           split.
           ++ rewrite <- !app_assoc. reflexivity.
           ++ rewrite !existsb_app. cbn.
              assert (existsb announced (map RollbarError (Cache.rebuild raw).2)
                      = false) as ->.
              { induction (Cache.rebuild raw).2; [reflexivity|]. simpl.
                assumption. }
              reflexivity.
Qed.

End DriverTracesFacts.

(** ** A configure and a kit change, from the first request to the last *)

Section DriverClaims.
Import Driver DriverRuns.

Ltac run := cbv beta iota zeta delta
  [bind get ret throw await emit modify call try_catch try_finally async
   started].

(** The promise that a kit or preset change returns, and the state it
    leaves, when [_setKitAndRestart] ends with [o] in the state [s']. *)
Lemma doSetConfigurePreset_ends env s need_clean cb o s' :
  _setKitAndRestart need_clean cb env s = (o, s') ->
  doSetConfigurePreset need_clean cb env s =
    (Returned (match o with
               | Returned _ => Fulfilled tt
               | Thrown e => Rejected e
               end),
     {| this := set_clientChangeInProgress
                  (match o with
                   | Returned _ => Fulfilled tt
                   | Thrown e => Rejected e
                   end) (this s');
        now := now s'; trace := trace s' |}).
Proof.
  intros H. rewrite doSetConfigurePreset_run. unfold async. rewrite H.
  destruct o as [[]|e]; reflexivity.
Qed.

(** C8. doSetKit(cb) is doSetConfigurePreset(false, cb). Every such call
    resets the recorded input file set to the empty set, and returns a
    promise that is the pending client change from then on. The callback
    is not run in every call: when the client promise is rejected, when
    the shutdown of the old client fails or when the cleaning that was
    asked for fails, the operation fails with that error right there, the
    callback is not run and nothing is restarted. Otherwise the callback
    is run. If it fails, the operation fails with its error. If it
    completes and no generator is resolvable afterwards, the operation
    fails with NoGeneratorError and ends right after the callback: no
    client has been started. Otherwise the client is restarted: the old
    client is shut down (once more), and if that fails the operation
    fails and no client is started; else the configure environment is
    asked for and a client is started with the generator and the
    directories the callback has left; the client promise holds the new
    client, the global settings are asked of it, and the operation
    succeeds if that request does. *)
Theorem C8_setKit_requires_generator (env : environment) (s : state)
    (need_clean : bool) (cb : callback) :
  let r := doSetConfigurePreset need_clean cb env s in
  let failed e evs :=
    r.1 = Returned (Rejected e) /\ trace r.2 = trace s ++ evs /\
    super (this r.2) = super (this s) /\
    _cmsClient (this r.2) = _cmsClient (this s) in
  doSetKit cb = doSetConfigurePreset false cb /\
  _cmakeInputFileSet (this r.2) = Dirty.createEmpty /\
  (exists p, r.1 = Returned p /\ _clientChangeInProgress (this r.2) = p) /\
  (forall e, _cmsClient (this s) = Rejected e -> failed e []) /\
  (forall c e,
     _cmsClient (this s) = Fulfilled (Some c) ->
     reply env (now s) unit (ShutdownAsync c) = Thrown e ->
     failed e [Sent (ShutdownAsync c)]) /\
  (forall old e,
     _cmsClient (this s) = Fulfilled old -> need_clean = true ->
     (forall c, old = Some c ->
        reply env (now s) unit (ShutdownAsync c) = Returned tt) ->
     reply env (length (shutdownOf old) + now s) unit CleanPriorConfiguration
       = Thrown e ->
     failed e (shutdownOf old ++ [Sent CleanPriorConfiguration])) /\
  forall old,
    _cmsClient (this s) = Fulfilled old ->
    teardownSucceeds env (now s) old need_clean ->
    let s2 := afterCallback s old need_clean cb in
    let b := (cb (super (this s))).2 in
    let ended p :=
      r = (Returned p,
           {| this := set_clientChangeInProgress p (this s2);
              now := now s2; trace := trace s2 |}) in
    (exists evs,
       trace r.2
         = trace s ++ teardownEvents old need_clean ++ CallbackRun :: evs) /\
    (forall e, (cb (super (this s))).1 = Thrown e -> ended (Rejected e)) /\
    ((cb (super (this s))).1 = Returned tt -> generator b = None ->
     ended (Rejected NoGeneratorError) /\
     existsb startsClient (teardownEvents old need_clean ++ [CallbackRun])
       = false) /\
    (forall g,
       (cb (super (this s))).1 = Returned tt -> generator b = Some g ->
       let n := length (shutdownOf old) + now s2 in
       r = (do! p <- async _restartClient;
            do! _ <- modify (set_clientChangeInProgress p);
            get _clientChangeInProgress) env s2 /\
       (exists evs, trace r.2 = trace s2 ++ shutdownOf old ++ evs) /\
       (forall c0 e,
          old = Some c0 ->
          reply env (now s2) unit (ShutdownAsync c0) = Thrown e ->
          r.1 = Returned (Rejected e) /\
          trace r.2 = trace s2 ++ [Sent (ShutdownAsync c0)] /\
          _cmsClient (this r.2) = Rejected e) /\
       ((forall c0, old = Some c0 ->
           reply env (now s2) unit (ShutdownAsync c0) = Returned tt) ->
        forall environment c,
          reply env n _ GetConfigureEnvironment = Returned environment ->
          reply env (S n) _ (Start (clientInit env b environment g))
            = Returned c ->
          _cmsClient (this r.2) = Fulfilled (Some c) /\
          trace r.2
            = trace s2 ++ shutdownOf old ++ startEvents env b environment g
                       ++ [Sent (GetGlobalSettings c)] /\
          r.1 = Returned
                  match reply env (2 + n) _ (GetGlobalSettings c) with
                  | Returned _ => Fulfilled tt
                  | Thrown e => Rejected e
                  end)).
Proof.
  intros r failed. subst r failed. cbv beta.
  split; [reflexivity|]. split; [|split; [|split; [|split; [|split]]]].
  - rewrite doSetConfigurePreset_run. unfold async.
    pose proof (setKitAndRestart_resets env s need_clean cb) as Hreset.
    destruct (_setKitAndRestart need_clean cb env s) as [[[]|e] s1];
      exact Hreset.
  - destruct (_setKitAndRestart need_clean cb env s) as [o s'] eqn:E.
    rewrite (doSetConfigurePreset_ends _ _ _ _ _ _ E). eexists.
    split; reflexivity.
  - intros e Hrej.
    unfold doSetConfigurePreset, _setKitAndRestart. run.
    cbn [this _cmsClient set_cmakeInputFileSet]. rewrite Hrej. cbn.
    rewrite app_nil_r, Hrej. done.
  - intros c e Hc He.
    unfold doSetConfigurePreset, _setKitAndRestart. run.
    cbn [this now trace _cmsClient set_cmakeInputFileSet].
    rewrite Hc. cbv beta iota. cbn [this now trace]. rewrite He. cbn.
    by rewrite Hc.
  - intros old e Hold -> Hdown He.
    unfold doSetConfigurePreset, _setKitAndRestart. run.
    cbn [this now trace _cmsClient set_cmakeInputFileSet]. rewrite Hold.
    destruct old as [c|]; cbv beta iota; cbn [this now trace].
    + rewrite (Hdown c eq_refl). cbv beta iota.
      cbn [this now trace shutdownOf length Nat.add] in *.
      rewrite He. cbn. rewrite Hold, <- app_assoc. done.
    + cbn [this now trace shutdownOf length Nat.add] in *.
      rewrite He. cbn. by rewrite Hold.
  - intros old Hold Hdown s2 b ended. subst ended. cbv beta.
    destruct (_setKitAndRestart need_clean cb env s) as [o s'] eqn:E.
    rewrite (doSetConfigurePreset_ends _ _ _ _ _ _ E). cbn [fst snd trace this].
    rewrite (setKitAndRestart_cases env s need_clean cb old Hold Hdown) in E.
    cbn zeta in E. fold s2 b in E.
    assert (Htr : trace s2
                  = trace s ++ teardownEvents old need_clean ++ [CallbackRun])
      by reflexivity.
    assert (Hs2 : _cmsClient (this s2) = Fulfilled old) by exact Hold.
    split; [|split; [|split]].
    + destruct (cb (super (this s))).1 as [[]|e].
      2:{ injection E as <- <-. exists []. exact Htr. }
      destruct (generator b).
      2:{ injection E as <- <-. exists []. exact Htr. }
      destruct (grows_restartClient env s2) as [evs Hevs].
      rewrite E in Hevs. cbn [snd] in Hevs. exists evs.
      rewrite Hevs, Htr, <- !app_assoc. reflexivity.
    + intros e He. rewrite He in E. by injection E as <- <-.
    + intros Hcb Hgen. rewrite Hcb, Hgen in E. injection E as <- <-.
      split; [reflexivity|].
      unfold teardownEvents. destruct old, need_clean; reflexivity.
    + intros g Hcb Hgen. set (n := length (shutdownOf old) + now s2).
      rewrite Hcb, Hgen in E.
      assert (Hgrow : exists evs, trace s' = trace s2 ++ evs).
      { destruct (grows_restartClient env s2) as [evs Hevs].
        rewrite E in Hevs. by exists evs. }
      pose proof E as Erun.
      rewrite restartClient_run, doRestartClient_run, Hs2 in E.
      assert (Hgen2 : generator (super (this s2)) = Some g) by exact Hgen.
      split; [|split; [|split]].
      * unfold bind, async, modify, get. rewrite Erun.
        destruct o as [[]|e]; reflexivity.
      * destruct old as [c0|]; cbn [shutdownOf app].
        -- destruct (reply env (now s2) unit (ShutdownAsync c0)) as [[]|e].
           ++ rewrite startNewClient_run in E.
              cbn [after this id now trace] in E. rewrite Hgen2 in E.
              destruct (reply env (1 + now s2) _ GetConfigureEnvironment)
                as [environment|e].
              ** destruct (reply env (S (1 + now s2)) _ (Start _)) as [c|e];
                   injection E as <- <-; cbn [after trace];
                   rewrite <- ?app_assoc; by eexists.
              ** injection E as <- <-. cbn [after trace].
                 rewrite <- ?app_assoc. by eexists.
           ++ injection E as <- <-. cbn [after trace].
              rewrite <- ?app_assoc. by eexists.
        -- exact Hgrow.
      * intros c0 e -> He. rewrite He in E. injection E as <- <-.
        cbn [after trace this now _cmsClient set_cmsClient].
        rewrite app_nil_r. done.
      * intros Hdown2 environment c Henv Hstart.
        assert (Hok : startSucceeds env n (super (this s2)) environment g c)
          by done.
        subst n. destruct old as [c0|].
        -- rewrite (Hdown2 c0 eq_refl) in E.
           rewrite (startNewClient_ok env _ environment g c) in E
             by exact Hok.
           cbn [now after shutdownOf length Nat.add] in *.
           destruct (reply env (S (S (S (now s2)))) _ (GetGlobalSettings c));
             injection E as <- <-;
             cbn [after this now trace id _cmsClient set_cmsClient
                  set_globalSettings];
             rewrite <- ?app_assoc; done.
        -- rewrite (startNewClient_ok env _ environment g c) in E
             by exact Hok.
           cbn [now after shutdownOf length Nat.add] in *.
           destruct (reply env (S (S (now s2))) _ (GetGlobalSettings c));
             injection E as <- <-;
             cbn [after this now trace id _cmsClient set_cmsClient
                  set_globalSettings app];
             rewrite <- ?app_assoc; done.
Qed.


End DriverClaims.


(** C8 as claimed fails: the callback is not run in every call. A kit
    change on a driver whose client refuses to shut down fails with the
    error of the shutdown: the shutdown request is all that has happened,
    the callback has not been run and nothing has been restarted. *)
Lemma C8_counterexample :
  let r := Driver.doSetKit DriverExamples.selectNinja
             LifecycleExamples.stubborn DriverExamples.ready in
  r.1 = Driver.Returned (Driver.Rejected (Driver.Error "shutdown failed")) /\
  Driver.trace (r.2) = [Driver.Sent (Driver.ShutdownAsync 7)] /\
  ~ Driver.CallbackRun ∈ Driver.trace (r.2).
Proof.
  vm_compute. split; [reflexivity|]. split; [reflexivity|].
  intros H. apply list_elem_of_singleton in H. discriminate.
Qed.

Lemma C8_setKit_requires_generator_witness :
  let r := Driver.doSetKit DriverExamples.selectNinja
             (DriverExamples.world (Driver.Returned tt))
             DriverExamples.ready in
  r.1 = Driver.Returned (Driver.Fulfilled tt) /\
  Driver._cmsClient (Driver.this r.2) = Driver.Fulfilled (Some 103).
Proof.
  pose proof (C8_setKit_requires_generator
                (DriverExamples.world (Driver.Returned tt))
                DriverExamples.ready false DriverExamples.selectNinja) as H.
  cbv zeta beta in H. destruct H as (Hkit & _ & _ & _ & _ & _ & H).
  destruct (H (Some 7) eq_refl (conj eq_refl (fun h => eq_refl)))
    as (_ & _ & _ & Hgen).
  destruct (Hgen DriverExamples.ninja eq_refl eq_refl)
    as (_ & _ & _ & Hstart).
  destruct (Hstart (fun c0 _ => eq_refl) [] 103 eq_refl eq_refl)
    as (Hcl & _ & Hr).
  intros r. subst r. rewrite Hkit. split; [exact Hr|exact Hcl].
Defined.

(** ** The refresh of the expansions *)

Section ExpansionsFacts.
Import Driver DriverRuns Expansions.

Variable stringify : list (string * string) -> string.

Lemma length_zero (x : string) :
  Nat.eqb (String.length x) 0 = bool_decide (x = "").
Proof. destruct x; reflexivity. Qed.

Lemma differs_false (a b : string) :
  negb (String.eqb a b) = false <-> b = a.
Proof.
  rewrite negb_false_iff, String.eqb_eq. split; congruence.
Qed.

(** X18. doRefreshExpansions(cb) runs the callback first. If the binary
    directory or the source directory was empty before the callback, the
    call ends there: nothing is asked of the environment, no client is
    restarted and the recorded environment stays. Otherwise the configure
    environment is requested, and the client is restarted exactly when
    the callback has changed one of the two directories or the
    environment differs from the recorded one; the environment is then
    recorded, unless the restart threw. So a refresh that finds the
    directories and the environment as they were recorded restarts
    nothing. The restart, step by step: with a rejected client promise it
    throws at once; it shuts the old client down, if there is one, and
    throws if the shutdown fails; with no generator left by the callback
    it throws NoGeneratorError after the shutdown; and when the
    environment and the start are answered it starts a client with the
    directories the callback left, fetches the global settings of the
    new client and records both, and the call yields the new
    environment. *)
Theorem X18_refresh_expansions_restart (env : environment) (s : state)
    (prev : string) (cb : callback) :
  let b0 := super (this s) in
  let b1 := (cb b0).2 in
  let s1 := {| this := set_super b1 (this s); now := now s;
               trace := trace s ++ [CallbackRun] |} in
  let r := doRefreshExpansions stringify prev cb env s in
  (forall e, (cb b0).1 = Thrown e -> r = (Thrown e, s1)) /\
  ((cb b0).1 = Returned tt ->
   (binaryDir b0 = "" \/ sourceDir b0 = "" -> r = (Returned prev, s1)) /\
   (binaryDir b0 <> "" -> sourceDir b0 <> "" ->
    let s2 := after s1 id 1 [Sent GetConfigureEnvironment] in
    (forall e,
       reply env (now s) _ GetConfigureEnvironment = Thrown e ->
       r = (Thrown e, s2)) /\
    (forall environment,
       reply env (now s) _ GetConfigureEnvironment = Returned environment ->
       (binaryDir b1 = binaryDir b0 -> sourceDir b1 = sourceDir b0 ->
        stringify environment = prev ->
        r = (Returned prev, s2)) /\
       (binaryDir b1 <> binaryDir b0 \/ sourceDir b1 <> sourceDir b0 \/
        stringify environment <> prev ->
        r = match _restartClient env s2 with
            | (Returned _, s3) => (Returned (stringify environment), s3)
            | (Thrown e, s3) => (Thrown e, s3)
            end /\
        (forall e, _cmsClient (this s) = Rejected e ->
           r = (Thrown e, after s2 (set_cmsClient (Rejected e)) 0 [])) /\
        (forall c0 e,
           _cmsClient (this s) = Fulfilled (Some c0) ->
           reply env (now s2) _ (ShutdownAsync c0) = Thrown e ->
           r = (Thrown e,
                after s2 (set_cmsClient (Rejected e)) 1
                  [Sent (ShutdownAsync c0)])) /\
        (forall old,
           _cmsClient (this s) = Fulfilled old ->
           (forall c0, old = Some c0 ->
              reply env (now s2) _ (ShutdownAsync c0) = Returned tt) ->
           let n := length (shutdownOf old) + now s2 in
           (generator b1 = None ->
            r = (Thrown NoGeneratorError,
                 after s2 (set_cmsClient (Rejected NoGeneratorError))
                   (length (shutdownOf old)) (shutdownOf old))) /\
           (forall asked g c gs,
              startSucceeds env n b1 asked g c ->
              reply env (2 + n) _ (GetGlobalSettings c) = Returned gs ->
              r = (Returned (stringify environment),
                   after s2
                     (fun d => set_globalSettings gs
                                 (set_cmsClient (Fulfilled (Some c)) d))
                     (3 + length (shutdownOf old))
                     (shutdownOf old ++ startEvents env b1 asked g
                        ++ [Sent (GetGlobalSettings c)])))))))).
Proof.
  intros b0 b1 s1 r. subst r. unfold doRefreshExpansions.
  cbv beta iota zeta delta [bind get]. unfold invoke.
  cbn [this now trace super set_super]. fold b0. rewrite !length_zero.
  split.
  - intros e ->. reflexivity.
  - intros ->. split.
    + intros [Hb|Hs].
      * by rewrite (bool_decide_eq_true_2 _ Hb).
      * rewrite (bool_decide_eq_true_2 _ Hs), orb_true_r. reflexivity.
    + intros Hb Hs.
      rewrite (bool_decide_eq_false_2 _ Hb), (bool_decide_eq_false_2 _ Hs).
      cbn [orb]. unfold call. cbn [this now trace super set_super].
      split.
      * intros e ->. reflexivity.
      * intros environment ->. fold b1. split.
        -- intros Hb1 Hs1 Henv. rewrite Hb1, Hs1, Henv, !String.eqb_refl.
           reflexivity.
        -- intros Hchanged.
           assert (negb (String.eqb (binaryDir b0) (binaryDir b1))
                   || negb (String.eqb (sourceDir b0) (sourceDir b1))
                   || negb (String.eqb (stringify environment) prev) = true)
             as ->.
           { rewrite !orb_true_iff, !negb_true_iff, !String.eqb_neq.
             destruct Hchanged as [H|[H|H]]; auto. }
           unfold s1, after. cbn [this now trace id Nat.add].
           set (s2 := {| this := set_super b1 (this s); now := S (now s);
                         trace := (trace s ++ [CallbackRun])
                                  ++ [Sent GetConfigureEnvironment] |}).
           assert (Hcms : _cmsClient (this s2) = _cmsClient (this s))
             by reflexivity.
           assert (Hsuper : super (this s2) = b1) by reflexivity.
           split; [|split; [|split]].
           ++ destruct (_restartClient env s2) as [[[]|e] s3]; reflexivity.
           ++ intros e He.
              rewrite restartClient_run, doRestartClient_run, Hcms, He.
              reflexivity.
           ++ intros c0 e He Hdown.
              rewrite restartClient_run, doRestartClient_run, Hcms, He.
              change (now s2) with (S (now s)). rewrite Hdown.
              unfold after. cbn [this now trace id Nat.add].
              rewrite app_nil_r. reflexivity.
           ++ intros old Hold Hdown. split.
              ** intros Hgen.
                 rewrite restartClient_run, doRestartClient_run, Hcms, Hold.
                 destruct old as [c0|].
                 --- change (now s2) with (S (now s)).
                     rewrite (Hdown c0 eq_refl), startNewClient_run.
                     cbn [after this super id]. rewrite Hsuper, Hgen.
                     unfold after. cbn [this now trace id Nat.add shutdownOf length].
                     rewrite app_nil_r. reflexivity.
                 --- rewrite startNewClient_run, Hsuper, Hgen.
                     unfold after. cbn [this now trace id Nat.add shutdownOf length].
                     reflexivity.
              ** intros asked g c gs Hstart Hgs.
                 rewrite (restartClient_ok env s2 old asked g c gs);
                   [reflexivity|by rewrite Hcms|exact Hdown|exact Hstart
                   |exact Hgs].
Qed.

End ExpansionsFacts.

(** ** More on the settings reader *)

Section GettersFacts.
Import Config Getters.

Lemma truthy_default (cpus : nat) : truthy (defaultNumJobs cpus) = true.
Proof.
  unfold defaultNumJobs, truthy. apply negb_true_iff, Z.eqb_neq. lia.
Qed.

(** X19. The numbers of jobs. numJobs is never the number 0: a
    parallelJobs setting of 0 stands for the number of processors plus
    two, an undefined one stays undefined, and any other value is
    returned as it is. numCTestJobs, when it returns, returns a value
    that counts as true, so never 0, undefined or null: it is the ctest
    setting when that is set to something other than 0, else numJobs when
    that is set to something other than 0, else the number of processors
    plus two. The read of the ctest setting throws exactly when the
    ctest object itself is undefined or null. *)
Theorem X19_job_numbers_never_zero (cpus : nat) (r : ConfigurationReader) :
  numJobs cpus r <> VNumber 0 /\
  (numJobs cpus r = VUndefined <-> parallelJobs r = VUndefined) /\
  (parallelJobs r = VNumber 0 ->
   numJobs cpus r = VNumber (Z.of_nat cpus + 2)) /\
  (forall v, numCTestJobs cpus r = Some v -> truthy v = true) /\
  (forall jobs,
     ctest_parallelJobs r = Some jobs ->
     numCTestJobs cpus r =
       Some (if truthy jobs then jobs
             else if truthy (parallelJobs r) then parallelJobs r
             else VNumber (Z.of_nat cpus + 2))) /\
  (numCTestJobs cpus r = None <->
   read (configData r) "ctest" = VUndefined \/
   read (configData r) "ctest" = VNull).
Proof.
  split; [|split; [|split; [|split; [|split]]]].
  - unfold numJobs.
    destruct (parallelJobs r) as [| | |n| | | |] eqn:Hp; simpl; try discriminate.
    destruct (Z.eqb_spec n 0) as [->|Hn]; [|congruence].
    unfold defaultNumJobs. intros [= H]. lia.
  - unfold numJobs.
    destruct (parallelJobs r) as [| | |n| | | |] eqn:Hp; simpl;
      try (split; done).
    destruct (Z.eqb n 0); split; discriminate.
  - unfold numJobs. intros ->. reflexivity.
  - intros v. unfold numCTestJobs.
    destruct (ctest_parallelJobs r) as [jobs|]; [|discriminate].
    destruct (truthy jobs) eqn:Hj; simpl; intros [= <-]; [exact Hj|].
    destruct (truthy (numJobs cpus r)) eqn:Hn; [exact Hn|apply truthy_default].
  - intros jobs Hjobs. unfold numCTestJobs. rewrite Hjobs.
    destruct (truthy jobs); simpl; [reflexivity|]. f_equal.
    unfold numJobs.
    destruct (parallelJobs r) as [| | |n| | | |] eqn:Hp; simpl; try reflexivity.
    destruct (Z.eqb_spec n 0) as [->|Hn]; simpl.
    + unfold defaultNumJobs. by destruct (negb _).
    + destruct (Z.eqb_spec n 0); done.
  - unfold numCTestJobs, ctest_parallelJobs.
    destruct (read (configData r) "ctest"); simpl;
      try destruct (negb _);
      (split; [auto; discriminate|intros [?|?]; auto; discriminate]).
Qed.

End GettersFacts.

Section UpdateFacts.
Import Config ConfigEvents.

Variable compare : value -> value -> Ordering.

Lemma assign_twice (m : gmap string value) (o : object) :
  NoDup (getOwnPropertyNames o) -> assign (assign m o) o = assign m o.
Proof.
  intros Hnd. apply map_eq. intros k.
  destruct (decide (k ∈ getOwnPropertyNames o)) as [Hin|Hout].
  - apply own_names in Hin.
    by rewrite !(assign_lookup_in o _ k (own o k) Hnd Hin).
  - by rewrite (assign_lookup_notin o (assign m o) k Hout).
Qed.

Lemma loop_equivalent subscribed (cd : gmap string value) newData fireEvent
    names keys calls :
  (forall k, k ∈ names -> compare (read cd k) (read cd k) = Equivalent) ->
  loop compare subscribed cd cd newData fireEvent names keys calls
  = (Returns keys, calls).
Proof.
  revert keys calls. induction names as [|k names IH]; intros keys calls Hrefl;
    [reflexivity|].
  simpl. rewrite (Hrefl k) by left. simpl.
  assert (forall k0, k0 ∈ names ->
            compare (read cd k0) (read cd k0) = Equivalent) as Hrest.
  { intros k0 Hk0. apply Hrefl. by right. }
  destruct (Js.has _emitters k); simpl; by apply IH.
Qed.

(** X20. An update is idempotent. When a value is equivalent to itself
    under the comparison in use, applying the same plain object a second
    time stores nothing new, reports no key and invokes no listener,
    whether or not the first application fired events or ended with a
    TypeError. *)
Theorem X20_update_twice_reports_nothing (r : ConfigurationReader)
    (newData : object) (fireEvent fireAgain : bool) :
  (forall v, compare v v = Equivalent) ->
  plainObject newData ->
  let first := updatePartial compare r newData fireEvent in
  let second := updatePartial compare (reader first) newData fireAgain in
  completed second = Returns [] /\
  invoked second = [] /\
  reader second = reader first.
Proof.
  intros Hrefl [Hnd _] first second. subst first second.
  unfold updatePartial. cbn [reader configData listeners completed invoked].
  rewrite (assign_twice _ _ Hnd).
  rewrite loop_equivalent by (intros; apply Hrefl). repeat split.
Qed.

Lemma loop_silent subscribed cd old newData names keys calls :
  loop compare subscribed cd old newData false names keys calls
  = (Returns (keys ++ List.filter (reportable compare cd old) names), calls).
Proof.
  revert keys calls. induction names as [|k names IH]; intros keys calls.
  - simpl. by rewrite app_nil_r.
  - simpl. unfold reportable at 1.
    destruct (Js.has _emitters k); simpl; [|apply IH].
    destruct (isEquivalent _); simpl; [apply IH|].
    rewrite IH, <- app_assoc. reflexivity.
Qed.

(** X21. updatePartial(newData, false) is silent and total: for every
    plain object newData (with no own property __proto__) it invokes no
    listener and does not end with a TypeError. It stores every property
    of newData, as the call with events does, and it returns the keys of
    newData that have an emitter (or bear the name of a member of
    Object.prototype) and whose stored value is no longer equivalent to
    the old one; when the call with events returns, it returns the same
    keys. *)
Theorem X21_silent_update_is_total (r : ConfigurationReader)
    (newData : object) :
  plainObject newData ->
  let silent := updatePartial compare r newData false in
  let loud := updatePartial compare r newData true in
  invoked silent = [] /\
  completed silent =
    Returns (List.filter
               (reportable compare (assign (configData r) newData)
                  (configData r))
               (getOwnPropertyNames newData)) /\
  reader silent = reader loud /\
  (forall k v, (k, v) ∈ newData ->
     configData (reader silent) !! k = Some v) /\
  (forall k, k ∉ getOwnPropertyNames newData ->
     configData (reader silent) !! k = configData r !! k) /\
  (forall keys, completed loud = Returns keys -> completed silent = Returns keys).
Proof.
  intros [Hnd _] silent loud. subst silent loud. unfold updatePartial.
  cbn [reader configData listeners completed invoked].
  rewrite loop_silent. cbn [fst snd app].
  do 3 (split; [reflexivity|]).
  split; [intros k v Hin; by apply assign_lookup_in|].
  split; [intros k Hk; by apply assign_lookup_notin|].
  intros keys Hk.
  destruct (loop compare (listeners r) (assign (configData r) newData)
              (configData r) newData true (getOwnPropertyNames newData) [] [])
    as [c cs] eqn:Hrun.
  simpl in Hk. subst c. apply loop_keys in Hrun. simpl in Hrun. by subst keys.
Qed.

Lemma fires_eq cd old newData k :
  fires compare cd old newData k
  = Js.has _emitters k
    && negb (isEquivalent (compare (read cd k) (read old k)))
    && negb (isUndefined (own newData k)).
Proof. reflexivity. Qed.

Lemma reportable_eq cd old k :
  reportable compare cd old k
  = Js.has _emitters k
    && negb (isEquivalent (compare (read cd k) (read old k))).
Proof. reflexivity. Qed.

Lemma loop_fires subscribed cd old newData names keys calls :
  (forall k, k ∈ names -> fires compare cd old newData k = true -> k ∈ settings) ->
  loop compare subscribed cd old newData true names keys calls
  = (Returns (keys ++ List.filter (reportable compare cd old) names),
     calls ++ flat_map (fun k => fire subscribed k (own newData k))
                (List.filter (fires compare cd old newData) names)).
Proof.
  revert keys calls. induction names as [|k names IH]; intros keys calls Hset.
  - simpl. by rewrite !app_nil_r.
  - assert (forall k0, k0 ∈ names -> fires compare cd old newData k0 = true ->
              k0 ∈ settings) as Hrest.
    { intros k0 Hk0. apply Hset. by right. }
    specialize (Hset k (list_elem_of_here _ _)).
    cbn [loop List.filter]. rewrite fires_eq in Hset |- *.
    rewrite reportable_eq.
    destruct (Js.has _emitters k) eqn:Hhas; cbn [negb andb]; [|by apply IH].
    destruct (isEquivalent _) eqn:Heq; cbn [negb andb]; [by apply IH|].
    destruct (isUndefined (own newData k)) eqn:Hund; cbn [negb andb].
    + rewrite IH by done. by rewrite <- app_assoc.
    + rewrite get_emitters, bool_decide_eq_true_2 by (by apply Hset).
      rewrite IH by done. cbn [flat_map]. by rewrite <- !app_assoc.
Qed.

Lemma loop_throws subscribed cd old newData pre k post keys calls :
  (forall k0, k0 ∈ pre -> fires compare cd old newData k0 = true -> k0 ∈ settings) ->
  fires compare cd old newData k = true -> k ∉ settings ->
  loop compare subscribed cd old newData true (pre ++ k :: post) keys calls
  = (TypeError k,
     calls ++ flat_map (fun k => fire subscribed k (own newData k))
                (List.filter (fires compare cd old newData) pre)).
Proof.
  revert keys calls. induction pre as [|k0 pre IH]; intros keys calls Hset Hk Hnot.
  - cbn [app loop List.filter flat_map]. rewrite app_nil_r.
    rewrite fires_eq in Hk.
    apply andb_true_iff in Hk as [[Hhas Heq]%andb_true_iff Hund].
    apply negb_true_iff in Heq.
    rewrite Hhas, Heq. cbn [negb andb]. rewrite Hund, get_emitters.
    rewrite bool_decide_eq_false_2 by done.
    rewrite has_emitters, bool_decide_eq_false_2 in Hhas by done.
    cbn [orb] in Hhas. by rewrite Hhas.
  - assert (forall k1, k1 ∈ pre -> fires compare cd old newData k1 = true ->
              k1 ∈ settings) as Hrest.
    { intros k1 Hk1. apply Hset. by right. }
    specialize (Hset k0 (list_elem_of_here _ _)).
    cbn [app loop List.filter]. rewrite fires_eq in Hset |- *.
    destruct (Js.has _emitters k0) eqn:Hhas; cbn [negb andb]; [|by apply IH].
    destruct (isEquivalent _) eqn:Heq; cbn [negb andb]; [by apply IH|].
    destruct (isUndefined (own newData k0)) eqn:Hund; cbn [negb andb].
    + by rewrite IH.
    + rewrite get_emitters, bool_decide_eq_true_2 by (by apply Hset).
      rewrite IH by done. cbn [flat_map]. by rewrite <- !app_assoc.
Qed.

(** X22. For every plain object newData (with no own property __proto__),
    update(newData) stores every property of newData and leaves the other
    keys as they were. The listeners are invoked in the order of the keys
    of newData, and for one key in the order of their registration. A key
    fires when
    it has an emitter (or bears the name of a member of Object.prototype),
    its stored value is no longer equivalent to the old one, and its
    value in newData is not undefined. If every key that fires is a
    setting, update returns, and the invocations are those of the keys
    that fire, key after key. Otherwise update ends with a TypeError at
    the first key that fires without being a setting; the listeners of
    the keys before it have been invoked, the keys after it are not
    looked at, and the new data stay stored. *)
Theorem X22_update_fires_in_order (r : ConfigurationReader)
    (newData : object) :
  plainObject newData ->
  let u := update compare r newData in
  let stored := assign (configData r) newData in
  let firing := fires compare stored (configData r) newData in
  let calls names :=
    flat_map (fun k => fire (listeners r) k (own newData k))
             (List.filter firing names) in
  configData (reader u) = stored /\
  (forall k v, (k, v) ∈ newData -> stored !! k = Some v) /\
  (forall k, k ∉ getOwnPropertyNames newData ->
     stored !! k = configData r !! k) /\
  ((forall k, k ∈ getOwnPropertyNames newData -> firing k = true ->
      k ∈ settings) ->
   completed u =
     Returns (List.filter (reportable compare stored (configData r))
                (getOwnPropertyNames newData)) /\
   invoked u = calls (getOwnPropertyNames newData)) /\
  (forall pre k post,
     getOwnPropertyNames newData = pre ++ k :: post ->
     (forall k0, k0 ∈ pre -> firing k0 = true -> k0 ∈ settings) ->
     firing k = true -> k ∉ settings ->
     completed u = TypeError k /\ invoked u = calls pre /\
     Js.inherited k = true).
Proof.
  intros [Hnd _] u stored firing calls. subst u stored firing calls.
  unfold update, updatePartial.
  cbn [reader configData listeners completed invoked].
  split; [reflexivity|].
  split; [intros k v Hin; by apply assign_lookup_in|].
  split; [intros k Hk; by apply assign_lookup_notin|].
  split.
  - intros Hset. by rewrite loop_fires.
  - intros pre k post -> Hpre Hk Hnot.
    rewrite (loop_throws _ _ _ _ pre k post) by done.
    repeat split.
    unfold fires, reportable in Hk.
    apply andb_true_iff in Hk as [[Hhas _]%andb_true_iff _].
    rewrite has_emitters, bool_decide_eq_false_2 in Hhas by done.
    exact Hhas.
Qed.

End UpdateFacts.

(** ** A configure, and the check that follows *)

Section ConfigureThenCheck.
Import Driver DriverRuns.

Lemma checkOutOfDate_create (fs fs0 : Dirty.filesystem) (paths : list string) :
  Dirty.checkOutOfDate fs (Dirty.create fs0 paths)
  = existsb (fun p => negb (bool_decide (fs p = fs0 p))) paths.
Proof.
  unfold Dirty.checkOutOfDate, Dirty.create. simpl.
  induction paths as [|p paths IH]; [reflexivity|]. simpl. by rewrite IH.
Qed.

(** X23. A configure that succeeds, and the check that follows. When a
    doConfigure call got its client and the five requests it sends are
    answered, it returns 0, the configuration-changed flag is down, and
    cmakeFiles is the list of input files the server reported. From then
    on checkNeedsReconfigure is true exactly when the server reported no
    input file at all, or one of the reported files has, at the time of
    the check, a modification time other than the one it had when the
    configure scanned it (it appeared, disappeared or was touched). *)
Theorem X23_configure_then_check (env : environment) (s : state)
    (args : list string) (cl : client) (s1 : state)
    (inputs : list string) (raw : list Cache.RawEntry)
    (served : option CodeModel.ServerCodeModelContent) :
  acquireClient env s = (Returned cl, s1) ->
  requestsSucceed env (now s1) cl args ->
  reply env (2 + now s1) _ (CmakeInputs cl) = Returned inputs ->
  reply env (4 + now s1) _ (GetCMakeCacheContent cl) = Returned raw ->
  reply env (5 + now s1) _ (Codemodel cl) = Returned served ->
  let r := doConfigure args false env s in
  let scanned := mtimes env (3 + now s1) in
  r.1 = Returned 0 /\
  _hadConfigurationChanged (this r.2) = false /\
  cmakeFiles (this r.2) = inputs /\
  codeModel (this r.2) = CodeModel.convertServerCodeModel served /\
  forall env',
    (checkNeedsReconfigure env' r.2).1 =
      Returned
        (Nat.eqb (length inputs) 0
         || existsb
              (fun p => negb (bool_decide
                                (mtimes env' (now r.2) p = scanned p)))
              inputs).
Proof.
  intros Hacq [Hc Hp] Hin Hcache Hmodel r scanned. subst r scanned.
  rewrite (doConfigure_cases env s args cl s1 Hacq), Hc, Hp.
  pose proof (acquireClient_holds env s s1 cl Hacq) as Hcl.
  unfold bind.
  rewrite (refreshPostConfigure_run env _ cl)
    by (cbn [afterTry this _cmsClient set_hadConfigurationChanged];
        exact Hcl).
  cbn [afterTry now Nat.add] in *. rewrite Hin. cbn zeta.
  rewrite Hcache, Hmodel. cbn [fst snd ret]. unfold after.
  cbn [this now trace]. split; [reflexivity|]. split; [reflexivity|].
  split.
  { unfold cmakeFiles. cbn. rewrite map_map. cbn. apply map_id. }
  split; [reflexivity|].
  intros env'.
  unfold checkNeedsReconfigure, InputFileSet_checkOutOfDate, bind, get, ret,
    afterTry.
  cbn [this now trace _hadConfigurationChanged _cmakeInputFileSet
       set_codeModel set_cacheEntries set_cmakeInputFileSet
       set_hadConfigurationChanged].
  replace (length (Dirty.inputFiles
             (Dirty.create (mtimes env (S (S (S (now s1))))) inputs)))
    with (length inputs) by (cbn; by rewrite length_map).
  destruct (Nat.eqb (length inputs) 0); [reflexivity|].
  cbn [fst orb]. by rewrite checkOutOfDate_create.
Qed.

End ConfigureThenCheck.

(** ** One client at a time

    The async machine again. A driver that is not stopped and not asked
    for a clean configure keeps the invariant [calm]; the lemmas below
    show that every step keeps it, one kind of step at a time. *)

Section ListFacts.
Context {A B : Type}.

Lemma elem_of_delete_sub (l : list A) (i : nat) (y : A) :
  y ∈ delete i l -> y ∈ l.
Proof.
  revert i. induction l as [|x l IH]; intros [|i]; simpl; try done.
  - intros H. by right.
  - intros [->|H]%elem_of_cons; [left|right; eauto].
Qed.

Lemma elem_of_delete_other (l : list A) (i : nat) (x y : A) :
  l !! i = Some x -> y ∈ l -> y <> x -> y ∈ delete i l.
Proof.
  revert i. induction l as [|z l IH]; intros [|i]; simpl; try done.
  - intros [= ->] [->|H]%elem_of_cons Hne; done.
  - intros Hi [->|H]%elem_of_cons Hne; [left|right; eauto].
Qed.

Lemma elem_of_split_delete (l : list A) (i : nat) (x y : A) :
  l !! i = Some x -> y ∈ l -> y = x \/ y ∈ delete i l.
Proof.
  revert i. induction l as [|z l IH]; intros [|i]; simpl; try done.
  - intros [= ->] [->|H]%elem_of_cons; auto.
  - intros Hi [->|H]%elem_of_cons.
    + right. left.
    + destruct (IH i Hi H); auto. right. by right.
Qed.

Lemma NoDup_fmap_delete (f : A -> B) (l : list A) (i : nat) :
  NoDup (f <$> l) -> NoDup (f <$> delete i l).
Proof.
  revert i. induction l as [|z l IH]; intros [|i]; simpl; try done.
  - by intros [_ H]%NoDup_cons.
  - intros [Hz H]%NoDup_cons. apply NoDup_cons. split; [|by apply IH].
    intros (y & Hy & Hin)%list_elem_of_fmap. apply Hz.
    apply list_elem_of_fmap. exists y. split; [done|].
    by eapply elem_of_delete_sub.
Qed.

Lemma NoDup_fmap_deleted (f : A -> B) (l : list A) (i : nat) (x y : A) :
  NoDup (f <$> l) -> l !! i = Some x -> y ∈ delete i l -> f y <> f x.
Proof.
  revert i. induction l as [|z l IH]; intros [|i]; simpl; try done.
  - intros [Hz H]%NoDup_cons [= ->] Hin Heq. apply Hz.
    apply list_elem_of_fmap. by exists y.
  - intros [Hz H]%NoDup_cons Hi [->|Hin]%elem_of_cons; [|by eapply IH].
    intros Heq. apply Hz. apply list_elem_of_fmap. exists x.
    split; [done|]. by eapply list_elem_of_lookup_2.
Qed.

Lemma NoDup_fmap_inj (f : A -> B) (l : list A) (x y : A) :
  NoDup (f <$> l) -> x ∈ l -> y ∈ l -> f x = f y -> x = y.
Proof.
  induction l as [|z l IH]; simpl; [by intros _ H%elem_of_nil|].
  intros [Hz H]%NoDup_cons [->|Hx]%elem_of_cons [->|Hy]%elem_of_cons Heq;
    try done.
  - exfalso. apply Hz. rewrite Heq. apply list_elem_of_fmap. by exists y.
  - exfalso. apply Hz. rewrite <- Heq. apply list_elem_of_fmap. by exists x.
  - by apply IH.
Qed.

Lemma NoDup_fmap_snoc (f : A -> B) (l : list A) (x : A) :
  NoDup (f <$> l) -> (forall y, y ∈ l -> f y <> f x) ->
  NoDup (f <$> (l ++ [x])).
Proof.
  intros Hnd Hx. rewrite fmap_app. apply NoDup_app. split; [done|].
  split; [|apply NoDup_singleton].
  intros b (y & -> & Hy)%list_elem_of_fmap Hb.
  apply list_elem_of_singleton in Hb. by apply (Hx y).
Qed.

Lemma elem_of_snoc (l : list A) (x y : A) :
  y ∈ l ++ [x] <-> y ∈ l \/ y = x.
Proof. by rewrite elem_of_app, list_elem_of_singleton. Qed.

Lemma NoDup_fmap_app (f : A -> B) (l1 l2 : list A) :
  NoDup (f <$> l1) -> NoDup (f <$> l2) ->
  (forall x y, x ∈ l1 -> y ∈ l2 -> f x <> f y) ->
  NoDup (f <$> (l1 ++ l2)).
Proof.
  intros H1 H2 Hd. rewrite fmap_app. apply NoDup_app. split; [done|].
  split; [|done].
  intros b (x & -> & Hx)%list_elem_of_fmap (y & Heq & Hy)%list_elem_of_fmap.
  by apply (Hd x y).
Qed.

End ListFacts.

Section OneClientFacts.
Import Async Calm.

Ltac in_calm H :=
  destruct H as [Hbcms Hbchg Hbcl Hbres Hbtask Hbops Hpend Hopsnd Hownsnd
                 Hownops Hnull Hstop Hcms Hold Hinj Hnotcms Hone Hfront Hstart Hop
                 Hret Hlold Hlshut Hlret Hlcms Hlone].

Ltac by_stander Hx H :=
  apply elem_of_snoc in H as [H|H];
    [|exfalso;
      first [rewrite <- H in Hx | rewrite H in Hx | subst];
      destruct Hx as (? & ? & ?); simpl in *; congruence].

Lemma bystander_not_active m t : bystander t -> ~ active m t.
Proof.
  intros (Hr & _ & _) Ha. destruct t as [p [] o|p [] o]; simpl in *; done.
Qed.

(** *** Steps that concern no restart *)

Lemma calm_fresh m : calm m -> calm (fresh m).2 /\ free (fresh m).2 (next m).
Proof.
  intros H. in_calm H. unfold fresh, free. cbn. split; [constructor; cbn|].
  all: try assumption.
  - lia.
  - lia.
  - intros p Hp. specialize (Hbcl p Hp). lia.
  - intros p Hp. specialize (Hbres p Hp). lia.
  - intros t Ht. destruct (Hbtask t Ht). lia.
  - intros q op Hq. specialize (Hbops q op Hq). lia.
  - split; [lia|]. split.
    + intros t Ht. destruct (Hbtask t Ht). lia.
    + intros q op Hq. specialize (Hbops q op Hq). lia.
Qed.

Lemma calm_add m x :
  calm m -> free m (own x) -> awaits x < next m -> bystander x ->
  calm (set_suspended (suspended m ++ [x]) m).
Proof.
  intros H (Hlt & Hfree & Hfreeop) Haw Hx. in_calm H. constructor; cbn.
  all: try assumption.
  - intros t [Ht| ->]%elem_of_snoc; [by apply Hbtask|done].
  - apply NoDup_fmap_snoc; [done|]. intros y Hy. by apply Hfree.
  - intros t q op [Ht| ->]%elem_of_snoc Hq; [by eapply Hownops|].
    intros Heq. by apply (Hfreeop q op Hq).
  - intros t [Ht| ->]%elem_of_snoc; [by apply Hstop|by destruct Hx as (_ & _ & ?)].
  - destruct Hcms as [?|(t & Ht & ?)]; [by left|right].
    exists t. split; [apply elem_of_snoc; by left|done].
  - intros a o Ht. by_stander Hx Ht.
    destruct (Hold a o Ht) as [?|(t & Ht' & ?)]; [by left|right].
    exists t. split; [apply elem_of_snoc; by left|done].
  - intros a o1 o2 H1 H2. by_stander Hx H1. by_stander Hx H2. eauto.
  - intros a o Ht. by_stander Hx Ht. eauto.
  - intros t1 t2 H1 H2 A1 A2.
    apply elem_of_snoc in H1 as [H1| ->];
      [|by apply (bystander_not_active m) in A1].
    apply elem_of_snoc in H2 as [H2| ->];
      [|by apply (bystander_not_active m) in A2].
    by apply Hone.
  - intros Hs t [Ht| ->]%elem_of_snoc; [by apply Hfront|].
    by apply bystander_not_active.
  - intros t [Ht| ->]%elem_of_snoc Hst;
      [|destruct Hx as (_ & ? & _); congruence].
    destruct (Hstart t Ht Hst) as [Hn (o & Ho)]. split; [done|].
    exists o. apply elem_of_snoc. by left.
  - intros q Hq. destruct (Hop q Hq) as (n & Hn). exists n.
    apply elem_of_snoc. by left.
  - intros n o Ht. by_stander Hx Ht.
    destruct (Hret n o Ht) as [?|(t & Ht' & ?)]; [by left|right].
    exists t. split; [apply elem_of_snoc; by left|done].
  - intros a o c Ht. by_stander Hx Ht. eauto.
  - intros q o Ht. by_stander Hx Ht. eauto.
  - intros n o c Ht Hc. by_stander Hx Ht.
    destruct (Hlret n o c Ht Hc) as [?|(Hn & q & Hq & ?)]; [by left|right].
    split; [done|]. exists q. split; [apply elem_of_snoc; by left|done].
Qed.

Lemma free_add m x o :
  free m o -> own x <> o -> free (set_suspended (suspended m ++ [x]) m) o.
Proof.
  intros (Hlt & Hfree & Hop) Hx. split; [done|]. split; [|done].
  cbn. intros t [Ht| ->]%elem_of_snoc; [by apply Hfree|done].
Qed.

Lemma free_fresh m o : free m o -> free (fresh m).2 o.
Proof.
  intros (Hlt & Hfree & Hop). split; [cbn; lia|]. by split.
Qed.

Lemma free_issue m op o : free m o -> free (issue op m).2 o.
Proof.
  intros (Hlt & Hfree & Hop). split; [cbn; lia|]. split; [done|].
  cbn. intros q op' [Hq|[= -> ->]]%elem_of_snoc; [by eapply Hop|lia].
Qed.

Lemma free_set_cmsClient m p o : free m o -> free (set_cmsClient p m) o.
Proof. done. Qed.

Lemma free_set_super m b o : free m o -> free (set_super b m) o.
Proof. done. Qed.

Lemma free_settle (m : machine) (q : pid) r o : free m o -> free (settle q r m) o.
Proof. unfold settle. by destruct (results m !! q). Qed.

Lemma free_settleClient (m : machine) (q : pid) r o : free m o -> free (settleClient q r m) o.
Proof. unfold settleClient. by destruct (clients m !! q). Qed.

Lemma calm_remove m i t :
  calm m -> suspended m !! i = Some t -> bystander t ->
  calm (set_suspended (delete i (suspended m)) m) /\
  free (set_suspended (delete i (suspended m)) m) (own t).
Proof.
  intros H Hi Hx. pose proof H as H0. in_calm H.
  assert (Hin : t ∈ suspended m) by (by eapply list_elem_of_lookup_2).
  assert (Hkeep : forall t', t' ∈ suspended m ->
            restarts t' = true \/ starts t' = true ->
            t' ∈ delete i (suspended m)).
  { intros t' Ht' Hd. eapply elem_of_delete_other; [done..|].
    intros ->. destruct Hx as (? & ? & ?). destruct Hd; congruence. }
  assert (Hsub : forall t', t' ∈ delete i (suspended m) -> t' ∈ suspended m)
    by (intros t'; apply elem_of_delete_sub).
  split; [constructor; cbn|].
  all: try assumption.
  - intros t' Ht'. apply Hbtask. auto.
  - by apply NoDup_fmap_delete.
  - intros t' q op Ht' Hq. eapply Hownops; eauto.
  - intros t' Ht'. apply Hstop. auto.
  - destruct Hcms as [?|(t' & Ht' & Hr & ?)]; [by left|right].
    exists t'. split; [apply Hkeep; auto|done].
  - intros a o Ht. destruct (Hold a o (Hsub _ Ht)) as [?|(t' & Ht' & Hr & ?)];
      [by left|right].
    exists t'. split; [apply Hkeep; auto|done].
  - intros a o1 o2 H1 H2. eauto.
  - intros a o Ht. eauto.
  - intros t1 t2 H1 H2 A1 A2. apply Hone; auto.
  - intros Hs t' Ht'. apply Hfront; auto.
  - intros t' Ht' Hst. destruct (Hstart t' (Hsub _ Ht') Hst) as [Hn (o & Ho)].
    split; [done|]. exists o. apply Hkeep; auto.
  - intros q Hq. destruct (Hop q Hq) as (n & Hn). exists n.
    apply Hkeep; auto.
  - intros n o Ht. destruct (Hret n o (Hsub _ Ht)) as [?|(t' & Ht' & Hr & ?)];
      [by left|right].
    exists t'. split; [apply Hkeep; auto|done].
  - intros a o c Ht. eauto.
  - intros q o Ht. eauto.
  - intros n o c Ht Hc.
    destruct (Hlret n o c (Hsub _ Ht) Hc) as [?|(Hn & q & Hq & ?)];
      [by left|right].
    split; [done|]. exists q. split; [apply Hkeep; auto|done].
  - split; [by apply Hbtask|]. split; cbn.
    + intros t' Ht'. by eapply NoDup_fmap_deleted.
    + intros q op Hq Heq. by eapply (Hownops t q op).
Qed.

Lemma calm_issue m op :
  calm m -> op <> Start ->
  calm (issue op m).2 /\ (next m, op) ∈ inFlight (issue op m).2.
Proof.
  intros H Hop'. in_calm H. split; [constructor; cbn|].
  all: try assumption.
  - lia.
  - lia.
  - intros p Hp. specialize (Hbcl p Hp). lia.
  - intros p Hp. specialize (Hbres p Hp). lia.
  - intros t Ht. destruct (Hbtask t Ht). lia.
  - intros q op0 [Hq|[= -> ->]]%elem_of_snoc; [|lia].
    specialize (Hbops q op0 Hq). lia.
  - intros q op0 [Hq|[= -> ->]]%elem_of_snoc; [by eapply Hpend|].
    split.
    + destruct (clients m !! next m) eqn:Hc; [|done].
      assert (next m < next m) by (apply Hbcl; eauto). lia.
    + destruct (results m !! next m) eqn:Hc; [|done].
      assert (next m < next m) by (apply Hbres; eauto). lia.
  - apply NoDup_fmap_snoc; [done|]. intros [q op0] Hq. simpl.
    specialize (Hbops q op0 Hq). lia.
  - intros t q op0 Ht [Hq|[= -> ->]]%elem_of_snoc; [by eapply Hownops|].
    destruct (Hbtask t Ht). lia.
  - intros q [Hq|[= -> Heq]]%elem_of_snoc; [by apply Hop|].
    by symmetry in Heq.
  - intros q o Ht. destruct (Hlshut q o Ht) as [(c & Hc & ?)|?];
      [left|by right].
    exists c. split; [apply elem_of_snoc; by left|done].
  - cbn. apply elem_of_snoc. by right.
Qed.

Lemma calm_settle (m : machine) (q : pid) r :
  calm m -> q < next m -> (forall q' op, (q', op) ∈ inFlight m -> q' <> q) ->
  calm (settle q r m).
Proof.
  intros H Hlt Hq. unfold settle.
  destruct (results m !! q) eqn:Hres; [exact H|]. in_calm H.
  constructor; cbn.
  all: try assumption.
  - intros p [x Hp].
    destruct (decide (p = q)) as [->|Hne]; [done|].
    rewrite lookup_insert_ne in Hp by done. apply Hbres. eauto.
  - intros q' op Hq'. destruct (Hpend q' op Hq') as [? ?]. split; [done|].
    rewrite lookup_insert_ne; [done|]. intros <-. by eapply Hq.
  - intros q0 o Ht.
    destruct (Hlshut q0 o Ht) as [?|[(v & Hv & ?)|(e & He)]]; [by left|right..].
    + left. exists v. split; [|done]. rewrite lookup_insert_ne; [done|].
      intros <-. congruence.
    + right. exists e. rewrite lookup_insert_ne; [done|].
      intros <-. congruence.
Qed.

Lemma calm_settleClient (m : machine) (o : pid) r :
  calm m -> free m o -> r <> Driver.Fulfilled None ->
  calm (settleClient o r m).
Proof.
  intros H (Hlt & Hfree & Hfreeop) Hr. unfold settleClient.
  destruct (clients m !! o) eqn:Hcl; [exact H|]. in_calm H.
  assert (Hmono : forall p, is_Some (clients m !! p) ->
            is_Some (<[o:=r]> (clients m) !! p)).
  { intros p Hp. rewrite lookup_insert_ne; [done|]. intros <-.
    rewrite Hcl in Hp. by destruct Hp. }
  assert (Hsame : forall p x, clients m !! p = Some x ->
            <[o:=r]> (clients m) !! p = Some x).
  { intros p x Hp. rewrite lookup_insert_ne; [done|]. congruence. }
  assert (Hchain : forall p,
            (is_Some (clients m !! p) \/
             exists t, t ∈ suspended m /\ restarts t = true /\ own t = p) ->
            forall x, <[o:=r]> (clients m) !! p = Some x ->
            clients m !! p = Some x).
  { intros p [Hp|(t & Ht & _ & Hown)] x Hx.
    - rewrite lookup_insert_ne in Hx; [done|]. intros <-.
      rewrite Hcl in Hp. by destruct Hp.
    - rewrite lookup_insert_ne in Hx; [done|]. intros <-.
      by apply (Hfree t Ht). }
  assert (Hact : forall t, t ∈ suspended m ->
            active (set_clients (<[o:=r]> (clients m)) m) t -> active m t).
  { intros [a [] o'|q [] o'] Ht; cbn; try done.
    intros [x Hx]. exists x. eapply Hchain; [|done]. by eapply Hold. }
  constructor; cbn.
  all: try assumption.
  - intros p [x Hp]. destruct (decide (p = o)) as [->|Hne]; [done|].
    rewrite lookup_insert_ne in Hp by done. apply Hbcl. eauto.
  - intros q op Hq. destruct (Hpend q op Hq) as [? ?]. split; [|done].
    rewrite lookup_insert_ne; [done|]. intros <-. by eapply Hfreeop.
  - intros p. destruct (decide (p = o)) as [->|Hne].
    + rewrite lookup_insert_eq. congruence.
    + rewrite lookup_insert_ne by done. apply Hnull.
  - destruct Hcms as [?|?]; [left; auto|by right].
  - intros a o' Ht. destruct (Hold a o' Ht) as [?|?]; [left; auto|by right].
  - intros t1 t2 H1 H2 A1 A2. apply Hone; auto.
  - intros [x Hx] t Ht Ha.
    eapply Hfront; [exists x; by eapply Hchain|exact Ht|by apply Hact].
  - intros t Ht Hst. destruct (Hstart t Ht Hst) as [Hn ?]. split; [|done].
    rewrite lookup_insert_ne; [done|]. intros Heq. by apply (Hfree t Ht).
  - intros n o' Ht. destruct (Hret n o' Ht) as [?|?]; [left; auto|by right].
  - intros a o' c Ht Hc. eapply Hlold; [done|].
    eapply Hchain; [|done]. by eapply Hold.
  - intros n o' c Ht Hc.
    destruct (Hlret n o' c Ht Hc) as [?|(Hn & q & Hq & ?)]; [left; auto|right].
    split.
    + rewrite lookup_insert_ne; [done|]. intros Heq.
      by apply (Hfree _ Hq).
    + exists q. split; [done|]. auto.
  - intros c Hc. apply Hlcms. by eapply Hchain.
Qed.

Lemma calm_set_super m b : calm m -> calm (set_super b m).
Proof. intros H. in_calm H. constructor; cbn; assumption. Qed.

Lemma calm_set_clientChangeInProgress m p :
  calm m -> p < next m -> calm (set_clientChangeInProgress p m).
Proof. intros H Hp. in_calm H. constructor; cbn; assumption. Qed.

Lemma calm_set_history m h : calm m -> calm (set_history h m).
Proof. intros H. in_calm H. constructor; cbn; assumption. Qed.

Lemma fresh_unsettled m :
  calm m -> clients m !! next m = None /\ results m !! next m = None.
Proof.
  intros H. in_calm H. split.
  - destruct (clients m !! next m) eqn:Hc; [|done].
    assert (next m < next m) by (apply Hbcl; eauto). lia.
  - destruct (results m !! next m) eqn:Hc; [|done].
    assert (next m < next m) by (apply Hbres; eauto). lia.
Qed.

Lemma free_bound m o : free m o -> o < next m.
Proof. by intros (? & _). Qed.

Lemma free_not_in_flight m o q op :
  free m o -> (q, op) ∈ inFlight m -> q <> o.
Proof. intros (_ & _ & H). apply H. Qed.

(** [await] and [awaitClient] by a task that belongs to no restart. *)
Lemma calm_await m p f o :
  calm m -> free m o -> p < next m -> bystander (OnPlain p f o) ->
  calm (await p f o m).
Proof. intros. by apply (calm_add m (OnPlain p f o)). Qed.

Lemma calm_awaitClient m p f o :
  calm m -> free m o -> p < next m -> bystander (OnClient p f o) ->
  calm (awaitClient p f o m).
Proof. intros. by apply (calm_add m (OnClient p f o)). Qed.

Lemma calm_settle_free m o r : calm m -> free m o -> calm (settle o r m).
Proof.
  intros H Hfree. apply calm_settle; [done|by eapply free_bound|].
  intros q op Hq. by eapply free_not_in_flight.
Qed.

(** An operation other than the start of a client is issued, and the
    task waits for it. *)
Lemma calm_issue_await m op f o :
  calm m -> free m o -> op <> Start -> bystander (OnPlain (next m) f o) ->
  calm (await (next m) f o (issue op m).2).
Proof.
  intros H Hfree Hop Hb. destruct (calm_issue m op H Hop) as [H1 Hin].
  apply calm_await; [done|by apply free_issue| |done].
  cbn. lia.
Qed.

Lemma calm_getClient m :
  calm m ->
  calm (getClient m).2 /\ (getClient m).1 = next m /\
  next (getClient m).2 = S (next m) /\
  (forall o, free m o -> free (getClient m).2 o).
Proof.
  intros H. unfold getClient. cbn [fst snd fresh].
  destruct (calm_fresh m H) as [H1 Hfree].
  split; [|split; [done|split; [done|]]].
  - apply calm_awaitClient; [done|done| |done].
    cbn. pose proof (bound_cms m H). lia.
  - intros o Ho. apply free_add; [by apply free_fresh|].
    cbn. apply free_bound in Ho. lia.
Qed.

Lemma calm_refreshPostConfigure m :
  calm m ->
  calm (_refreshPostConfigure m).2 /\ (_refreshPostConfigure m).1 = next m /\
  (_refreshPostConfigure m).1 < next (_refreshPostConfigure m).2 /\
  (forall o, free m o -> free (_refreshPostConfigure m).2 o).
Proof.
  intros H. unfold _refreshPostConfigure. cbn [fst snd fresh].
  destruct (calm_fresh m H) as [H1 Hfree].
  destruct (calm_getClient _ H1) as (H2 & Hg & Hn & Hfree2).
  unfold getClient in *. cbn [fst snd fresh] in *.
  split; [|split; [done|split]].
  - apply calm_awaitClient; [done|by apply Hfree2| |done].
    cbn. lia.
  - cbn. lia.
  - intros o Ho. apply free_add; [apply Hfree2; by apply free_fresh|].
    cbn. apply free_bound in Ho. lia.
Qed.

(** What is known of the tasks that stay when the task [t] runs on. *)
Lemma removed m i t :
  calm m -> suspended m !! i = Some t ->
  t ∈ suspended m /\
  (forall t', t' ∈ delete i (suspended m) ->
     t' ∈ suspended m /\ own t' <> own t) /\
  (forall t', t' ∈ suspended m -> t' <> t -> t' ∈ delete i (suspended m)) /\
  (forall t', t' ∈ suspended m -> own t' = own t -> t' = t).
Proof.
  intros H Hi. pose proof (owns_nodup m H) as Hnd.
  assert (Hin : t ∈ suspended m) by (by eapply list_elem_of_lookup_2).
  split; [done|]. split; [|split].
  - intros t' Ht'. split; [by eapply elem_of_delete_sub|].
    by eapply NoDup_fmap_deleted.
  - intros t' Ht' Hne. by eapply elem_of_delete_other.
  - intros t' Ht' Heq. by eapply (NoDup_fmap_inj own).
Qed.

(** *** A restart is asked for *)

Lemma calm_chain (m : machine) (p : pid) :
  calm m -> free m p -> clients m !! p = None ->
  calm (set_cmsClient p (awaitClient (_cmsClient m) DoRestart_old p m)).
Proof.
  intros H (Hlt & Hfree & Hfreeop) Hp. in_calm H.
  assert (Hcmsp : _cmsClient m <> p).
  { destruct Hcms as [Hs|(t & Ht & _ & Hown)].
    - intros Heq. rewrite Heq, Hp in Hs. by destruct Hs.
    - intros Heq. apply (Hfree t Ht). congruence. }
  assert (Hmem : forall t, t ∈ suspended m -> t ∈ suspended m ++ [OnClient (_cmsClient m) DoRestart_old p]).
  { intros t Ht. apply elem_of_snoc. by left. }
  constructor; cbn.
  all: try assumption.
  - intros t [Ht| ->]%elem_of_snoc; [by apply Hbtask|done].
  - apply NoDup_fmap_snoc; [done|]. intros y Hy. by apply Hfree.
  - intros t q op [Ht| ->]%elem_of_snoc Hq; [by eapply Hownops|].
    intros Heq. by apply (Hfreeop q op Hq).
  - intros t [Ht| ->]%elem_of_snoc; [by apply Hstop|done].
  - right. eexists. split; [apply elem_of_snoc; by right|done].
  - intros a o [Ht|[= -> ->]]%elem_of_snoc.
    + destruct (Hold a o Ht) as [?|(t & Ht' & ?)]; [by left|right].
      exists t. split; [by apply Hmem|done].
    + destruct Hcms as [?|(t & Ht' & ?)]; [by left|right].
      exists t. split; [by apply Hmem|done].
  - intros a o1 o2 [H1|E1]%elem_of_snoc [H2|E2]%elem_of_snoc.
    + eauto.
    + injection E2 as -> ->. by apply Hnotcms in H1.
    + injection E1 as -> ->. by apply Hnotcms in H2.
    + congruence.
  - intros a o [Ht|[= -> ->]]%elem_of_snoc; [|done].
    destruct (Hold a o Ht) as [Hs|(t & Ht' & _ & Hown)].
    + intros Heq. rewrite Heq, Hp in Hs. by destruct Hs.
    + intros Heq. apply (Hfree t Ht'). congruence.
  - intros t1 t2 [H1| ->]%elem_of_snoc [H2| ->]%elem_of_snoc A1 A2.
    + by apply Hone.
    + exfalso. by eapply Hfront.
    + exfalso. by eapply Hfront.
    + done.
  - intros Hs. rewrite Hp in Hs. by destruct Hs.
  - intros t [Ht| ->]%elem_of_snoc Hst; [|done].
    destruct (Hstart t Ht Hst) as [Hn (o & Ho)]. split; [done|].
    exists o. by apply Hmem.
  - intros q Hq. destruct (Hop q Hq) as (n & Hn). exists n. by apply Hmem.
  - intros n o [Ht|[=]]%elem_of_snoc.
    destruct (Hret n o Ht) as [?|(t & Ht' & ?)]; [by left|right].
    exists t. split; [by apply Hmem|done].
  - intros a o c [Ht|[= -> ->]]%elem_of_snoc Hc; [eauto|by apply Hlcms].
  - intros q o [Ht|[=]]%elem_of_snoc. eauto.
  - intros n o c [Ht|[=]]%elem_of_snoc Hc.
    destruct (Hlret n o c Ht Hc) as [?|(Hn & q & Hq & ?)]; [by left|right].
    split; [done|]. exists q. split; [by apply Hmem|done].
  - intros c Hc. rewrite Hp in Hc. done.
Qed.

Lemma calm_restartClient m :
  calm m ->
  calm (_restartClient m).2 /\ (_restartClient m).1 = next m /\
  (_restartClient m).1 < next (_restartClient m).2 /\
  (forall o, free m o -> free (_restartClient m).2 o).
Proof.
  intros H. unfold _restartClient, _doRestartClient.
  cbn [fst snd fresh].
  destruct (calm_fresh m H) as [H1 Hown].
  destruct (calm_fresh _ H1) as [H2 Hp].
  destruct (fresh_unsettled _ H1) as [Hunset _].
  unfold fresh in *. cbn [fst snd] in *.
  pose proof (calm_chain _ _ H2 Hp Hunset) as H3.
  destruct (calm_getClient _ H3) as (H4 & Hg & Hn & Hfree4).
  assert (Hchainfree : forall o, o <> S (next m) ->
            free (set_next (S (next m)) m) o ->
            free (set_cmsClient (next (set_next (S (next m)) m))
                    (awaitClient
                       (_cmsClient (set_next (S (next (set_next (S (next m)) m))) (set_next (S (next m)) m)))
                       DoRestart_old (next (set_next (S (next m)) m))
                       (set_next (S (next (set_next (S (next m)) m))) (set_next (S (next m)) m)))) o).
  { intros o Hlt Ho. apply free_set_cmsClient. apply free_add.
    - by apply (free_fresh (set_next (S (next m)) m)).
    - cbn. congruence. }
  unfold getClient in *. cbn [fst snd fresh] in *.
  split; [|split; [done|split]].
  - apply calm_awaitClient; [done| | |done].
    + apply Hfree4. apply Hchainfree; [lia|done].
    + cbn. lia.
  - cbn. lia.
  - intros o Ho. pose proof (free_bound _ _ Ho) as Hlt.
    apply free_add; [|cbn; lia].
    apply Hfree4. apply Hchainfree; [lia|]. by apply (free_fresh m).
Qed.

Lemma restart_not_start t : restarts t = true -> starts t = true -> False.
Proof. destruct t as [? [] ?|? [] ?]; done. Qed.

(** *** An activation of [_doRestartClient] ends *)

Lemma calm_finish_gen (m : machine) (i : nat) (t : task)
    (r : Driver.promise (option Driver.client))
    (CL' : gmap pid (Driver.promise (option Driver.client))) :
  calm m -> suspended m !! i = Some t -> restarts t = true -> active m t ->
  (forall n o, t = OnClient n DoRestart_return o -> is_Some (clients m !! n)) ->
  r <> Driver.Fulfilled None ->
  (forall c, r = Driver.Fulfilled (Some c) -> live m ⊆ {[c]}) ->
  (forall p x, clients m !! p = Some x -> CL' !! p = Some x) ->
  (forall p x, CL' !! p = Some x ->
     clients m !! p = Some x \/ (p = own t /\ x = r)) ->
  is_Some (CL' !! own t) ->
  calm (set_clients CL' (set_suspended (delete i (suspended m)) m)).
Proof.
  intros H Hi Hrs Hact Hsettled Hr Hlive Hmono Hback Hown.
  destruct (removed m i t H Hi) as (Hin & Hrem & Hkeep & Hinj').
  in_calm H.
  assert (Hsub : forall t', t' ∈ delete i (suspended m) -> t' ∈ suspended m)
    by (intros t' Ht'; by apply Hrem).
  assert (Hidle : forall t', t' ∈ delete i (suspended m) -> ~ active m t').
  { intros t' Ht' Ha. destruct (Hrem t' Ht') as [Hs Hne]. apply Hne.
    f_equal. by apply Hone. }
  assert (Hact' : forall t', t' ∈ delete i (suspended m) ->
     active (set_clients CL' (set_suspended (delete i (suspended m)) m)) t' ->
     (exists o1, t' = OnClient (own t) DoRestart_old o1) /\
     clients m !! own t = None).
  { intros t' Ht' Ha. pose proof (Hidle t' Ht') as Hn.
    destruct t' as [a [] o1|q [] o1]; cbn in Ha, Hn; try done.
    destruct Ha as [x Hx]. destruct (Hback _ _ Hx) as [Hc|[-> ->]].
    - exfalso. apply Hn. eauto.
    - split; [by exists o1|].
      destruct (clients m !! own t) eqn:E; [|done]. exfalso. apply Hn; eauto. }
  assert (Hmono' : forall p, is_Some (clients m !! p) -> is_Some (CL' !! p)).
  { intros p [x Hx]. exists x. by apply Hmono. }
  assert (Hkeep' : forall t', t' ∈ suspended m -> starts t' = true ->
            t' ∈ delete i (suspended m)).
  { intros t' Ht' Hst. apply Hkeep; [done|]. intros ->.
    by eapply restart_not_start. }
  constructor; cbn.
  all: try assumption.
  - intros p [x Hx]. destruct (Hback _ _ Hx) as [Hc|[-> ->]].
    + apply Hbcl. eauto.
    + by apply Hbtask.
  - intros t' Ht'. apply Hbtask. auto.
  - intros q op Hq. destruct (Hpend q op Hq) as [Hc Hres]. split; [|done].
    destruct (CL' !! q) as [x|] eqn:E; [|done]. exfalso.
    destruct (Hback _ _ E) as [Hc'|[-> ->]]; [congruence|].
    by eapply (Hownops t (own t) op).
  - by apply NoDup_fmap_delete.
  - intros t' q op Ht' Hq. eapply Hownops; eauto.
  - intros p Hp. destruct (Hback _ _ Hp) as [Hc|[-> Hx]]; [by eapply Hnull|].
    congruence.
  - intros t' Ht'. apply Hstop. auto.
  - destruct Hcms as [?|(t' & Ht' & Hr' & Ho)]; [left; auto|].
    destruct (decide (own t' = own t)) as [Heq|Hne].
    + left. by rewrite <- Ho, Heq.
    + right. exists t'. split; [apply Hkeep; [done|congruence]|done].
  - intros a o Ht. destruct (Hold a o (Hsub _ Ht)) as [?|(t' & Ht' & Hr' & Ho)];
      [left; auto|].
    destruct (decide (own t' = own t)) as [Heq|Hne].
    + left. by rewrite <- Ho, Heq.
    + right. exists t'. split; [apply Hkeep; [done|congruence]|done].
  - intros a o1 o2 H1 H2. eauto.
  - intros a o Ht. eauto.
  - intros t1 t2 H1 H2 A1 A2.
    destruct (Hact' t1 H1 A1) as [(o1 & ->) _].
    destruct (Hact' t2 H2 A2) as [(o2 & ->) _].
    f_equal. eapply Hinj; eauto.
  - intros [x Hx] t' Ht' Ha.
    destruct (Hact' t' Ht' Ha) as [(o1 & ->) Hnone].
    destruct (Hback _ _ Hx) as [Hc|[Heq _]].
    + eapply Hfront; [eauto|exact Hin|exact Hact].
    + eapply Hnotcms; [apply Hsub; exact Ht'|done].
  - intros t' Ht' Hst. destruct (Hstart t' (Hsub _ Ht') Hst) as [Hn (o & Ho)].
    split.
    + destruct (CL' !! own t') as [x|] eqn:E; [|done]. exfalso.
      destruct (Hback _ _ E) as [Hc'|[Heq _]]; [congruence|].
      by apply (Hrem t' Ht').
    + exists o. apply Hkeep; [done|]. intros <-.
      destruct (Hsettled _ _ eq_refl) as [x Hx]. congruence.
  - intros q Hq. destruct (Hop q Hq) as (n & Hn). exists n.
    by apply Hkeep'.
  - intros n o Ht. destruct (Hret n o (Hsub _ Ht)) as [?|(t' & Ht' & Hr' & ?)];
      [left; auto|right].
    exists t'. split; [by apply Hkeep'|done].
  - intros a o c Ht Hc. destruct (Hback _ _ Hc) as [Hc'|[_ Heq]]; eauto.
  - intros q o Ht. eauto.
  - intros n o c Ht Hc. exfalso. by apply (Hidle _ Ht).
  - intros c Hc. destruct (Hback _ _ Hc) as [Hc'|[_ Heq]]; eauto.
Qed.

Lemma calm_finish (m : machine) (i : nat) (t : task)
    (r : Driver.promise (option Driver.client)) :
  calm m -> suspended m !! i = Some t -> restarts t = true -> active m t ->
  (forall n o, t = OnClient n DoRestart_return o -> is_Some (clients m !! n)) ->
  r <> Driver.Fulfilled None ->
  (forall c, r = Driver.Fulfilled (Some c) -> live m ⊆ {[c]}) ->
  calm (settleClient (own t) r (set_suspended (delete i (suspended m)) m)).
Proof.
  intros H Hi Hrs Hact Hsettled Hr Hlive. unfold settleClient. cbn.
  destruct (clients m !! own t) as [x|] eqn:E.
  - apply (calm_finish_gen m i t r (clients m) H Hi Hrs Hact Hsettled Hr Hlive).
    + done.
    + intros p y Hp. by left.
    + rewrite E. eauto.
  - apply (calm_finish_gen m i t r (<[own t:=r]> (clients m))
             H Hi Hrs Hact Hsettled Hr Hlive).
    + intros p y Hp. rewrite lookup_insert_ne; [done|]. congruence.
    + intros p y Hp. destruct (decide (p = own t)) as [->|Hne].
      * rewrite lookup_insert_eq in Hp. right. split; congruence.
      * rewrite lookup_insert_ne in Hp by done. by left.
    + rewrite lookup_insert_eq. eauto.
Qed.

(** *** An activation of [_doRestartClient] goes on to its next [await] *)

Lemma restart_not_stop t : restarts t = true -> stops t = false.
Proof. destruct t as [? [] ?|? [] ?]; done. Qed.

(** The task [t] of a restart is replaced by the task [t'] of the same
    activation; [extra] is empty, or holds the activation of
    [_startNewClient] that [t'] waits for. *)
Lemma calm_move (m : machine) (i : nat) (t t' : task) (extra : list task) :
  calm m -> suspended m !! i = Some t -> restarts t = true -> active m t ->
  (forall n o, t <> OnClient n DoRestart_return o) ->
  restarts t' = true -> own t' = own t -> awaits t' < next m ->
  (forall a o, t' <> OnClient a DoRestart_old o) ->
  (forall q o, t' = OnPlain q DoRestart_shutdown o ->
     (exists c, (q, ShutdownAsync c) ∈ inFlight m /\ live m ⊆ {[c]}) \/
     (exists v, results m !! q = Some (Driver.Fulfilled v) /\ live m = ∅) \/
     (exists e, results m !! q = Some (Driver.Rejected e))) ->
  (forall n o, t' = OnClient n DoRestart_return o ->
     live m = ∅ /\
     (is_Some (clients m !! n) \/ exists x, x ∈ extra /\ own x = n)) ->
  (forall x, x ∈ extra -> exists p n,
     x = OnPlain p StartNew_environment n /\ free m n /\
     clients m !! n = None /\ p < next m /\
     t' = OnClient n DoRestart_return (own t)) ->
  NoDup (own <$> extra) ->
  calm (set_suspended ((delete i (suspended m) ++ extra) ++ [t']) m).
Proof.
  intros H Hi Hrs Hact Hnotret Hrs' Hown' Haw' Hnotold Hshut Hretn Hext Hnd.
  destruct (removed m i t H Hi) as (Hin & Hrem & Hkeep & Hinj').
  in_calm H.
  assert (Hsub : forall x, x ∈ delete i (suspended m) -> x ∈ suspended m)
    by (intros x Hx; by apply Hrem).
  assert (Hidle : forall x, x ∈ delete i (suspended m) -> ~ active m x).
  { intros x Hx Ha. destruct (Hrem x Hx) as [Hs Hne]. apply Hne.
    f_equal. by apply Hone. }
  assert (Hmem : forall x,
            x ∈ (delete i (suspended m) ++ extra) ++ [t'] <->
            x ∈ delete i (suspended m) \/ x ∈ extra \/ x = t').
  { intros x. rewrite elem_of_snoc, elem_of_app. tauto. }
  assert (Hkeep' : forall x, x ∈ suspended m -> restarts x = false ->
            x ∈ (delete i (suspended m) ++ extra) ++ [t']).
  { intros x Hx Hn. apply Hmem. left. apply Hkeep; [done|]. congruence. }
  assert (Hchain : forall p,
            (exists x, x ∈ suspended m /\ restarts x = true /\ own x = p) ->
            exists x, x ∈ (delete i (suspended m) ++ extra) ++ [t'] /\
                      restarts x = true /\ own x = p).
  { intros p (x & Hx & Hr & Ho).
    destruct (decide (own x = own t)) as [Heq|Hne].
    - exists t'. split; [apply Hmem; auto|]. split; [done|congruence].
    - exists x. split; [|done]. apply Hmem. left. apply Hkeep; [done|congruence]. }
  assert (Hidle' : forall x, x ∈ extra -> ~ active m x).
  { intros x Hx. destruct (Hext x Hx) as (p & n & -> & _). cbn. tauto. }
  constructor; cbn.
  all: try assumption.
  - intros x [Hx|[Hx| ->]]%Hmem.
    + apply Hbtask. auto.
    + destruct (Hext x Hx) as (p & n & -> & Hfree & _ & Hp & _). cbn.
      split; [by eapply free_bound|done].
    + split; [|done]. rewrite Hown'. by apply Hbtask.
  - apply NoDup_fmap_snoc.
    + apply NoDup_fmap_app; [by apply NoDup_fmap_delete|done|].
      intros x y Hx Hy Heq.
      destruct (Hext y Hy) as (p & n & -> & (_ & Hfree & _) & _). cbn in Heq.
      by apply (Hfree x (Hsub _ Hx)).
    + intros y [Hy|Hy]%elem_of_app; rewrite Hown'.
      * by apply Hrem.
      * destruct (Hext y Hy) as (p & n & -> & (_ & Hfree & _) & _). cbn.
        intros Heq. by apply (Hfree t Hin).
  - intros x q op [Hx|[Hx| ->]]%Hmem Hq.
    + eapply Hownops; eauto.
    + destruct (Hext x Hx) as (p & n & -> & (_ & _ & Hfree) & _). cbn.
      intros Heq. by apply (Hfree q op Hq).
    + rewrite Hown'. eapply Hownops; eauto.
  - intros x [Hx|[Hx| ->]]%Hmem.
    + apply Hstop. auto.
    + by destruct (Hext x Hx) as (p & n & -> & _).
    + by apply restart_not_stop.
  - destruct Hcms as [?|Hc]; [by left|right]. by apply Hchain.
  - intros a o [Hx|[Hx|Hx]]%Hmem.
    + destruct (Hold a o (Hsub _ Hx)) as [?|Hc]; [by left|right].
      by apply Hchain.
    + by destruct (Hext _ Hx) as (p & n & ? & _).
    + by destruct (Hnotold a o).
  - intros a o1 o2 [H1|[H1|H1]]%Hmem [H2|[H2|H2]]%Hmem.
    all: try (by destruct (Hext _ H1) as (? & ? & ? & _)).
    all: try (by destruct (Hext _ H2) as (? & ? & ? & _)).
    all: try (by destruct (Hnotold a o1)).
    all: try (by destruct (Hnotold a o2)).
    eauto.
  - intros a o [Hx|[Hx|Hx]]%Hmem.
    + eauto.
    + by destruct (Hext _ Hx) as (p & n & ? & _).
    + by destruct (Hnotold a o).
  - intros t1 t2 [H1|[H1| ->]]%Hmem [H2|[H2| ->]]%Hmem A1 A2.
    all: try (exfalso; by apply (Hidle _ H1)).
    all: try (exfalso; by apply (Hidle _ H2)).
    all: try (exfalso; by apply (Hidle' _ H1)).
    all: try (exfalso; by apply (Hidle' _ H2)).
    done.
  - intros Hs. exfalso. by eapply Hfront.
  - intros x [Hx|[Hx| ->]]%Hmem Hst.
    + destruct (Hstart x (Hsub _ Hx) Hst) as [Hn (o & Ho)]. split; [done|].
      exists o. apply Hmem. left. apply Hkeep; [done|]. intros Heq.
      by apply (Hnotret (own x) o).
    + destruct (Hext x Hx) as (p & n & -> & _ & Hn & _ & ->). cbn.
      split; [done|]. exists (own t). apply Hmem. auto.
    + exfalso. by eapply restart_not_start.
  - intros q Hq. destruct (Hop q Hq) as (n & Hn). exists n. by apply Hkeep'.
  - intros n o [Hx|[Hx|Hx]]%Hmem.
    + destruct (Hret n o (Hsub _ Hx)) as [?|(x & Hx' & Hst & ?)];
        [by left|right].
      exists x. split; [|done]. apply Hkeep'; [done|].
      destruct (restarts x) eqn:E; [|done]. exfalso.
      by eapply restart_not_start.
    + by destruct (Hext _ Hx) as (p & n' & ? & _).
    + destruct (Hretn n o (eq_sym Hx)) as [_ [?|(x & Hx' & Ho)]]; [by left|].
      right. exists x. split; [apply Hmem; auto|]. split; [|done].
      by destruct (Hext _ Hx') as (p & n' & -> & _).
  - intros a o c [Hx|[Hx|Hx]]%Hmem Hc.
    + eauto.
    + by destruct (Hext _ Hx) as (p & n & ? & _).
    + by destruct (Hnotold a o).
  - intros q o [Hx|[Hx|Hx]]%Hmem.
    + eauto.
    + by destruct (Hext _ Hx) as (p & n & ? & _).
    + by apply (Hshut q o).
  - intros n o c [Hx|[Hx|Hx]]%Hmem Hc.
    + exfalso. by apply (Hidle _ Hx).
    + by destruct (Hext _ Hx) as (p & n' & ? & _).
    + destruct (Hretn n o (eq_sym Hx)) as [Hempty _].
      rewrite Hempty in Hc. by apply elem_of_empty in Hc.
Qed.

(** *** [_startNewClient] starts the client *)

Lemma calm_env_start (m : machine) (i : nat) (q n : pid) :
  calm m -> suspended m !! i = Some (OnPlain q StartNew_environment n) ->
  calm (awaitClient (next m) StartNew_return n
          (issue Start (set_suspended (delete i (suspended m)) m)).2).
Proof.
  intros H Hi.
  destruct (removed m i _ H Hi) as (Hin & Hrem & Hkeep & Hinj').
  destruct (fresh_unsettled m H) as [Hfc Hfr].
  in_calm H.
  assert (Hsub : forall x, x ∈ delete i (suspended m) -> x ∈ suspended m)
    by (intros x Hx; by apply Hrem).
  assert (Hmem : forall x, x ∈ delete i (suspended m) ->
            x ∈ delete i (suspended m) ++ [OnClient (next m) StartNew_return n]).
  { intros x Hx. apply elem_of_snoc. by left. }
  assert (Hkeep' : forall x, x ∈ suspended m -> restarts x = true ->
            x ∈ delete i (suspended m) ++ [OnClient (next m) StartNew_return n]).
  { intros x Hx Hr. apply Hmem. apply Hkeep; [done|]. by intros ->. }
  assert (Hchain : forall p,
            (exists x, x ∈ suspended m /\ restarts x = true /\ own x = p) ->
            exists x, x ∈ delete i (suspended m) ++ [OnClient (next m) StartNew_return n] /\
                      restarts x = true /\ own x = p).
  { intros p (x & Hx & Hr & Ho). exists x. split; [by apply Hkeep'|done]. }
  unfold awaitClient, issue. cbn [snd].
  constructor; cbn.
  all: try assumption.
  - lia.
  - lia.
  - intros p Hp. specialize (Hbcl p Hp). lia.
  - intros p Hp. specialize (Hbres p Hp). lia.
  - intros x [Hx| ->]%elem_of_snoc.
    + destruct (Hbtask x (Hsub _ Hx)). lia.
    + cbn. destruct (Hbtask _ Hin). cbn in *. lia.
  - intros p op [Hp|[= -> ->]]%elem_of_snoc; [|lia].
    specialize (Hbops p op Hp). lia.
  - intros p op [Hp|[= -> ->]]%elem_of_snoc; [by eapply Hpend|done].
  - apply NoDup_fmap_snoc; [done|]. intros [p op] Hp. simpl.
    specialize (Hbops p op Hp). lia.
  - apply NoDup_fmap_snoc; [by apply NoDup_fmap_delete|].
    intros y Hy. by apply Hrem.
  - intros x p op [Hx| ->]%elem_of_snoc [Hp|[= -> ->]]%elem_of_snoc.
    + eapply Hownops; eauto.
    + destruct (Hbtask x (Hsub _ Hx)). lia.
    + by apply (Hownops _ p op Hin).
    + cbn. destruct (Hbtask _ Hin). cbn in *. lia.
  - intros x [Hx| ->]%elem_of_snoc; [|done]. apply Hstop. auto.
  - destruct Hcms as [?|Hc]; [by left|right]. by apply Hchain.
  - intros a o [Hx|[=]]%elem_of_snoc.
    destruct (Hold a o (Hsub _ Hx)) as [?|Hc]; [by left|right]. by apply Hchain.
  - intros a o1 o2 [H1|[=]]%elem_of_snoc [H2|[=]]%elem_of_snoc. eauto.
  - intros a o [Hx|[=]]%elem_of_snoc. eauto.
  - intros t1 t2 [H1| ->]%elem_of_snoc [H2| ->]%elem_of_snoc A1 A2; try done.
    apply Hone; auto.
  - intros Hs x [Hx| ->]%elem_of_snoc; [|cbn; tauto]. apply Hfront; auto.
  - intros x [Hx| ->]%elem_of_snoc Hst.
    + destruct (Hstart x (Hsub _ Hx) Hst) as [Hn (o & Ho)]. split; [done|].
      exists o. by apply Hkeep'.
    + destruct (Hstart _ Hin eq_refl) as [Hn (o & Ho)]. split; [done|].
      exists o. by apply Hkeep'.
  - intros p [Hp|[= ->]]%elem_of_snoc.
    + destruct (Hop p Hp) as (n' & Hn'). exists n'. apply Hmem.
      apply Hkeep; [done|]. done.
    + exists n. apply elem_of_snoc. by right.
  - intros n' o [Hx|[=]]%elem_of_snoc.
    destruct (Hret n' o (Hsub _ Hx)) as [?|(x & Hx' & Hst & Ho)];
      [by left|right].
    destruct (decide (own x = n)) as [Heq|Hne].
    + eexists. split; [apply elem_of_snoc; by right|]. split; [done|].
      cbn. congruence.
    + exists x. split; [|done]. apply Hmem. apply Hkeep; [done|].
      intros ->. by apply Hne.
  - intros a o c [Hx|[=]]%elem_of_snoc Hc. eauto.
  - intros p o [Hx|[=]]%elem_of_snoc.
    destruct (Hlshut p o (Hsub _ Hx)) as [(c & Hc & ?)|?]; [left|by right].
    exists c. split; [apply elem_of_snoc; by left|done].
  - intros n' o c [Hx|[=]]%elem_of_snoc Hc.
    destruct (Hlret n' o c (Hsub _ Hx) Hc) as [?|(Hn & p & Hp & ?)];
      [by left|right].
    split; [done|]. exists p. split; [|done]. apply Hmem.
    apply Hkeep; [done|]. done.
Qed.

(** *** An activation of [_startNewClient] ends *)

Lemma calm_start_finish (m : machine) (i : nat) (t : task)
    (r : Driver.promise (option Driver.client)) :
  calm m -> suspended m !! i = Some t -> starts t = true ->
  (forall q n, t = OnClient q StartNew_return n -> is_Some (clients m !! q)) ->
  r <> Driver.Fulfilled None ->
  (forall c, c ∈ live m -> r = Driver.Fulfilled (Some c)) ->
  calm (settleClient (own t) r (set_suspended (delete i (suspended m)) m)).
Proof.
  intros H Hi Hst Hsettled Hr Hlive.
  destruct (removed m i _ H Hi) as (Hin & Hrem & Hkeep & Hinj').
  in_calm H.
  destruct (Hstart t Hin Hst) as [Hnone (o & Ho)].
  unfold settleClient. cbn. rewrite Hnone.
  assert (Hsub : forall x, x ∈ delete i (suspended m) -> x ∈ suspended m)
    by (intros x Hx; by apply Hrem).
  assert (Hkeep' : forall x, x ∈ suspended m -> restarts x = true ->
            x ∈ delete i (suspended m)).
  { intros x Hx Hrs. apply Hkeep; [done|]. intros ->.
    by eapply restart_not_start. }
  assert (Hmono : forall p, is_Some (clients m !! p) ->
            is_Some (<[own t:=r]> (clients m) !! p)).
  { intros p Hp. rewrite lookup_insert_ne; [done|]. intros <-.
    rewrite Hnone in Hp. by destruct Hp. }
  assert (Hsame : forall p x, clients m !! p = Some x ->
            <[own t:=r]> (clients m) !! p = Some x).
  { intros p x Hp. rewrite lookup_insert_ne; [done|]. congruence. }
  assert (Hchain : forall p,
            (is_Some (clients m !! p) \/
             exists x, x ∈ suspended m /\ restarts x = true /\ own x = p) ->
            p <> own t).
  { intros p [Hp|(x & Hx & Hrs & Hown)] ->.
    - rewrite Hnone in Hp. by destruct Hp.
    - apply (restart_not_start t); [|done].
      by rewrite <- (Hinj' x Hx Hown). }
  assert (Hact : forall x, x ∈ suspended m ->
            active (set_clients (<[own t:=r]> (clients m)) m) x -> active m x).
  { intros [a [] o'|q [] o'] Hx; cbn; try done.
    intros Hs. rewrite lookup_insert_ne in Hs; [done|].
    apply not_eq_sym, Hchain. by eapply Hold. }
  set (m' := set_clients _ _).
  constructor; subst m'; cbn.
  all: try assumption.
  - intros p [x Hp]. destruct (decide (p = own t)) as [->|Hne];
      [by apply Hbtask|].
    rewrite lookup_insert_ne in Hp by done. apply Hbcl. eauto.
  - intros x Hx. apply Hbtask. auto.
  - intros q op Hq. destruct (Hpend q op Hq) as [? ?]. split; [|done].
    rewrite lookup_insert_ne; [done|]. by eapply Hownops.
  - by apply NoDup_fmap_delete.
  - intros x q op Hx Hq. eapply Hownops; eauto.
  - intros p. destruct (decide (p = own t)) as [->|Hne].
    + rewrite lookup_insert_eq. congruence.
    + rewrite lookup_insert_ne by done. apply Hnull.
  - intros x Hx. apply Hstop. auto.
  - destruct Hcms as [?|(x & Hx & Hrs & ?)]; [left; auto|right].
    exists x. split; [by apply Hkeep'|done].
  - intros a o' Hx.
    destruct (Hold a o' (Hsub _ Hx)) as [?|(x & Hx' & Hrs & ?)];
      [left; auto|right].
    exists x. split; [by apply Hkeep'|done].
  - intros a o1 o2 H1 H2. eauto.
  - intros a o' Hx. eauto.
  - intros t1 t2 H1 H2 A1 A2. apply Hone; auto.
  - intros Hs x Hx Ha. eapply Hfront; [|apply Hsub; exact Hx|by apply Hact; auto].
    rewrite lookup_insert_ne in Hs; [done|].
    apply not_eq_sym, Hchain. exact Hcms.
  - intros x Hx Hst'. destruct (Hstart x (Hsub _ Hx) Hst') as [Hn (o' & Ho')].
    split.
    + rewrite lookup_insert_ne; [done|]. apply not_eq_sym. by apply Hrem.
    + exists o'. by apply Hkeep'.
  - intros q Hq. destruct (Hop q Hq) as (n & Hn). exists n.
    apply Hkeep; [done|]. intros <-.
    destruct (Hsettled _ _ eq_refl) as [x Hx].
    destruct (Hpend q Start Hq) as [Hq' _]. congruence.
  - intros n o' Hx.
    destruct (Hret n o' (Hsub _ Hx)) as [?|(x & Hx' & Hst' & Hown)];
      [left; auto|].
    destruct (decide (own x = own t)) as [Heq|Hne].
    + left. rewrite <- Hown, Heq, lookup_insert_eq. eauto.
    + right. exists x. split; [|done]. apply Hkeep; [done|congruence].
  - intros a o' c Hx Hc. apply (Hlold a o' c (Hsub _ Hx)).
    rewrite lookup_insert_ne in Hc; [done|].
    apply not_eq_sym, Hchain. exact (Hold a o' (Hsub _ Hx)).
  - intros q o' Hx. eauto.
  - intros n o' c Hx Hc.
    destruct (decide (n = own t)) as [->|Hne].
    + left. rewrite lookup_insert_eq. f_equal. by apply Hlive.
    + destruct (Hlret n o' c (Hsub _ Hx) Hc) as [?|(Hn & q & Hq & Hqc)];
        [left; auto|right].
      split; [by rewrite lookup_insert_ne|].
      exists q. split; [|auto]. apply Hkeep; [done|]. intros <-. by apply Hne.
  - intros c Hc. apply Hlcms.
    rewrite lookup_insert_ne in Hc; [done|].
    apply not_eq_sym, Hchain. exact Hcms.
Qed.

(** *** An operation in flight completes *)

Lemma gone_sub (l k : gset Driver.client) (c : Driver.client) :
  l ⊆ k -> l ∖ {[c]} ⊆ k.
Proof. intros H x [Hx _]%elem_of_difference. by apply H. Qed.

Lemma gone_own (l : gset Driver.client) (c : Driver.client) :
  l ⊆ {[c]} -> l ∖ {[c]} = ∅.
Proof.
  intros H. apply set_eq. intros x. split; [|by intros ?%elem_of_empty].
  intros [Hx Hn]%elem_of_difference. exfalso. apply Hn. by apply H.
Qed.

Lemma gone_empty (l : gset Driver.client) (c : Driver.client) :
  l = ∅ -> l ∖ {[c]} = ∅.
Proof.
  intros ->. apply set_eq. intros x. split; [|by intros ?%elem_of_empty].
  by intros [Hx _]%elem_of_difference.
Qed.

Lemma done_op (m : machine) (i : nat) (p : pid) (op : operation) :
  calm m -> inFlight m !! i = Some (p, op) ->
  (p, op) ∈ inFlight m /\
  (forall q op', (q, op') ∈ delete i (inFlight m) ->
     (q, op') ∈ inFlight m /\ q <> p) /\
  (forall q op', (q, op') ∈ inFlight m -> q <> p ->
     (q, op') ∈ delete i (inFlight m)) /\
  (forall op', (p, op') ∈ inFlight m -> op' = op).
Proof.
  intros H Hi. pose proof (ops_nodup m H) as Hnd.
  assert (Hin : (p, op) ∈ inFlight m) by (by eapply list_elem_of_lookup_2).
  split; [done|]. split; [|split].
  - intros q op' Hq. split; [by eapply elem_of_delete_sub|].
    by apply (NoDup_fmap_deleted fst _ _ _ _ Hnd Hi Hq).
  - intros q op' Hq Hne. eapply elem_of_delete_other; [done..|]. congruence.
  - intros op' Hq.
    pose proof (NoDup_fmap_inj fst _ _ _ Hnd Hq Hin eq_refl). congruence.
Qed.

Lemma calm_complete_other (m : machine) (i : nat) (p : pid) (op : operation)
    (r : Driver.promise plain) :
  calm m -> inFlight m !! i = Some (p, op) -> op <> Start ->
  (forall c v, op = ShutdownAsync c -> r <> Driver.Fulfilled v) ->
  calm (settle p r (set_inFlight (delete i (inFlight m)) m)).
Proof.
  intros H Hi Hns Hshut.
  destruct (done_op m i p op H Hi) as (Hin & Hrem & Hkeep & Hthe).
  in_calm H.
  destruct (Hpend p op Hin) as [Hpc Hpr].
  unfold settle. cbn. rewrite Hpr.
  constructor; cbn.
  all: try assumption.
  - intros q [x Hq]. destruct (decide (q = p)) as [->|Hne]; [by eapply Hbops|].
    rewrite lookup_insert_ne in Hq by done. apply Hbres. eauto.
  - intros q op' Hq. by eapply Hbops, Hrem.
  - intros q op' Hq. destruct (Hrem q op' Hq) as [Hq' Hne].
    destruct (Hpend q op' Hq') as [? ?]. split; [done|].
    by rewrite lookup_insert_ne.
  - by apply NoDup_fmap_delete.
  - intros x q op' Hx Hq. eapply Hownops; [done|]. by eapply Hrem.
  - intros q Hq. apply Hop. by eapply Hrem.
  - intros q o Hx.
    destruct (Hlshut q o Hx) as [(c & Hc & Hl)|[(v & Hv & ?)|(e & He)]].
    + destruct (decide (q = p)) as [->|Hne].
      * right. right. pose proof (Hthe _ Hc) as Heq.
        destruct r as [v|e]; [by destruct (Hshut c v)|].
        exists e. by rewrite lookup_insert_eq.
      * left. exists c. split; [by apply Hkeep|done].
    + right. left. exists v. split; [|done].
      rewrite lookup_insert_ne; [done|]. congruence.
    + right. right. exists e. rewrite lookup_insert_ne; [done|]. congruence.
Qed.

Lemma calm_complete_shutdown (m : machine) (i : nat) (p : pid)
    (c : Driver.client) :
  calm m -> inFlight m !! i = Some (p, ShutdownAsync c) ->
  calm (set_live (live m ∖ {[c]})
          (settle p (Driver.Fulfilled Void)
             (set_inFlight (delete i (inFlight m)) m))).
Proof.
  intros H Hi.
  destruct (done_op m i p _ H Hi) as (Hin & Hrem & Hkeep & Hthe).
  in_calm H.
  destruct (Hpend p _ Hin) as [Hpc Hpr].
  unfold settle. cbn. rewrite Hpr.
  constructor; cbn.
  all: try assumption.
  - intros q [x Hq]. destruct (decide (q = p)) as [->|Hne]; [by eapply Hbops|].
    rewrite lookup_insert_ne in Hq by done. apply Hbres. eauto.
  - intros q op' Hq. by eapply Hbops, Hrem.
  - intros q op' Hq. destruct (Hrem q op' Hq) as [Hq' Hne].
    destruct (Hpend q op' Hq') as [? ?]. split; [done|].
    by rewrite lookup_insert_ne.
  - by apply NoDup_fmap_delete.
  - intros x q op' Hx Hq. eapply Hownops; [done|]. by eapply Hrem.
  - intros q Hq. apply Hop. by eapply Hrem.
  - intros a o c' Hx Hc. apply gone_sub. by apply (Hlold a o c' Hx Hc).
  - intros q o Hx.
    destruct (Hlshut q o Hx) as [(c' & Hc & Hl)|[(v & Hv & Hl)|(e & He)]].
    + destruct (decide (q = p)) as [->|Hne].
      * right. left. exists Void. rewrite lookup_insert_eq. split; [done|].
        pose proof (Hthe _ Hc) as [= ->]. by apply gone_own.
      * left. exists c'. split; [by apply Hkeep|by apply gone_sub].
    + right. left. exists v. split; [|by apply gone_empty].
      rewrite lookup_insert_ne; [done|]. congruence.
    + right. right. exists e. rewrite lookup_insert_ne; [done|]. congruence.
  - intros n o c' Hx [Hc _]%elem_of_difference. by apply (Hlret n o c' Hx).
  - intros c' Hc. apply gone_sub. by apply Hlcms.
  - etransitivity; [|exact Hlone]. apply subseteq_size. by apply gone_sub.
Qed.

(** The start of a client completes: the promise of the operation is
    settled, and no task settles that one. *)
Lemma calm_complete_start (m : machine) (i : nat) (p : pid)
    (r : Driver.promise (option Driver.client)) (l : gset Driver.client) :
  calm m -> inFlight m !! i = Some (p, Start) ->
  (live m = ∅ -> (r = Driver.Fulfilled (Some p) /\ l = {[p]}) \/
                 (exists e, r = Driver.Rejected e) /\ l = live m) ->
  calm (set_live l
          (settleClient p r (set_inFlight (delete i (inFlight m)) m))).
Proof.
  intros H Hi Hcase.
  destruct (done_op m i p _ H Hi) as (Hin & Hrem & Hkeep & Hthe).
  pose proof (owns_nodup m H) as Hnd.
  in_calm H.
  destruct (Hpend p _ Hin) as [Hpc Hpr].
  destruct (Hop p Hin) as (n & Hn).
  destruct (Hstart _ Hn eq_refl) as [Hnone (o & Ho)]. cbn in Hnone, Ho.
  assert (Hempty : live m = ∅).
  { apply set_eq. intros c. split; [|by intros ?%elem_of_empty]. intros Hc.
    exfalso.
    destruct (Hlret n o c Ho Hc) as [Hs|(_ & q & Hq & Hqc)]; [congruence|].
    pose proof (NoDup_fmap_inj own _ _ _ Hnd Hq Hn eq_refl) as [= ->].
    congruence. }
  specialize (Hcase Hempty).
  assert (Hnp : forall x, x ∈ suspended m -> own x <> p).
  { intros x Hx. by eapply Hownops. }
  assert (Hchain : forall a,
            (is_Some (clients m !! a) \/
             exists x, x ∈ suspended m /\ restarts x = true /\ own x = a) ->
            a <> p).
  { intros a [Ha|(x & Hx & _ & Hown)] ->.
    - rewrite Hpc in Ha. by destruct Ha.
    - by apply (Hnp x Hx). }
  assert (Hact : forall x, x ∈ suspended m ->
            active (set_clients (<[p:=r]> (clients m)) m) x -> active m x).
  { intros [a [] o'|q [] o'] Hx; cbn; try done.
    intros Hs. rewrite lookup_insert_ne in Hs; [done|].
    apply not_eq_sym, Hchain. by eapply Hold. }
  assert (Hmono : forall a, is_Some (clients m !! a) ->
            is_Some (<[p:=r]> (clients m) !! a)).
  { intros a Ha. rewrite lookup_insert_ne; [done|]. intros <-.
    rewrite Hpc in Ha. by destruct Ha. }
  assert (Hidle : r = Driver.Fulfilled (Some p) ->
            forall x, x ∈ suspended m -> active m x ->
            x = OnClient n DoRestart_return o).
  { intros _ x Hx Ha. by apply Hone. }
  unfold settleClient. cbn. rewrite Hpc.
  constructor; cbn.
  all: try assumption.
  - intros a [x Ha]. destruct (decide (a = p)) as [->|Hne]; [by eapply Hbops|].
    rewrite lookup_insert_ne in Ha by done. apply Hbcl. eauto.
  - intros q op' Hq. by eapply Hbops, Hrem.
  - intros q op' Hq. destruct (Hrem q op' Hq) as [Hq' Hne].
    destruct (Hpend q op' Hq') as [? ?]. split; [|done].
    by rewrite lookup_insert_ne.
  - by apply NoDup_fmap_delete.
  - intros x q op' Hx Hq. eapply Hownops; [done|]. by eapply Hrem.
  - intros a. destruct (decide (a = p)) as [->|Hne].
    + rewrite lookup_insert_eq.
      destruct Hcase as [[-> _]|[(e & ->) _]]; congruence.
    + rewrite lookup_insert_ne by done. apply Hnull.
  - destruct Hcms as [?|?]; [left; auto|by right].
  - intros a o' Hx. destruct (Hold a o' Hx) as [?|?]; [left; auto|by right].
  - intros t1 t2 H1 H2 A1 A2. apply Hone; auto.
  - intros Hs x Hx Ha. eapply Hfront; [|exact Hx|by apply Hact].
    rewrite lookup_insert_ne in Hs; [done|].
    apply not_eq_sym, Hchain. exact Hcms.
  - intros x Hx Hst. destruct (Hstart x Hx Hst) as [Hn' ?]. split; [|done].
    rewrite lookup_insert_ne; [done|]. apply not_eq_sym. by apply Hnp.
  - intros q Hq. apply Hop. by eapply Hrem.
  - intros n' o' Hx. destruct (Hret n' o' Hx) as [?|?]; [left; auto|by right].
  - intros a o' c Hx Hc.
    assert (Hne : p <> a) by (apply not_eq_sym, Hchain; by eapply Hold).
    rewrite lookup_insert_ne in Hc by done.
    destruct Hcase as [[Hr ->]|[_ ->]]; [|by eapply Hlold].
    assert (Ha : active m (OnClient a DoRestart_old o')) by (cbn; eauto).
    by pose proof (Hidle Hr _ Hx Ha).
  - intros q o' Hx.
    destruct Hcase as [[Hr ->]|[_ ->]].
    + assert (Ha : active m (OnPlain q DoRestart_shutdown o')) by done.
      by pose proof (Hidle Hr _ Hx Ha).
    + destruct (Hlshut q o' Hx) as [(c & Hc & Hl)|?]; [left|by right].
      exists c. split; [|done]. apply Hkeep; [done|]. intros ->.
      by pose proof (Hthe _ Hc).
  - intros n' o' c Hx Hc.
    destruct Hcase as [[Hr ->]|[_ ->]];
      [|rewrite Hempty in Hc; by apply elem_of_empty in Hc].
    assert (Ha : active m (OnClient n' DoRestart_return o')) by done.
    pose proof (Hidle Hr _ Hx Ha) as [= -> ->].
    apply elem_of_singleton in Hc as ->. right. split.
    + rewrite lookup_insert_ne; [done|]. apply not_eq_sym.
      by apply (Hnp _ Hn).
    + exists p. split; [done|]. by rewrite lookup_insert_eq, Hr.
  - intros c Hc.
    assert (Hne : p <> _cmsClient m) by (apply not_eq_sym, Hchain; exact Hcms).
    rewrite lookup_insert_ne in Hc by done.
    destruct Hcase as [[Hr ->]|[_ ->]]; [|by apply Hlcms].
    exfalso. apply (Hfront (ltac:(eauto)) _ Ho). done.
  - destruct Hcase as [[_ ->]|[_ ->]]; [|done]. by rewrite size_singleton.
Qed.

(** *** A task that belongs to no restart runs on *)

Lemma calm_setKit_callback m cb o :
  calm m -> free m o -> calm (setKit_callback cb o m).
Proof.
  intros H Hfree. unfold setKit_callback.
  by apply (calm_issue_await m (Callback cb) SetKit_callback o).
Qed.

Lemma calm_setKit_clean m need_clean cb o :
  calm m -> free m o -> calm (setKit_clean need_clean cb o m).
Proof.
  intros H Hfree. unfold setKit_clean. destruct need_clean.
  - by apply (calm_issue_await m CleanPriorConfiguration (SetKit_clean cb) o).
  - by apply calm_setKit_callback.
Qed.

Lemma calm_resumeClient_bystander (m : machine) (i : nat) (p : pid)
    (f : clientFrame) (o : pid) (r : Driver.promise (option Driver.client)) :
  calm m -> suspended m !! i = Some (OnClient p f o) ->
  bystander (OnClient p f o) -> clients m !! p = Some r ->
  calm (resumeClient f o r (set_suspended (delete i (suspended m)) m)).
Proof.
  intros H Hi Hby Hr.
  assert (Hnn : r <> Driver.Fulfilled None).
  { intros ->. by apply (no_null m H p). }
  destruct (calm_remove m i _ H Hi Hby) as [H0 Hfree]. cbn [own] in Hfree.
  pose proof (bound_cms _ H0) as Hcms0.
  set (m0 := set_suspended _ _) in *.
  destruct Hby as (Hb1 & Hb2 & Hb3).
  destruct f; cbn in Hb1, Hb2, Hb3; try discriminate;
    destruct r as [[c|]|e]; try (by destruct Hnn); cbn [resumeClient].
  - by apply (calm_issue_await m0 (ShutdownAsync c) (SetKit_shutdown need_clean cb) o).
  - by apply calm_settle_free.
  - by apply calm_awaitClient.
  - by apply calm_settleClient.
  - by apply calm_settleClient.
  - by apply calm_settleClient.
  - by apply (calm_issue_await m0 (Request c QGlobalSettings) Restart_settings o).
  - by apply calm_settle_free.
  - by apply (calm_issue_await m0 (Request c (QConfigure args)) (Configure_configure c) o).
  - by apply calm_settle_free.
  - by apply (calm_issue_await m0 (Request c QCmakeInputs) (Refresh_inputs c) o).
  - by apply calm_settle_free.
Qed.

Lemma calm_resume_bystander (m : machine) (i : nat) (p : pid)
    (f : plainFrame) (o : pid) (r : Driver.promise plain) :
  calm m -> suspended m !! i = Some (OnPlain p f o) ->
  bystander (OnPlain p f o) -> results m !! p = Some r ->
  calm (resume f o r (set_suspended (delete i (suspended m)) m)).
Proof.
  intros H Hi Hby Hr.
  destruct (calm_remove m i _ H Hi Hby) as [H0 Hfree]. cbn [own] in Hfree.
  set (m0 := set_suspended _ _) in *.
  destruct Hby as (Hb1 & Hb2 & Hb3).
  destruct f; cbn in Hb1, Hb2, Hb3; try discriminate;
    destruct r as [v|e]; cbn [resume];
    try (by apply calm_settle_free);
    try (by apply calm_setKit_clean);
    try (by apply calm_setKit_callback).
  - destruct (Driver.generator (super m0)); [|by apply calm_settle_free].
    destruct (calm_restartClient m0 H0) as (H1 & Hp & Hlt & Hfree1).
    destruct (_restartClient m0) as [q m1]. cbn [fst snd] in *.
    apply calm_await; [done|by apply Hfree1|done|done].
  - destruct (calm_getClient m0 H0) as (H1 & Hp & Hlt & Hfree1).
    destruct (getClient m0) as [q m1]. cbn [fst snd] in *.
    apply calm_awaitClient; [done|by apply Hfree1|lia|done].
  - by apply (calm_issue_await m0 (Request cl QCompute) Configure_compute o).
  - destruct (Driver.instanceofServerError e); by apply calm_settle_free.
  - destruct (calm_refreshPostConfigure m0 H0) as (H1 & Hp & Hlt & Hfree1).
    destruct (_refreshPostConfigure m0) as [q m1]. cbn [fst snd] in *.
    apply calm_await; [done|by apply Hfree1|done|done].
  - destruct (Driver.instanceofServerError e); by apply calm_settle_free.
  - by apply (calm_issue_await m0 ScanInputs (Refresh_scan c) o).
  - by apply (calm_issue_await m0 (Request c QCache) (Refresh_cache c) o).
  - by apply (calm_issue_await m0 (Request c QCodemodel) Refresh_codemodel o).
Qed.

(** *** The activations of a restart run on *)

Lemma calm_resume_old (m : machine) (i : nat) (a o : pid)
    (r : Driver.promise (option Driver.client)) :
  calm m -> suspended m !! i = Some (OnClient a DoRestart_old o) ->
  clients m !! a = Some r ->
  calm (resumeClient DoRestart_old o r
          (set_suspended (delete i (suspended m)) m)).
Proof.
  intros H Hi Hr.
  assert (Hin : OnClient a DoRestart_old o ∈ suspended m)
    by (by eapply list_elem_of_lookup_2).
  destruct r as [[c|]|e]; cbn [resumeClient].
  - destruct (calm_issue m (ShutdownAsync c) H) as [H1 Hop1]; [done|].
    pose proof (calm_move (issue (ShutdownAsync c) m).2 i
                  (OnClient a DoRestart_old o)
                  (OnPlain (next m) DoRestart_shutdown o) [] H1 Hi) as Hmove.
    rewrite app_nil_r in Hmove. apply Hmove; try done.
    + cbn. eauto.
    + cbn. lia.
    + intros q o' [= <- <-]. left. exists c. split; [done|].
      by apply (live_old m H a o c).
    + intros x Hx. by apply elem_of_nil in Hx.
    + constructor.
  - exfalso. by apply (no_null m H a).
  - apply (calm_finish m i (OnClient a DoRestart_old o)); try done.
    cbn. eauto.
Qed.

Lemma calm_resume_shutdown (m : machine) (i : nat) (q o : pid)
    (r : Driver.promise plain) :
  calm m -> suspended m !! i = Some (OnPlain q DoRestart_shutdown o) ->
  results m !! q = Some r ->
  calm (resume DoRestart_shutdown o r
          (set_suspended (delete i (suspended m)) m)).
Proof.
  intros H Hi Hr.
  assert (Hin : OnPlain q DoRestart_shutdown o ∈ suspended m)
    by (by eapply list_elem_of_lookup_2).
  destruct r as [v|e]; cbn [resume].
  2: { by apply (calm_finish m i (OnPlain q DoRestart_shutdown o)). }
  assert (Hempty : live m = ∅).
  { destruct (live_shutdown m H q o Hin) as [(c & Hc & _)|[(v' & _ & ?)|(e & He)]].
    - destruct (ops_pending m H q _ Hc). congruence.
    - done.
    - congruence. }
  destruct (calm_fresh m H) as [H1 Hfree1].
  destruct (fresh_unsettled m H) as [Hfc _].
  unfold _startNewClient. cbn [fresh super set_next set_suspended].
  destruct (Driver.generator (super m)) as [g|].
  - destruct (calm_issue _ GetConfigureEnvironment H1) as [H2 Hop2]; [done|].
    pose proof (free_issue _ GetConfigureEnvironment _ Hfree1) as Hfree2.
    apply (calm_move (issue GetConfigureEnvironment (fresh m).2).2 i
             (OnPlain q DoRestart_shutdown o)
             (OnClient (next m) DoRestart_return o)
             [OnPlain (S (next m)) StartNew_environment (next m)] H2 Hi);
      try done.
    + cbn. lia.
    + intros n o' [= <- <-]. split; [done|]. right. eexists.
      split; [apply list_elem_of_singleton; reflexivity|done].
    + intros x ->%list_elem_of_singleton. exists (S (next m)), (next m).
      split; [done|]. split; [done|]. split; [done|]. split; [cbn; lia|done].
    + apply NoDup_singleton.
  - pose proof (calm_settleClient _ (next m)
                  (Driver.Rejected Driver.NoGeneratorError) H1 Hfree1) as H2.
    unfold settleClient in H2 |- *. cbn in H2 |- *. rewrite Hfc in H2 |- *.
    pose proof (calm_move _ i
                  (OnPlain q DoRestart_shutdown o)
                  (OnClient (next m) DoRestart_return o) [] (H2 ltac:(done)) Hi)
      as Hmove.
    rewrite app_nil_r in Hmove. apply Hmove; try done.
    + cbn. lia.
    + intros n o' [= <- <-]. split; [done|]. left. cbn.
      rewrite lookup_insert_eq. eauto.
    + intros x Hx. by apply elem_of_nil in Hx.
    + constructor.
Qed.

Lemma calm_resume_return (m : machine) (i : nat) (n o : pid)
    (r : Driver.promise (option Driver.client)) :
  calm m -> suspended m !! i = Some (OnClient n DoRestart_return o) ->
  clients m !! n = Some r ->
  calm (resumeClient DoRestart_return o r
          (set_suspended (delete i (suspended m)) m)).
Proof.
  intros H Hi Hr.
  assert (Hin : OnClient n DoRestart_return o ∈ suspended m)
    by (by eapply list_elem_of_lookup_2).
  cbn [resumeClient].
  apply (calm_finish m i (OnClient n DoRestart_return o)); try done.
  - intros n' o' [= <- <-]. eauto.
  - intros ->. by apply (no_null m H n).
  - intros c -> c' Hc'. apply elem_of_singleton.
    destruct (live_return m H n o c' Hin Hc') as [Hs|[Hs _]]; congruence.
Qed.

(** *** The activations of [_startNewClient] run on *)

Lemma start_not_live (m : machine) (q n : pid) (c : Driver.client) :
  calm m -> OnPlain q StartNew_environment n ∈ suspended m -> c ∈ live m ->
  False.
Proof.
  intros H Hin Hc.
  destruct (start_task m H _ Hin eq_refl) as [Hnone (o & Ho)]. cbn in *.
  destruct (live_return m H n o c Ho Hc) as [Hs|(_ & q' & Hq' & _)];
    [congruence|].
  by pose proof (NoDup_fmap_inj own _ _ _ (owns_nodup m H) Hq' Hin eq_refl).
Qed.

Lemma calm_resume_environment (m : machine) (i : nat) (q n : pid)
    (r : Driver.promise plain) :
  calm m -> suspended m !! i = Some (OnPlain q StartNew_environment n) ->
  results m !! q = Some r ->
  calm (resume StartNew_environment n r
          (set_suspended (delete i (suspended m)) m)).
Proof.
  intros H Hi Hr.
  assert (Hin : OnPlain q StartNew_environment n ∈ suspended m)
    by (by eapply list_elem_of_lookup_2).
  destruct r as [v|e]; cbn [resume].
  - by apply (calm_env_start m i q n).
  - apply (calm_start_finish m i (OnPlain q StartNew_environment n)); try done.
    intros c Hc. exfalso. by eapply start_not_live.
Qed.

Lemma calm_resume_started (m : machine) (i : nat) (q n : pid)
    (r : Driver.promise (option Driver.client)) :
  calm m -> suspended m !! i = Some (OnClient q StartNew_return n) ->
  clients m !! q = Some r ->
  calm (resumeClient StartNew_return n r
          (set_suspended (delete i (suspended m)) m)).
Proof.
  intros H Hi Hr.
  assert (Hin : OnClient q StartNew_return n ∈ suspended m)
    by (by eapply list_elem_of_lookup_2).
  cbn [resumeClient].
  apply (calm_start_finish m i (OnClient q StartNew_return n)); try done.
  - intros q' n' [= <- <-]. eauto.
  - intros ->. by apply (no_null m H q).
  - intros c Hc.
    destruct (start_task m H _ Hin eq_refl) as [Hnone (o & Ho)]. cbn in *.
    destruct (live_return m H n o c Ho Hc) as [Hs|(_ & q' & Hq' & Hqc)];
      [congruence|].
    pose proof (NoDup_fmap_inj own _ _ _ (owns_nodup m H) Hq' Hin eq_refl)
      as [= ->].
    congruence.
Qed.

(** *** Every step of a driver that is not stopped or cleaned *)

Lemma calm_complete (m : machine) (i : nat) (p : pid) (op : operation)
    (answer : Driver.outcome unit) :
  calm m -> inFlight m !! i = Some (p, op) ->
  calm (complete p op answer
          (set_history (history m ++ [Completed p answer])
             (set_inFlight (delete i (inFlight m)) m))).
Proof.
  intros H Hi.
  pose proof (calm_set_history m (history m ++ [Completed p answer]) H) as Hh.
  set (mh := set_history _ m) in *.
  change (set_history _ (set_inFlight _ m))
    with (set_inFlight (delete i (inFlight mh)) mh).
  assert (Hi' : inFlight mh !! i = Some (p, op)) by done.
  clearbody mh. clear H Hi.
  destruct op; cbn [complete].
  - destruct answer as [[]|e].
    + apply calm_complete_start; [done..|]. intros Hempty. left.
      split; [done|]. cbn. rewrite Hempty. by rewrite union_empty_r_L.
    + pose proof (calm_complete_start mh i p (Driver.Rejected e) (live mh) Hh Hi')
        as Hc.
      destruct (ops_pending mh Hh p _ (list_elem_of_lookup_2 _ _ _ Hi')) as [Hpc _].
      unfold settleClient in Hc |- *. cbn in Hc |- *. rewrite Hpc in Hc |- *.
      apply Hc. intros _. right. eauto.
  - destruct answer as [[]|e].
    + exact (calm_complete_shutdown mh i p c Hh Hi').
    + by apply (calm_complete_other mh i p (ShutdownAsync c)).
  - by apply (calm_complete_other mh i p (Request c q)).
  - by apply (calm_complete_other mh i p CleanPriorConfiguration).
  - by apply (calm_complete_other mh i p GetConfigureEnvironment).
  - cbn zeta.
    apply (calm_complete_other (set_super (cb (super mh)).2 mh) i p (Callback cb));
      [by apply calm_set_super|done..].
  - by apply (calm_complete_other mh i p ScanInputs).
Qed.

Lemma calm_step (a : action) (m m' : machine) :
  calm m -> gentle a = true -> step a m = Some m' -> calm m'.
Proof.
  intros H Hg Hs. destruct a; try discriminate; cbn [step] in Hs.
  - injection Hs as <-. unfold doSetKit, _setKitAndRestart. cbn [fst snd fresh].
    destruct (calm_fresh m H) as [H1 Hfree].
    apply calm_set_clientChangeInProgress; [|cbn; lia].
    apply calm_awaitClient; [done|done| |done].
    pose proof (bound_cms m H). cbn. lia.
  - injection Hs as <-. unfold doSetConfigurePreset, _setKitAndRestart.
    cbn [fst snd fresh].
    destruct (calm_fresh m H) as [H1 Hfree].
    apply calm_set_clientChangeInProgress; [|cbn; lia].
    apply calm_awaitClient; [done|done| |done].
    pose proof (bound_cms m H). cbn. lia.
  - injection Hs as <-. unfold doConfigure. cbn [fst snd fresh].
    destruct (calm_fresh m H) as [H1 Hfree].
    apply calm_await; [done|done| |done].
    pose proof (bound_change m H). cbn. lia.
  - injection Hs as <-. by apply calm_restartClient.
  - destruct (suspended m !! i) as [[p f o|p f o]|] eqn:Hi; [| |done].
    + destruct (clients m !! p) as [r|] eqn:Hr; [|done]. injection Hs as <-.
      pose proof (no_stop m H _ (list_elem_of_lookup_2 _ _ _ Hi)) as Hst.
      destruct f; try discriminate Hst.
      all: try (by apply (calm_resumeClient_bystander m i p _ o r)).
      * by apply (calm_resume_old m i p o r).
      * by apply (calm_resume_return m i p o r).
      * by apply (calm_resume_started m i p o r).
    + destruct (results m !! p) as [r|] eqn:Hr; [|done]. injection Hs as <-.
      pose proof (no_stop m H _ (list_elem_of_lookup_2 _ _ _ Hi)) as Hst.
      destruct f; try discriminate Hst.
      all: try (by apply (calm_resume_bystander m i p _ o r)).
      * by apply (calm_resume_shutdown m i p o r).
      * by apply (calm_resume_environment m i p o r).
  - destruct (list_find _ _) as [[i [p' op]]|] eqn:Hf; [|done].
    injection Hs as <-.
    apply list_find_Some in Hf as (Hi & Hp & _). cbn in Hp. subst p'.
    by apply calm_complete.
Qed.

Lemma calm_holding (b : Driver.base) : calm (holding b).
Proof.
  constructor; cbn.
  all: try (intros; exfalso; eapply elem_of_nil; eassumption).
  all: try lia.
  all: try (constructor; fail).
  - intros p [x Hp]. apply lookup_singleton_Some in Hp as [<- _]. lia.
  - intros p [x Hp]. apply lookup_singleton_Some in Hp as [<- _]. lia.
  - intros p Hp. apply lookup_singleton_Some in Hp as [_ ?]. done.
  - left. rewrite lookup_singleton_eq. eauto.
  - intros c Hc. rewrite lookup_singleton_eq in Hc. by injection Hc as <-.
Qed.

Lemma calm_run (actions : list action) (m m' : machine) :
  calm m -> forallb gentle actions = true -> run actions m = Some m' ->
  calm m'.
Proof.
  revert m. induction actions as [|a rest IH]; intros m H Hg Hr.
  - injection Hr as <-. done.
  - cbn in Hg, Hr. apply andb_true_iff in Hg as [Ha Hrest].
    destruct (step a m) as [m1|] eqn:Hs; [|done].
    apply (IH m1); [by eapply calm_step|done..].
Qed.

(** While the start of a client is in flight, no client is live, no other
    start is in flight, and the start is the one of a restart. *)
Lemma start_alone (m : machine) (p : pid) :
  calm m -> (p, Start) ∈ inFlight m ->
  live m = ∅ /\
  (forall p', (p', Start) ∈ inFlight m -> p' = p) /\
  exists n o, OnClient p StartNew_return n ∈ suspended m /\
              OnClient n DoRestart_return o ∈ suspended m.
Proof.
  intros H Hp.
  pose proof (owns_nodup m H) as Hnd.
  destruct (start_op m H p Hp) as (n & Hn).
  destruct (start_task m H _ Hn eq_refl) as [Hnone (o & Ho)]. cbn in Hnone, Ho.
  destruct (ops_pending m H p _ Hp) as [Hpc _].
  split; [|split].
  - apply set_eq. intros c. split; [|by intros ?%elem_of_empty]. intros Hc.
    exfalso.
    destruct (live_return m H n o c Ho Hc) as [Hs|(_ & q & Hq & Hqc)];
      [congruence|].
    pose proof (NoDup_fmap_inj own _ _ _ Hnd Hq Hn eq_refl) as [= ->].
    congruence.
  - intros p' Hp'.
    destruct (start_op m H p' Hp') as (n' & Hn').
    destruct (start_task m H _ Hn' eq_refl) as [_ (o' & Ho')]. cbn in Ho'.
    assert (Heq : OnClient n' DoRestart_return o' = OnClient n DoRestart_return o)
      by (by apply (one_active m H)).
    injection Heq as -> ->.
    by pose proof (NoDup_fmap_inj own _ _ _ Hnd Hn' Hn eq_refl) as [= ->].
  - eauto.
Qed.

(** X24. A driver that holds a client is asked for kit and preset changes,
    configures and restarts, in any number and order, and its tasks and
    operations proceed in any interleaving; it is not stopped and no clean
    configure is asked for. Then at every moment at most one client is
    live; when the client promise of the driver is fulfilled with a client,
    no other client is live; and no client promise is ever fulfilled with
    null. *)
Theorem X24_one_live_client (b : Driver.base) (actions : list action)
    (m : machine) :
  forallb gentle actions = true ->
  run actions (holding b) = Some m ->
  size (live m) <= 1 /\
  (forall c, clients m !! _cmsClient m = Some (Driver.Fulfilled (Some c)) ->
     live m ⊆ {[c]}) /\
  (forall p, clients m !! p <> Some (Driver.Fulfilled None)).
Proof.
  intros Hg Hr.
  pose proof (calm_run actions _ m (calm_holding b) Hg Hr) as H.
  split; [by apply live_one|]. split; [by apply live_cms|by apply no_null].
Qed.

(** X25. In such a run, a client is started only by a restart and only
    once the old client is gone: while a start is in flight no client is
    live and no other start is in flight, the promise of the start is
    pending, and the start is awaited by an activation of _startNewClient
    whose promise an activation of _doRestartClient returns. *)
Theorem X25_start_finds_no_client (b : Driver.base) (actions : list action)
    (m : machine) (p : pid) :
  forallb gentle actions = true ->
  run actions (holding b) = Some m ->
  (p, Start) ∈ inFlight m ->
  live m = ∅ /\
  (forall p', (p', Start) ∈ inFlight m -> p' = p) /\
  clients m !! p = None /\
  exists n o, OnClient p StartNew_return n ∈ suspended m /\
              OnClient n DoRestart_return o ∈ suspended m.
Proof.
  intros Hg Hr Hp.
  pose proof (calm_run actions _ m (calm_holding b) Hg Hr) as H.
  destruct (start_alone m p H Hp) as (Hl & Hone & Hex).
  split; [done|]. split; [done|]. split; [|done].
  by destruct (ops_pending m H p _ Hp).
Qed.

End OneClientFacts.

(** ** The flag and the configure request, among the tasks *)

Section FlagFacts.
Import Async.
Import ConfigureFlag (issues).

Ltac open_step :=
  repeat match goal with
         | |- context [Driver.generator ?b] => destruct (Driver.generator b)
         | |- context [Driver.instanceofServerError ?e] =>
             destruct (Driver.instanceofServerError e)
         | |- context [settle ?p ?r ?m] =>
             unfold settle; destruct (results _ !! p)
         | |- context [settleClient ?p ?r ?m] =>
             unfold settleClient; destruct (clients _ !! p)
         end.

Ltac not_issued :=
  let H := fresh in
  intros [H Hn]; cbn in H;
  repeat (apply elem_of_snoc in H as [H|H]);
  first [ by destruct Hn
        | discriminate H
        | (exfalso; apply Hn; by eapply elem_of_delete_sub) ].

(** A configure request is issued by one kind of step only: a task of
    [doConfigure] that waited for its client runs on with that client. *)
Lemma configure_issued (a : Async.action) (m m' : Async.machine)
    (p : pid) (cl : Driver.client) (args : list string) :
  Async.step a m = Some m' ->
  issues m m' p (Request cl (QConfigure args)) ->
  p = next m /\
  exists i q own,
    a = Resume i /\
    suspended m !! i = Some (OnClient q (Configure_getClient args) own) /\
    clients m !! q = Some (Driver.Fulfilled (Some cl)).
Proof.
  intros Hs. destruct a; cbn [Async.step] in Hs.
  - injection Hs as <-. not_issued.
  - injection Hs as <-. not_issued.
  - injection Hs as <-. not_issued.
  - injection Hs as <-. not_issued.
  - injection Hs as <-. not_issued.
  - injection Hs as <-. not_issued.
  - destruct (suspended m !! i) as [[q f own|q f own]|] eqn:Hi; [| |done].
    + destruct (clients m !! q) as [r|] eqn:Hr; [|done]. injection Hs as <-.
      destruct f, r as [[c|]|e]; cbn [resumeClient setKit_clean setKit_callback
        _startNewClient fresh issue fst snd];
        try (destruct need_clean); open_step; try not_issued.
      intros [H Hn]. cbn in H. apply elem_of_snoc in H as [H|H];
        [by destruct Hn|].
      injection H as -> -> ->. split; [done|]. by exists i, q, own.
    + destruct (results m !! q) as [r|] eqn:Hr; [|done]. injection Hs as <-.
      destruct f, r as [v|e]; cbn [resume setKit_clean setKit_callback
        _startNewClient _restartClient _refreshPostConfigure _doRestartClient
        getClient fresh issue fst snd];
        try (destruct need_clean); open_step; try not_issued.
  - destruct (list_find _ _) as [[i [p' op]]|] eqn:Hf; [|done].
    injection Hs as <-.
    destruct op, answer as [[]|e]; cbn [complete]; cbn zeta; open_step;
      not_issued.
Qed.

(** The step that lowers the flag is the one that sends the configure
    request (or would send it, had the call a client). *)
Lemma written_lowers (a : Async.action) (m m' : Async.machine) (flag : bool) :
  Async.step a m = Some m' ->
  ConfigureFlag.written a m flag <> flag ->
  ConfigureFlag.written a m flag = false /\
  ((exists cl args,
      inFlight m' = inFlight m ++ [(next m, Request cl (QConfigure args))]) \/
   (exists i q own args,
      a = Resume i /\
      suspended m !! i = Some (OnClient q (Configure_getClient args) own) /\
      clients m !! q = Some (Driver.Fulfilled None) /\
      inFlight m' = inFlight m)).
Proof.
  intros Hs Hw. destruct a; cbn [ConfigureFlag.written] in *; try done.
  cbn [Async.step] in Hs.
  destruct (suspended m !! i) as [[q f own|q f own]|] eqn:Hi; try done.
  destruct (clients m !! q) as [r|] eqn:Hq; [|done]. injection Hs as <-.
  destruct f; cbn [ConfigureFlag.resumeClient] in *; try done.
  destruct r as [[c|]|e]; try done.
  - split; [done|]. left. by exists c, args.
  - split; [done|]. right. exists i, q, own, args.
    repeat (split; [done|]). cbn [Async.resumeClient]. open_step; done.
Qed.

End FlagFacts.

Section FlagClaim.
Import Driver.

(** C9. The configuration-changed flag is lowered before the configure
    request goes out. Among the tasks of the driver, whatever their
    interleaving: the step that issues the configure request of a
    doConfigure call leaves the flag lowered, so that no task ever sees
    that request in flight with the flag not yet lowered by the call; and
    no other step of any task writes the flag: a step that changes it is
    a settings change, which raises it, or it lowers it and has just
    issued a configure request (or it is a doConfigure call that got null
    for a client: it lowers the flag and sends nothing). So a settings
    change that arrives while the request is in flight is not undone when
    the call ends. And in a
    doConfigure call that got its client and sends the requests, run on
    its own: whatever the replies, and in particular when the configure
    request throws, the flag is false when the call ends. After a
    configure that fails with a ServerError the call has returned 1, the
    flag is false, the recorded input file set (with the cache and the
    code model) is what it was before the call, and a following
    checkNeedsReconfigure() is true exactly when that input file set is
    empty or out of date. *)
Theorem C9_flag_lowered_before_request (env : environment) (s : state)
    (args : list string) (cl : client) (s1 : state) :
  (forall a m m',
     ConfigureFlag.step a m = Some m' ->
     let flag := ConfigureFlag._hadConfigurationChanged in
     (forall p c cacheArguments,
        ConfigureFlag.issues (ConfigureFlag.tasks m) (ConfigureFlag.tasks m')
          p (Async.Request c (Async.QConfigure cacheArguments)) ->
        flag m' = false) /\
     (flag m' <> flag m ->
      (a = ConfigureFlag.CallConfigureSettingsChange /\ flag m' = true) \/
      (flag m' = false /\
       ((exists c cacheArguments,
           Async.inFlight (ConfigureFlag.tasks m')
           = Async.inFlight (ConfigureFlag.tasks m)
             ++ [(Async.next (ConfigureFlag.tasks m),
                  Async.Request c (Async.QConfigure cacheArguments))]) \/
        (exists i q own cacheArguments,
           a = ConfigureFlag.Task (Async.Resume i) /\
           Async.suspended (ConfigureFlag.tasks m) !! i
           = Some (Async.OnClient q (Async.Configure_getClient cacheArguments)
                     own) /\
           Async.clients (ConfigureFlag.tasks m) !! q
           = Some (Fulfilled None) /\
           Async.inFlight (ConfigureFlag.tasks m')
           = Async.inFlight (ConfigureFlag.tasks m)))))) /\
  (acquireClient env s = (Returned cl, s1) ->
   (forall o s', doConfigure args false env s = (o, s') ->
      _hadConfigurationChanged (this s') = false) /\
   (forall e, reply env (now s1) unit (Configure cl args) = Thrown e ->
      exists o evs,
        doConfigure args false env s =
          (o, afterTry s1 1 (Sent (Configure cl args) :: evs))) /\
   (forall m, requestsFail env (now s1) cl args (ServerError m) ->
      exists s',
        doConfigure args false env s = (Returned 1, s') /\
        _hadConfigurationChanged (this s') = false /\
        _cmakeInputFileSet (this s') = _cmakeInputFileSet (this s) /\
        _cacheEntries (this s') = _cacheEntries (this s) /\
        codeModel (this s') = codeModel (this s) /\
        forall env', exists b s'',
          checkNeedsReconfigure env' s' = (Returned b, s'') /\
          b = Nat.eqb (length (Dirty.inputFiles (_cmakeInputFileSet (this s)))) 0
              || Dirty.checkOutOfDate (mtimes env' (now s'))
                   (_cmakeInputFileSet (this s)))).
Proof.
  split.
  - intros a m m' Hs flag. subst flag. destruct a as [a|]; cbn in Hs.
    + destruct (Async.step a (ConfigureFlag.tasks m)) as [t'|] eqn:Ht;
        [|done].
      injection Hs as <-. cbn [ConfigureFlag.tasks
                               ConfigureFlag._hadConfigurationChanged].
      split.
      * intros p c cacheArguments Hi.
        destruct (configure_issued _ _ _ _ _ _ Ht Hi)
          as (_ & i & q & own & -> & Hsus & Hcl).
        cbn [ConfigureFlag.written]. by rewrite Hsus, Hcl.
      * intros Hw. right.
        destruct (written_lowers _ _ _ _ Ht Hw)
          as [Hf [Hsent|(i & q & own & ca & -> & Hi & Hq & Hsame)]].
        -- split; [done|]. by left.
        -- split; [done|]. right. by exists i, q, own, ca.
    + injection Hs as <-. cbn. split.
      * intros p c cacheArguments [Hin Hout]. done.
      * intros _. by left.
  - intros Hacq. rewrite (doConfigure_cases env s args cl s1 Hacq).
    assert (_cmakeInputFileSet (this s1) = _cmakeInputFileSet (this s) /\
            _cacheEntries (this s1) = _cacheEntries (this s) /\
            codeModel (this s1) = codeModel (this s)) as (Hfiles & Hcache & Hcm).
    { pose proof (preserves_acquireClient
        (fun d => _cmakeInputFileSet d = _cmakeInputFileSet (this s) /\
                  _cacheEntries d = _cacheEntries (this s) /\
                  codeModel d = codeModel (this s))) as Hp.
      specialize (Hp (fun p d H => H) env s). rewrite Hacq in Hp. by apply Hp. }
    split; [|split].
    + intros o s'.
      destruct (reply env (now s1) unit (Configure cl args)) as [[]|e].
      * destruct (reply env (S (now s1)) unit (Compute cl)) as [[]|e].
        -- intros Hrun.
           pose proof (preserves_refreshPostConfigure
             (fun d => _hadConfigurationChanged d = false)
             (fun p d H => H) (fun i d H => H) (fun c d H => H) (fun c d H => H)
             env (afterTry s1 2 [Sent (Configure cl args); Sent (Compute cl)])
             eq_refl) as Hp.
           unfold bind in Hrun.
           destruct (_refreshPostConfigure env _) as [[[]|e] s3];
             injection Hrun as _ <-; exact Hp.
        -- destruct (instanceofServerError e); intros [= _ <-]; reflexivity.
      * destruct (instanceofServerError e); intros [= _ <-]; reflexivity.
    + intros e ->. destruct (instanceofServerError e); eauto.
    + intros m Hfail.
      assert (exists sent evs,
        match reply env (now s1) unit (Configure cl args) with
        | Thrown e =>
            if instanceofServerError e
            then (Returned 1,
                  afterTry s1 1 [Sent (Configure cl args);
                                 LogError (cmake_configure_error e)])
            else (Thrown e, afterTry s1 1 [Sent (Configure cl args)])
        | Returned _ =>
            match reply env (S (now s1)) unit (Compute cl) with
            | Thrown e =>
                if instanceofServerError e
                then (Returned 1,
                      afterTry s1 2 [Sent (Configure cl args); Sent (Compute cl);
                                     LogError (cmake_configure_error e)])
                else (Thrown e,
                      afterTry s1 2 [Sent (Configure cl args); Sent (Compute cl)])
            | Returned _ =>
                (do! _ <- _refreshPostConfigure; ret 0) env
                  (afterTry s1 2 [Sent (Configure cl args); Sent (Compute cl)])
            end
        end = (Returned 1, afterTry s1 sent evs)) as (sent & evs & ->).
      { destruct Hfail as [Hc|[Hc Hp]]; rewrite Hc; [|rewrite Hp]; simpl; eauto. }
      eexists. split; [reflexivity|]. simpl.
      repeat (split; [done|]).
      intros env'.
      unfold checkNeedsReconfigure, bind, get, ret, InputFileSet_checkOutOfDate.
      cbn [afterTry this now trace _hadConfigurationChanged _cmakeInputFileSet
           set_hadConfigurationChanged].
      rewrite Hfiles.
      destruct (Nat.eqb (length (Dirty.inputFiles (_cmakeInputFileSet (this s)))) 0);
        eexists _, _; split; reflexivity.
Qed.

End FlagClaim.

Lemma C9_flag_lowered_before_request_witness :
  (exists s',
     Driver.doConfigure ["-DFOO=1"] false
       (DriverExamples.world (Driver.Thrown (Driver.ServerError "boom")))
       DriverExamples.ready
     = (Driver.Returned 1, s') /\
     Driver._hadConfigurationChanged (Driver.this s') = false) /\
  (exists m m',
     ConfigureFlag.run (take 4 FlagExamples.changedMeanwhile)
       {| ConfigureFlag.tasks := Async.holding AsyncExamples.base;
          ConfigureFlag._hadConfigurationChanged := true |} = Some m /\
     ConfigureFlag.step (ConfigureFlag.Task (Async.Resume 0)) m = Some m' /\
     (4, Async.Request 0 (Async.QConfigure ["-DFOO=1"]))
       ∈ Async.inFlight (ConfigureFlag.tasks m') /\
     ConfigureFlag._hadConfigurationChanged m = true /\
     ConfigureFlag._hadConfigurationChanged m' = false).
Proof.
  pose proof (C9_flag_lowered_before_request
                (DriverExamples.world (Driver.Thrown (Driver.ServerError "boom")))
                DriverExamples.ready ["-DFOO=1"] 7 DriverExamples.ready)
    as [Hmachine Hcall].
  split.
  - destruct (Hcall eq_refl) as (_ & _ & H).
    destruct (H "boom" (or_introl eq_refl)) as (s' & Hrun & Hflag & _).
    exists s'. split; [exact Hrun|exact Hflag].
  - eexists _, _. split; [vm_compute; reflexivity|].
    match goal with
    | |- ?S = Some _ /\ _ =>
        let v := eval vm_compute in S in
        match v with
        | Some ?m' => assert (Hs : S = Some m') by (vm_compute; reflexivity)
        end
    end.
    split; [exact Hs|].
    assert (Hin : (4, Async.Request 0 (Async.QConfigure ["-DFOO=1"]))
                  ∈ [(4, Async.Request 0 (Async.QConfigure ["-DFOO=1"]))])
      by apply list_elem_of_here.
    split; [exact Hin|]. split; [reflexivity|].
    refine (proj1 (Hmachine _ _ _ Hs) 4 0 ["-DFOO=1"] _).
    split; [exact Hin|]. intros H. by apply elem_of_nil in H.
Defined.

(** A settings change that arrives while the configure request is in
    flight is still there when the configure has failed and returned. *)
Example settings_change_survives :
  exists m,
    ConfigureFlag.run FlagExamples.changedMeanwhile
      {| ConfigureFlag.tasks := Async.holding AsyncExamples.base;
         ConfigureFlag._hadConfigurationChanged := true |} = Some m /\
    Async.results (ConfigureFlag.tasks m) !! 2
      = Some (Driver.Fulfilled (Async.Code 1)) /\
    ConfigureFlag._hadConfigurationChanged m = true.
Proof. eexists. split; [vm_compute; reflexivity|]. split; reflexivity. Qed.

(** ** Client changes, one after another *)

Section ClientChanges.
Import Async Calm.

(** C3, as the code has it. (1) Kit and configure-preset changes are not
    chained to one another: doSetKit(cb) is doSetConfigurePreset(false, cb),
    and every such call starts its task at once, makes the promise of that
    task the pending client change in place of the previous one, and leaves
    the task waiting for the client promise, not for the previous change:
    the task can run on as soon as the client promise is settled. (2) A
    configure waits for the client change that is pending when it is
    issued: whatever happens next, its task stays at its first await until
    that change is settled (it cannot run on before), and only from there
    does it ask for the client. (3) A restart that finds a client issues
    the shutdown of that client and stays there until the shutdown has
    completed; if the shutdown fails, the restart fails without starting a
    client, and if it succeeds the restart goes on to start the new
    client. (4) A driver that holds a client is asked for kit and preset
    changes, configures and restarts, in any number and order, and its
    tasks and operations proceed in any interleaving; it is not stopped
    and no clean configure is asked for. Then at no point are two clients
    live, and the old client is gone before a new one is started: while a
    start is in flight no client is live and no other start is in
    flight. *)
Theorem C3_client_changes_replace (m : machine) :
  (forall need_clean cb,
     step (CallSetKit cb) m = step (CallSetConfigurePreset false cb) m /\
     exists m',
       step (CallSetConfigurePreset need_clean cb) m = Some m' /\
       _clientChangeInProgress m' = next m /\
       suspended m' =
         suspended m ++
         [OnClient (_cmsClient m) (SetKit_client need_clean cb) (next m)] /\
       clients m' = clients m /\ results m' = results m /\
       (is_Some (clients m !! _cmsClient m) ->
        is_Some (step (Resume (length (suspended m))) m'))) /\
  (forall args m1,
     step (CallConfigure args) m = Some m1 ->
     let t := OnPlain (_clientChangeInProgress m) (Configure_change args)
                (next m) in
     t ∈ suspended m1 /\
     (forall acts m', run acts m1 = Some m' ->
        t ∈ suspended m' \/ settled m' (_clientChangeInProgress m)) /\
     (forall m' i, suspended m' !! i = Some t ->
        results m' !! _clientChangeInProgress m = None ->
        step (Resume i) m' = None) /\
     (forall own v m0,
        resume (Configure_change args) own (Driver.Fulfilled v) m0 =
        awaitClient (next m0) (Configure_getClient args) own (getClient m0).2)) /\
  (forall own c,
     let m1 := resumeClient DoRestart_old own (Driver.Fulfilled (Some c)) m in
     let t := OnPlain (next m) DoRestart_shutdown own in
     inFlight m1 = inFlight m ++ [(next m, ShutdownAsync c)] /\
     suspended m1 = suspended m ++ [t] /\
     (forall acts m', run acts m1 = Some m' ->
        t ∈ suspended m' \/ settled m' (next m)) /\
     (forall e m0,
        resume DoRestart_shutdown own (Driver.Rejected e) m0 =
        settleClient own (Driver.Rejected e) m0) /\
     (forall v m0,
        resume DoRestart_shutdown own (Driver.Fulfilled v) m0 =
        awaitClient (next m0) DoRestart_return own (_startNewClient m0).2)) /\
  (forall b actions m',
     forallb gentle actions = true ->
     run actions (holding b) = Some m' ->
     size (live m') <= 1 /\
     (forall p, (p, Start) ∈ inFlight m' ->
        live m' = ∅ /\
        (forall p', (p', Start) ∈ inFlight m' -> p' = p))).
Proof.
  split; [|split; [|split]].
  - intros need_clean cb. apply change_replaces.
  - intros args m1 Hs t.
    destruct (configure_waits m args m1 Hs) as (Hin & Hrun & Hnext).
    split; [exact Hin|]. split; [exact Hrun|]. split; [|exact Hnext].
    intros m' i Hi Hp. by eapply not_settled_stays.
  - intros own c. apply restart_shuts_down.
  - intros b actions m' Hg Hr.
    pose proof (calm_run actions _ m' (calm_holding b) Hg Hr) as H.
    split; [by apply live_one|].
    intros p Hp. destruct (start_alone m' p H Hp) as (Hl & Hone & _). done.
Qed.

End ClientChanges.

(** A kit change is pending (promise 2) when a configure is issued. The
    change shuts the old client down and its callback is called and takes
    its time; all the while the configure stays at its first await: the
    pending change is not settled, the task of the configure cannot run
    on, and no request of the configure is in flight. *)
Lemma C3_client_changes_replace_witness :
  let m := (Async.doSetKit AsyncExamples.slow
              (Async.holding AsyncExamples.base)).2 in
  let t := Async.OnPlain 2 (Async.Configure_change ["-DFOO=1"]) 3 in
  Async._clientChangeInProgress m = 2 /\
  exists m',
    Async.run [Async.Resume 0; Async.Complete 4 AsyncExamples.ok;
               Async.Resume 1]
      (Async.doConfigure ["-DFOO=1"] m).2 = Some m' /\
    Async.results m' !! 2 = None /\
    t ∈ Async.suspended m' /\
    Async.suspended m' !! 0 = Some t /\
    Async.step (Async.Resume 0) m' = None /\
    Async.inFlight m' = [(5, Async.Callback AsyncExamples.slow)].
Proof.
  intros m t. split; [reflexivity|].
  destruct (C3_client_changes_replace m) as (_ & H & _).
  destruct (H ["-DFOO=1"] _ eq_refl) as (_ & Hwait & Hstay & _).
  eexists. split; [vm_compute; reflexivity|].
  assert (Hnone : forall x : option (Driver.promise Async.plain),
            x = None -> ~ is_Some x) by (intros x -> [? [=]]).
  split; [vm_compute; reflexivity|].
  split.
  - destruct (Hwait [Async.Resume 0; Async.Complete 4 AsyncExamples.ok;
                     Async.Resume 1] _ ltac:(vm_compute; reflexivity))
      as [Hin|Hs]; [exact Hin|].
    exfalso. revert Hs. apply Hnone. vm_compute. reflexivity.
  - split; [vm_compute; reflexivity|].
    split; [|vm_compute; reflexivity].
    apply Hstay; vm_compute; reflexivity.
Defined.

(** ** Examples of the further properties *)

Lemma X9_rejected_client_promise_is_final_witness :
  Driver.getClient LifecycleExamples.world LifecycleExamples.stuck
  = (Driver.Thrown Driver.NoGeneratorError, LifecycleExamples.stuck).
Proof.
  destruct (X9_rejected_client_promise_is_final LifecycleExamples.world
              LifecycleExamples.stuck Driver.NoGeneratorError false
              DriverExamples.selectNinja eq_refl) as [H _].
  exact H.
Defined.

Lemma X10_restartClient_steps_witness :
  (Driver._restartClient LifecycleExamples.world DriverExamples.ready).1
    = Driver.Returned tt /\
  Driver._cmsClient
    (Driver.this
       (Driver._restartClient LifecycleExamples.world DriverExamples.ready).2)
    = Driver.Fulfilled (Some 102).
Proof.
  destruct (X10_restartClient_steps LifecycleExamples.world
              DriverExamples.ready (Some 7) eq_refl) as [_ H].
  destruct (H (fun c0 _ => eq_refl)) as [_ Hstart].
  destruct (Hstart [] DriverExamples.ninja 102
              (conj eq_refl (conj eq_refl eq_refl))) as [Hok _].
  destruct (Hok LifecycleExamples.settings eq_refl) as [Hrun _].
  rewrite Hrun. split; reflexivity.
Defined.

Lemma X11_kit_change_steps_witness :
  (Driver.doSetConfigurePreset false DriverExamples.selectNinja
     LifecycleExamples.world DriverExamples.ready).1
  = Driver.Returned (Driver.Fulfilled tt).
Proof.
  destruct (X11_kit_change_steps LifecycleExamples.world DriverExamples.ready
              false DriverExamples.selectNinja (Some 7) []
              DriverExamples.ninja 103 LifecycleExamples.settings
              eq_refl (conj eq_refl (fun _ => eq_refl)) eq_refl
              (fun c0 _ => eq_refl) (conj eq_refl (conj eq_refl eq_refl))
              eq_refl) as [H _].
  exact H.
Defined.

Lemma X14_clean_configure_defers_failure_witness :
  (Driver.doPreCleanConfigure LifecycleExamples.world DriverExamples.ready).1
  = Driver.Returned tt.
Proof.
  exact (proj1 (X14_clean_configure_defers_failure LifecycleExamples.world
                  DriverExamples.ready (Some 7) eq_refl)).
Defined.

Lemma X16_configure_subscription_witness :
  (exists rest,
     Driver.trace
       (Driver.doConfigure ["-DFOO=1"] false LifecycleExamples.world
          DriverExamples.ready).2
     = [Driver.Subscribed; Driver.Sent (Driver.Configure 7 ["-DFOO=1"]);
        Driver.Sent (Driver.Compute 7); Driver.Disposed;
        Driver.Sent (Driver.CmakeInputs 7)] ++ rest) /\
  (Driver.doConfigure ["-DFOO=1"] true LifecycleExamples.world
     DriverExamples.ready).1
  = Driver.Returned 0.
Proof.
  destruct (X16_configure_subscription LifecycleExamples.world
              DriverExamples.ready ["-DFOO=1"] 7 DriverExamples.ready
              eq_refl) as [(mid & rest & Htrace & _ & _ & Hok & _) Hshow].
  split.
  - destruct (Hok (conj eq_refl eq_refl)) as (-> & rest' & ->).
    exists rest'. exact Htrace.
  - rewrite Hshow. reflexivity.
Defined.

Lemma X17_refresh_replaces_field_by_field_witness :
  (Driver._refreshPostConfigure LifecycleExamples.world DriverExamples.ready).1
    = Driver.Returned tt /\
  Driver.cmakeFiles
    (Driver.this
       (Driver._refreshPostConfigure LifecycleExamples.world
          DriverExamples.ready).2)
    = ["/src/CMakeLists.txt"].
Proof.
  destruct (X17_refresh_replaces_field_by_field LifecycleExamples.world
              DriverExamples.ready 7 eq_refl) as [_ H].
  destruct (H ["/src/CMakeLists.txt"] eq_refl) as [_ Hcache].
  destruct (Hcache
              [DriverExamples.cacheEntry "FOO" "1" "STRING";
               DriverExamples.cacheEntry "CMAKE_GENERATOR" "Ninja" "INTERNAL"]
              eq_refl) as [_ Hmodel].
  destruct (Hmodel (Some DriverExamples.serverModel) eq_refl)
    as (Hr & _ & Hfiles & _).
  exact (conj Hr Hfiles).
Defined.

Lemma compareShallow_refl (v : Config.value) :
  LifecycleExamples.compareShallow v v = Config.Equivalent.
Proof.
  destruct v; simpl; rewrite ?Bool.eqb_reflx, ?Z.eqb_refl, ?String.eqb_refl;
    reflexivity.
Qed.

Lemma X20_update_twice_reports_nothing_witness :
  Config.completed
    (Config.updatePartial LifecycleExamples.compareShallow
       (Config.reader
          (Config.updatePartial LifecycleExamples.compareShallow
             DriverExamples.reader LifecycleExamples.unixMakefiles true))
       LifecycleExamples.unixMakefiles true)
  = Config.Returns [].
Proof.
  destruct (X20_update_twice_reports_nothing LifecycleExamples.compareShallow
              DriverExamples.reader LifecycleExamples.unixMakefiles true true
              compareShallow_refl) as [H _].
  { split; [apply NoDup_singleton|].
    intros Hin. apply list_elem_of_singleton in Hin. discriminate. }
  exact H.
Defined.

Lemma X21_silent_update_is_total_witness :
  let newData := [("foo", Config.VNumber 1);
                  ("generator", Config.VString "Unix Makefiles")] in
  let silent := Config.updatePartial DriverExamples.compareStrings
                  DriverExamples.reader newData false in
  Config.invoked silent = [] /\
  Config.completed silent = Config.Returns ["generator"] /\
  Config.configData (Config.reader silent) !! "foo"
    = Some (Config.VNumber 1).
Proof.
  intros newData silent.
  destruct (X21_silent_update_is_total DriverExamples.compareStrings
              DriverExamples.reader newData)
    as (Hinv & Hret & _ & Hstored & _).
  { split.
    - apply NoDup_cons. split; [|apply NoDup_singleton].
      intros Hin%list_elem_of_singleton. discriminate.
    - intros Hin. apply list_elem_of_In in Hin. simpl in Hin.
      destruct Hin as [Hin|[Hin|[]]]; discriminate. }
  split; [exact Hinv|]. split.
  - etransitivity; [exact Hret|]. vm_compute. reflexivity.
  - apply Hstored. apply list_elem_of_here.
Defined.

Lemma X22_update_fires_in_order_witness :
  let newData := [("foo", Config.VNumber 1);
                  ("generator", Config.VString "Unix Makefiles")] in
  let u := Config.update DriverExamples.compareStrings
             DriverExamples.reader newData in
  Config.completed u = Config.Returns ["generator"] /\
  Config.invoked u = [(1, "generator", Config.VString "Unix Makefiles")].
Proof.
  intros newData u.
  destruct (X22_update_fires_in_order DriverExamples.compareStrings
              DriverExamples.reader newData)
    as (_ & _ & _ & Hfires & _).
  { split.
    - apply NoDup_cons. split; [|apply NoDup_singleton].
      intros Hin%list_elem_of_singleton. discriminate.
    - intros Hin. apply list_elem_of_In in Hin. simpl in Hin.
      destruct Hin as [Hin|[Hin|[]]]; discriminate. }
  destruct Hfires as [Hret Hinv].
  { intros k Hk Hf. apply list_elem_of_In in Hk. simpl in Hk.
    destruct Hk as [<-|[<-|[]]].
    - vm_compute in Hf. discriminate.
    - unfold Config.settings. do 11 apply list_elem_of_further.
      apply list_elem_of_here. }
  split.
  - etransitivity; [exact Hret|]. vm_compute. reflexivity.
  - etransitivity; [exact Hinv|]. vm_compute. reflexivity.
Defined.

Lemma X23_configure_then_check_witness :
  (Driver.doConfigure ["-DFOO=1"] false LifecycleExamples.world
     DriverExamples.ready).1 = Driver.Returned 0 /\
  (Driver.checkNeedsReconfigure LifecycleExamples.world
     (Driver.doConfigure ["-DFOO=1"] false LifecycleExamples.world
        DriverExamples.ready).2).1 = Driver.Returned false.
Proof.
  pose proof (X23_configure_then_check LifecycleExamples.world
                DriverExamples.ready ["-DFOO=1"] 7 DriverExamples.ready
                ["/src/CMakeLists.txt"]
                [DriverExamples.cacheEntry "FOO" "1" "STRING";
                 DriverExamples.cacheEntry "CMAKE_GENERATOR" "Ninja" "INTERNAL"]
                (Some DriverExamples.serverModel)
                eq_refl (conj eq_refl eq_refl) eq_refl eq_refl eq_refl) as H.
  cbv zeta in H. destruct H as (H0 & _ & _ & _ & Hcheck).
  split; [exact H0|]. rewrite Hcheck. reflexivity.
Defined.

Lemma X24_one_live_client_witness :
  exists m,
    Async.run AsyncExamples.overlapping (Async.holding AsyncExamples.base)
      = Some m /\
    size (Async.live m) <= 1.
Proof.
  eexists. split; [vm_compute; reflexivity|].
  apply (X24_one_live_client AsyncExamples.base AsyncExamples.overlapping).
  - vm_compute. reflexivity.
  - vm_compute. reflexivity.
Defined.

Lemma X25_start_finds_no_client_witness :
  exists m,
    Async.run (take 15 AsyncExamples.overlapping)
      (Async.holding AsyncExamples.base) = Some m /\
    Async.live m = ∅.
Proof.
  eexists. split; [vm_compute; reflexivity|].
  apply (X25_start_finds_no_client AsyncExamples.base
           (take 15 AsyncExamples.overlapping) _ 14).
  - vm_compute. reflexivity.
  - vm_compute. reflexivity.
  - vm_compute. apply list_elem_of_In. simpl. auto.
Defined.
